(** * scrubber/common.py: the [UniqueMoleculeContainer] class

    A shallow embedding of the molecule container of [scrubber/common.py]
    together with the properties of its accessors, removal methods,
    operators and iteration protocol.

    Python objects live in a store: a container object holds a reference to
    its private [__data] dictionary, so that aliasing between containers,
    their dictionaries and the iterators they hand out is explicit.
    Exceptions are values; a method is a function from the store to an
    outcome and the store it leaves behind. *)

From stdpp Require Import base list strings gmap pretty.

#[local] Set Warnings "-clear-no-such-hyp".

Local Open Scope Z_scope.

(** ** Python runtime: exceptions, outcomes, the store monad *)

(** The built-in exceptions the class raises or lets escape.  Only
    [IndexError] carries its message: it is the only one whose text the class
    composes itself. *)
Inductive exc : Type :=
| IndexError (msg : string)
| KeyError (key : string)
| TypeError
| StopIteration
| AttributeError.

(** [Stuck] is not a Python behaviour: it marks a run that follows a reference
    absent from the store, which no Python program can hold.  No [except]
    clause catches it. *)
Inductive outcome (A : Type) : Type :=
| Ok (a : A)
| Raise (e : exc)
| Stuck.

Arguments Ok {A} a.
Arguments Raise {A} e.
Arguments Stuck {A}.

Abbreviation loc := nat (only parsing).

(** A Python [dict]: insertion ordered, one entry per key. *)
Abbreviation dict V := (list (string * V)).

(** The value of an expression that is either [None] or a molecule. *)
Inductive pyval (V : Type) : Type :=
| PyNone
| PyMol (m : V).

Arguments PyNone {V}.
Arguments PyMol {V} m.

(** The argument of a subscript [x[key]]. *)
Inductive pykey : Type :=
| KStr (s : string)
| KInt (i : Z)
| KOther.

(** [l[i]] on a Python list: a negative [i] counts from the end. *)
Definition list_getitem {A : Type} (l : list A) (i : Z) : option A :=
  if i <? 0 then
    if - i <=? Z.of_nat (length l) then l !! Z.to_nat (Z.of_nat (length l) + i)
    else None
  else l !! Z.to_nat i.

(** The largest index of a 64-bit CPython, [sys.maxsize]: a subscript is
    converted to a machine index before the list looks at it. *)
Definition PY_SSIZE_T_MAX : Z := 2 ^ 63 - 1.

Definition fits_index (i : Z) : Prop :=
  - PY_SSIZE_T_MAX - 1 ≤ i ≤ PY_SSIZE_T_MAX.

Global Instance fits_index_dec i : Decision (fits_index i).
Proof. unfold fits_index. apply _. Defined.

(** The message of the [IndexError] of [l[i]] for an index the list does not
    hold: the list's own message for an index that fits a machine index, the
    message of the conversion for one that does not.  A list has at most
    [PY_SSIZE_T_MAX] elements, so an index the list holds always fits. *)
Definition list_index_error (i : Z) : string :=
  if decide (fits_index i) then "list index out of range"
  else "cannot fit 'int' into an index-sized integer".

(** [d.keys()], in order. *)
Definition dict_keys {V : Type} (d : dict V) : list string := d.*1.

(** [k in d] *)
Definition dict_contains {V : Type} (k : string) (d : dict V) : bool :=
  bool_decide (k ∈ dict_keys d).

(** [d[k]] as a lookup; [None] stands for the [KeyError]. *)
Fixpoint dict_get {V : Type} (k : string) (d : dict V) : option V :=
  match d with
  | [] => None
  | (k', v) :: d' => if decide (k = k') then Some v else dict_get k d'
  end.

(** [d[k] = v]: overwrite in place when [k] is a key, append otherwise. *)
Fixpoint dict_set {V : Type} (k : string) (v : V) (d : dict V) : dict V :=
  match d with
  | [] => [(k, v)]
  | (k', v') :: d' =>
      if decide (k = k') then (k, v) :: d' else (k', v') :: dict_set k v d'
  end.

(** [del d[k]]; [None] stands for the [KeyError]. *)
Fixpoint dict_del {V : Type} (k : string) (d : dict V) : option (dict V) :=
  match d with
  | [] => None
  | (k', v') :: d' =>
      if decide (k = k') then Some d'
      else cons (k', v') <$> dict_del k d'
  end.

(** "%d" % n *)
Definition fmt_d (n : Z) : string := pretty n.

Module UniqueMoleculeContainer.

(** The attributes of an instance.  [__index] does not exist before the first
    call of [__iter__]. *)
Record t : Type := Build {
  __data : loc;
  sealed : bool;
  __chirality : bool;
  __index : option Z
}.

Abbreviation umc := t.

Section Store.
Context {Mol : Type}.

(** The store: container objects and dictionary objects, each addressed by
    its position.  Nothing is ever freed. *)
Record heap : Type := Heap {
  conts : list umc;
  dicts : list (dict Mol)
}.

Definition M (A : Type) : Type := heap → outcome A * heap.

Definition ret {A : Type} (a : A) : M A := λ h, (Ok a, h).

Definition bind {A B : Type} (m : M A) (f : A → M B) : M B :=
  λ h, match m h with
       | (Ok a, h') => f a h'
       | (Raise e, h') => (Raise e, h')
       | (Stuck, h') => (Stuck, h')
       end.

Definition raise {A : Type} (e : exc) : M A := λ h, (Raise e, h).

(** [try: m except: handler] (a bare [except] catches every exception). *)
Definition try_except {A : Type} (m : M A) (handler : exc → M A) : M A :=
  λ h, match m h with
       | (Raise e, h') => handler e h'
       | r => r
       end.

(** [try: m except IndexError: handler] *)
Definition try_except_IndexError {A : Type} (m : M A) (handler : M A) : M A :=
  λ h, match m h with
       | (Raise (IndexError _), h') => handler h'
       | r => r
       end.

End Store.

Arguments heap Mol : clear implicits.
Arguments M Mol A : clear implicits.

Global Instance M_ret {Mol} : MRet (M Mol) := λ A, ret.
Global Instance M_bind {Mol} : MBind (M Mol) := λ A B f m, bind m f.

Section Primitives.
Context {Mol : Type}.

(** Attribute and dictionary access through references. *)
Definition load (l : loc) : M Mol umc :=
  λ h, match conts h !! l with
       | Some c => (Ok c, h)
       | None => (Stuck, h)
       end.

Definition store (l : loc) (c : umc) : M Mol unit :=
  λ h, match conts h !! l with
       | Some _ => (Ok (), Heap (<[l := c]> (conts h)) (dicts h))
       | None => (Stuck, h)
       end.

Definition new_object (c : umc) : M Mol loc :=
  λ h, (Ok (length (conts h)), Heap (conts h ++ [c]) (dicts h)).

Definition new_dict (d : dict Mol) : M Mol loc :=
  λ h, (Ok (length (dicts h)), Heap (conts h) (dicts h ++ [d])).

Definition read_dict (r : loc) : M Mol (dict Mol) :=
  λ h, match dicts h !! r with
       | Some d => (Ok d, h)
       | None => (Stuck, h)
       end.

Definition write_dict (r : loc) (d : dict Mol) : M Mol unit :=
  λ h, match dicts h !! r with
       | Some _ => (Ok (), Heap (conts h) (<[r := d]> (dicts h)))
       | None => (Stuck, h)
       end.

(** [for x in xs: body(x)] over a list value. *)
Fixpoint for_each {A : Type} (xs : list A) (body : A → M Mol unit) : M Mol unit :=
  match xs with
  | [] => mret ()
  | x :: xs' => body x ;; for_each xs' body
  end.

(** [[f(x) for x in xs]] *)
Fixpoint comprehension {A B : Type} (f : A → M Mol B) (xs : list A) : M Mol (list B) :=
  match xs with
  | [] => mret []
  | x :: xs' => y ← f x; ys ← comprehension f xs'; mret (y :: ys)
  end.

(** [l[i]], raising the [IndexError] of the subscript: that of the list for
    an index out of range, that of the conversion for an index beyond the
    machine's. *)
Definition list_index {A : Type} (l : list A) (i : Z) : M Mol A :=
  match list_getitem l i with
  | Some x => mret x
  | None => raise (IndexError (list_index_error i))
  end.

(** [d[k]] on the dictionary at [r]. *)
Definition dict_getitem (r : loc) (k : string) : M Mol Mol :=
  d ← read_dict r;
  match dict_get k d with
  | Some v => mret v
  | None => raise (KeyError k)
  end.

(** [d[k] = v] on the dictionary at [r]. *)
Definition dict_setitem (r : loc) (k : string) (v : Mol) : M Mol unit :=
  d ← read_dict r;
  write_dict r (dict_set k v d).

(** [del d[k]] on the dictionary at [r]. *)
Definition dict_delitem (r : loc) (k : string) : M Mol unit :=
  d ← read_dict r;
  match dict_del k d with
  | Some d' => write_dict r d'
  | None => raise (KeyError k)
  end.

(** [d.copy()] on the dictionary at [r]: a new dictionary with the same
    entries. *)
Definition dict_copy (r : loc) : M Mol loc :=
  d ← read_dict r;
  new_dict d.

End Primitives.

(** ** The class *)

(** [mol2smi(mol, chirality)]: the canonical SMILES of a molecule, computed by
    RDKit and taken here as the one operation the class needs from it. *)
Class Canonicalizer (Mol : Type) : Type :=
  mol2smi : Mol → bool → string.

(** The [argument] of the constructor, by the type tests [__init__] makes. *)
Inductive init_arg (Mol : Type) : Type :=
| ArgNone
| ArgContainer (other : loc)
| ArgSeq (mols : list Mol)
| ArgOther.

Arguments ArgNone {Mol}.
Arguments ArgContainer {Mol} other.
Arguments ArgSeq {Mol} mols.
Arguments ArgOther {Mol}.

Section Methods.
Context {Mol : Type} `{!Canonicalizer Mol}.

(** [self.sealed = v] *)
Definition set_sealed (self : loc) (v : bool) : M Mol unit :=
  c ← load self;
  store self (Build (__data c) v (__chirality c) (__index c)).

(** [self.__data = r] *)
Definition set_data (self : loc) (r : loc) : M Mol unit :=
  c ← load self;
  store self (Build r (sealed c) (__chirality c) (__index c)).

(** [self.__index = i] *)
Definition set_index (self : loc) (i : Z) : M Mol unit :=
  c ← load self;
  store self (Build (__data c) (sealed c) (__chirality c) (Some i)).

(** [add(mol, replace=False)]: a key already present is left alone unless
    [replace] is set; otherwise the entry is written and the seal broken. *)
Definition add (self : loc) (mol : Mol) (replace : bool) : M Mol bool :=
  c ← load self;
  let key := mol2smi mol (__chirality c) in
  d ← read_dict (__data c);
  if dict_contains key d && negb replace then mret false
  else
    dict_setitem (__data c) key mol ;;
    set_sealed self false ;;
    mret true.

(** Calling the class: a new object, then the body of [__init__].  The first
    three assignments give the object its attributes; a container argument
    has its dictionary copied, a list or tuple has its molecules added one by
    one, the seal being cleared after each. *)
Definition __init__ (argument : init_arg Mol) (sealed : bool)
    (ignore_chirality : bool) : M Mol loc :=
  d ← new_dict [];
  self ← new_object (Build d sealed (negb ignore_chirality) None);
  match argument with
  | ArgNone => mret self
  | ArgContainer other =>
      oc ← load other;
      d' ← dict_copy (__data oc);
      set_data self d' ;;
      mret self
  | ArgSeq mols =>
      for_each mols (λ m, add self m false ;; set_sealed self false) ;;
      mret self
  | ArgOther => raise TypeError
  end.

(** [remove_smiles]: the [del] raises [KeyError] for an absent key, which the
    bare [except] turns into the answer [False]. *)
Definition remove_smiles (self : loc) (smiles : string) : M Mol bool :=
  try_except
    (c ← load self;
     dict_delitem (__data c) smiles ;;
     set_sealed self false ;;
     mret true)
    (λ _, mret false).

Definition remove_mol (self : loc) (mol : Mol) : M Mol bool :=
  c ← load self;
  let smiles := mol2smi mol (__chirality c) in
  remove_smiles self smiles.

(** The loop of [remove_mols], with its local variable [success]:
    [if not self.remove_mol(mol): success = False]. *)
Fixpoint remove_mols_loop (self : loc) (mol_list : list Mol) (success : bool)
    : M Mol bool :=
  match mol_list with
  | [] => mret success
  | mol :: rest =>
      removed ← remove_mol self mol;
      remove_mols_loop self rest (if negb removed then false else success)
  end.

(** [remove_mols]: [True] for the empty list; otherwise [success = False]
    and the loop. *)
Definition remove_mols (self : loc) (mol_list : list Mol) : M Mol bool :=
  match mol_list with
  | [] => mret true
  | _ => remove_mols_loop self mol_list false
  end.

(** [remove_from_indices]: the comprehension [[keys_list[i] for i in
    indices_list]] is evaluated to its end before the removal loop starts. *)
Definition remove_from_indices (self : loc) (indices_list : list Z)
    : M Mol (list string) :=
  c ← load self;
  d ← read_dict (__data c);
  let keys_list := dict_keys d in
  smi_list ← comprehension (λ i, list_index keys_list i) indices_list;
  for_each smi_list (λ smi, remove_smiles self smi ;; mret ()) ;;
  mret smi_list.

(** [x[key]]: a string is looked up in the dictionary, an integer in the
    list of keys first; any other type is refused. *)
Definition __getitem__ (self : loc) (key : pykey) : M Mol Mol :=
  c ← load self;
  match key with
  | KStr s => dict_getitem (__data c) s
  | KInt i =>
      d ← read_dict (__data c);
      k ← list_index (dict_keys d) i;
      dict_getitem (__data c) k
  | KOther => raise TypeError
  end.

(** The [try] body of [get] evaluates [self.__getitem__(key)] and drops its
    value; the method then ends without a [return]. *)
Definition get (self : loc) (key : pykey) (default : pyval Mol)
    : M Mol (pyval Mol) :=
  try_except
    (__getitem__ self key ;; mret PyNone)
    (λ _, mret default).

(** [pop(index=0)]: only an [IndexError] of the [try] body reaches the
    handler, which raises a new one with a message of its own.  The seal is
    not assigned. *)
Definition pop (self : loc) (index : Z) : M Mol Mol :=
  try_except_IndexError
    (c ← load self;
     d ← read_dict (__data c);
     key ← list_index (dict_keys d) index;
     mol ← dict_getitem (__data c) key;
     dict_delitem (__data c) key ;;
     mret mol)
    (c ← load self;
     d ← read_dict (__data c);
     let size := Z.of_nat (length d) in
     let msg :=
       if decide (size = 0) then "Empty container."
       else "Valid index must be between 0 and " +:+ fmt_d size
            +:+ ", but " +:+ fmt_d index +:+ " was used." in
     raise (IndexError msg)).

Definition copy (self : loc) : M Mol loc :=
  __init__ (ArgContainer self) true false.

Definition keys (self : loc) : M Mol (list string) :=
  c ← load self;
  d ← read_dict (__data c);
  mret (dict_keys d).

(** [__iter__]: [self.__index = -1; return self]. *)
Definition __iter__ (self : loc) : M Mol loc :=
  set_index self (-1) ;;
  mret self.

(** [__next__]: the counter is incremented before the test against the
    size; reading it before any [__iter__] is an [AttributeError]. *)
Definition __next__ (self : loc) : M Mol Mol :=
  c ← load self;
  match __index c with
  | None => raise AttributeError
  | Some i =>
      set_index self (i + 1) ;;
      d ← read_dict (__data c);
      if decide (i + 1 > Z.of_nat (length d) - 1) then raise StopIteration
      else
        key ← list_index (dict_keys d) (i + 1);
        dict_getitem (__data c) key
  end.

(** [self + other].  The loop runs over the items of [other]'s dictionary
    and writes to the dictionary of [new], which is another object, so the
    items are those at the start of the loop.  The assignment in the loop is
    to [self.sealed]. *)
Definition __add__ (self other : loc) : M Mol loc :=
  new ← __init__ (ArgContainer self) true false;
  oc ← load other;
  items ← read_dict (__data oc);
  for_each items (λ '(k, v),
    nc ← load new;
    nd ← read_dict (__data nc);
    if negb (dict_contains k nd) then
      set_sealed self false ;;
      dict_setitem (__data nc) k v
    else mret ()) ;;
  mret new.

Definition __radd__ (self other : loc) : M Mol loc :=
  __add__ self other.

Definition __len__ (self : loc) : M Mol Z :=
  c ← load self;
  d ← read_dict (__data c);
  mret (Z.of_nat (length (dict_keys d))).

Definition __contains__ (self : loc) (mol : Mol) : M Mol bool :=
  c ← load self;
  let key := mol2smi mol (__chirality c) in
  d ← read_dict (__data c);
  mret (dict_contains key d).

(** [set(a) == set(b)] on two lists of keys. *)
Definition keyset_eq (a b : list string) : bool :=
  bool_decide ((list_to_set a : gset string) = list_to_set b).

Definition __eq__ (self other : loc) : M Mol bool :=
  c ← load self;
  d ← read_dict (__data c);
  oc ← load other;
  od ← read_dict (__data oc);
  mret (keyset_eq (dict_keys d) (dict_keys od)).

(** [clear()]: the seal becomes the answer to "was the container empty?",
    then [__data] is deleted and assigned a new empty dictionary. *)
Definition clear (self : loc) : M Mol unit :=
  c ← load self;
  d ← read_dict (__data c);
  set_sealed self (bool_decide (Z.of_nat (length d) = 0)) ;;
  r ← new_dict [];
  set_data self r.

(** [sep.join(xs)] *)
Fixpoint str_join (sep : string) (xs : list string) : string :=
  match xs with
  | [] => ""
  | [x] => x
  | x :: xs' => x +:+ sep +:+ str_join sep xs'
  end.

(** The line feed of the Python literals. *)
Definition LF : string := String (Ascii.ascii_of_nat 10) EmptyString.

(** [__repr__]: the keys joined by a line feed, two blanks, a dash and a
    blank. *)
Definition __repr__ (self : loc) : M Mol string :=
  c ← load self;
  d ← read_dict (__data c);
  mret (str_join (LF +:+ "  - ") (dict_keys d)).

(** [__str__]: one line ["  - %s" % m] per key, joined by line feeds.  The
    method returns there; the statements after the [return] are never
    run. *)
Definition __str__ (self : loc) : M Mol string :=
  c ← load self;
  d ← read_dict (__data c);
  let buff := (λ m, "  - " +:+ m) <$> dict_keys d in
  mret (str_join LF buff).

(** [self += other].  A key of [other]'s dictionary is written to the
    dictionary of [self] only when [self] lacks it, which cannot happen when
    the two are one dictionary: the items the loop runs over are those at
    its start. *)
Definition __iadd__ (self other : loc) : M Mol loc :=
  oc ← load other;
  items ← read_dict (__data oc);
  for_each items (λ '(k, v),
    c ← load self;
    d ← read_dict (__data c);
    if negb (dict_contains k d) then
      set_sealed self false ;;
      dict_setitem (__data c) k v
    else mret ()) ;;
  mret self.

(** [self & other]: the values of [self]'s dictionary that are members of
    [other] are added to a container constructed with the defaults.  The
    loop writes to the new container only. *)
Definition __and__ (self other : loc) : M Mol loc :=
  new ← __init__ ArgNone true false;
  c ← load self;
  d ← read_dict (__data c);
  for_each d.*2 (λ mol,
    member ← __contains__ other mol;
    if negb member then mret ()
    else add new mol false ;; mret ()) ;;
  mret new.

(** [self - other]: as [&], with the membership test negated. *)
Definition __sub__ (self other : loc) : M Mol loc :=
  new ← __init__ ArgNone true false;
  c ← load self;
  d ← read_dict (__data c);
  for_each d.*2 (λ mol,
    member ← __contains__ other mol;
    if negb member then add new mol false ;; mret ()
    else mret ()) ;;
  mret new.

End Methods.

End UniqueMoleculeContainer.

Import UniqueMoleculeContainer.

(** ** What a store says about a container *)

Section Views.
Context {Mol : Type}.

(** The dictionary a container's [__data] refers to. *)
Definition entries (h : heap Mol) (l : loc) : option (dict Mol) :=
  match conts h !! l with
  | Some c => dicts h !! __data c
  | None => None
  end.

Definition sealed_at (h : heap Mol) (l : loc) : option bool :=
  sealed <$> conts h !! l.

Definition chirality_at (h : heap Mol) (l : loc) : option bool :=
  __chirality <$> conts h !! l.

Definition index_at (h : heap Mol) (l : loc) : option (option Z) :=
  __index <$> conts h !! l.

(** [live h l c d]: [l] is a container object with attributes [c] whose
    dictionary holds [d]. *)
Definition live (h : heap Mol) (l : loc) (c : umc) (d : dict Mol) : Prop :=
  conts h !! l = Some c ∧ dicts h !! __data c = Some d.

(** The indices a Python list of length [n] accepts. *)
Definition index_ok (n : nat) (i : Z) : Prop :=
  - Z.of_nat n ≤ i < Z.of_nat n.

(** The position a valid index denotes. *)
Definition position (n : nat) (i : Z) : nat :=
  if i <? 0 then Z.to_nat (Z.of_nat n + i) else Z.to_nat i.

Definition empty_heap : heap Mol := Heap [] [].

(** Every dictionary of the store has one entry per key. *)
Definition dicts_ok (h : heap Mol) : Prop :=
  Forall (λ d, NoDup (dict_keys d)) (dicts h).

(** One round of the loop of [__add__], on the dictionary of the new
    container and a flag telling whether the loop assigned [sealed] yet. *)
Definition merge_step (st : bool * dict Mol) (kv : string * Mol)
    : bool * dict Mol :=
  if dict_contains kv.1 st.2 then st else (true, dict_set kv.1 kv.2 st.2).

Definition merge (d items : dict Mol) : bool * dict Mol :=
  foldl merge_step (false, d) items.

(** The attributes [c] with the seal set to [v]. *)
Definition with_sealed (c : umc) (v : bool) : umc :=
  Build (__data c) v (__chirality c) (__index c).

(** The attributes [c] with the position counter set to [i]. *)
Definition with_index (c : umc) (i : Z) : umc :=
  Build (__data c) (sealed c) (__chirality c) (Some i).

(** The store [h] after container [l] got attributes [c]. *)
Definition put_attrs (h : heap Mol) (l : loc) (c : umc) : heap Mol :=
  Heap (<[l := c]> (conts h)) (dicts h).

(** The store [h] after container [l] got attributes [c] and its dictionary
    the contents [d]. *)
Definition put (h : heap Mol) (l : loc) (c : umc) (d : dict Mol) : heap Mol :=
  Heap (<[l := c]> (conts h)) (<[__data c := d]> (dicts h)).

(** The store a run leaves. *)
Definition final {A : Type} (r : outcome A * heap Mol) : heap Mol := r.2.

(** A computation that keeps the dictionaries of the store well formed. *)
Definition keeps_dicts_ok {A : Type} (m : M Mol A) : Prop :=
  ∀ h, dicts_ok h → dicts_ok (final (m h)).

End Views.

Global Instance index_ok_dec n i : Decision (index_ok n i).
Proof. unfold index_ok. apply _. Defined.

(** ** Sequences of calls on one container *)

(** The calls the seal is specified against: lookups, membership tests,
    removals by key or by molecule, insertions. *)
Inductive call (Mol : Type) : Type :=
| CallGet (key : pykey) (default : pyval Mol)
| CallContains (mol : Mol)
| CallRemoveSmiles (smiles : string)
| CallRemoveMol (mol : Mol)
| CallAdd (mol : Mol) (replace : bool).

Arguments CallGet {Mol} key default.
Arguments CallContains {Mol} mol.
Arguments CallRemoveSmiles {Mol} smiles.
Arguments CallRemoveMol {Mol} mol.
Arguments CallAdd {Mol} mol replace.

Definition is_add {Mol : Type} (cl : call Mol) : bool :=
  match cl with
  | CallAdd _ _ => true
  | _ => false
  end.

Section Calls.
Context {Mol : Type} `{!Canonicalizer Mol}.

(** One call; the answer tells whether it was an insertion or a removal that
    reported success. *)
Definition do_call (self : loc) (cl : call Mol) : M Mol bool :=
  match cl with
  | CallGet key default => get self key default ;; mret false
  | CallContains mol => __contains__ self mol ;; mret false
  | CallRemoveSmiles smiles => remove_smiles self smiles
  | CallRemoveMol mol => remove_mol self mol
  | CallAdd mol replace => add self mol replace
  end.

(** The calls in sequence; the answer tells whether any insertion or removal
    reported success, [mutated] telling it for the calls before. *)
Fixpoint do_calls (self : loc) (cls : list (call Mol)) (mutated : bool)
    : M Mol bool :=
  match cls with
  | [] => mret mutated
  | cl :: cls' =>
      b ← do_call self cl;
      do_calls self cls' (mutated || b)
  end.

(** Whether a call is an insertion or a removal that succeeds on a container
    with chirality mode [chirality] and entries [d]: a removal of a key that
    is held, an insertion of a key that is not, or one with [replace]. *)
Definition call_succeeds (chirality : bool) (d : dict Mol) (cl : call Mol)
    : bool :=
  match cl with
  | CallGet _ _ => false
  | CallContains _ => false
  | CallRemoveSmiles smiles => dict_contains smiles d
  | CallRemoveMol mol => dict_contains (mol2smi mol chirality) d
  | CallAdd mol replace =>
      negb (dict_contains (mol2smi mol chirality) d && negb replace)
  end.

(** The entries such a call leaves. *)
Definition call_effect (chirality : bool) (d : dict Mol) (cl : call Mol)
    : dict Mol :=
  match cl with
  | CallGet _ _ => d
  | CallContains _ => d
  | CallRemoveSmiles smiles => default d (dict_del smiles d)
  | CallRemoveMol mol => default d (dict_del (mol2smi mol chirality) d)
  | CallAdd mol replace =>
      if dict_contains (mol2smi mol chirality) d && negb replace then d
      else dict_set (mol2smi mol chirality) mol d
  end.

Definition calls_effect (chirality : bool) (d : dict Mol)
    (cls : list (call Mol)) : dict Mol :=
  foldl (call_effect chirality) d cls.

(** Whether some call of the sequence succeeds, each call meeting the
    entries the calls before it left. *)
Fixpoint calls_succeed (chirality : bool) (d : dict Mol)
    (cls : list (call Mol)) : bool :=
  match cls with
  | [] => false
  | cl :: cls' =>
      call_succeeds chirality d cl
      || calls_succeed chirality (call_effect chirality d cl) cls'
  end.

End Calls.

(** ** Client loops of the class docstring *)

Section Clients.
Context {Mol : Type} `{!Canonicalizer Mol}.

(** [for i in range(len(x)): mol = x.pop()], the molecules collected in the
    order they are popped. *)
Definition consume (x : loc) : M Mol (list Mol) :=
  n ← __len__ x;
  comprehension (λ _ : nat, pop x 0) (seq 0 (Z.to_nat n)).

(** One round of a [for] statement: [next(it)], the [StopIteration] that ends
    the loop turned into [None]. *)
Definition next_or_stop (it : loc) : M Mol (option Mol) :=
  λ h, match __next__ it h with
       | (Ok m, h') => (Ok (Some m), h')
       | (Raise StopIteration, h') => (Ok None, h')
       | (Raise e, h') => (Raise e, h')
       | (Stuck, h') => (Stuck, h')
       end.

(** The rounds of [for m in it], the molecules collected; [fuel] bounds the
    number of rounds, and a loop that needs more is [Stuck]. *)
Fixpoint for_rounds (fuel : nat) (it : loc) : M Mol (list Mol) :=
  match fuel with
  | O => λ h, (Stuck, h)
  | S fuel' =>
      r ← next_or_stop it;
      match r with
      | None => mret []
      | Some m => ms ← for_rounds fuel' it; mret (m :: ms)
      end
  end.

(** [[m for m in x]] *)
Definition to_list (fuel : nat) (x : loc) : M Mol (list Mol) :=
  it ← __iter__ x;
  for_rounds fuel it.

(** What [add(m)] makes of the entries [acc] of a container with chirality
    mode [chirality]. *)
Definition insert_new (chirality : bool) (acc : dict Mol) (m : Mol) : dict Mol :=
  if dict_contains (mol2smi m chirality) acc then acc
  else dict_set (mol2smi m chirality) m acc.

(** The keys of [d] are the SMILES of its records under chirality mode
    [chirality]. *)
Definition canonical (chirality : bool) (d : dict Mol) : Prop :=
  Forall (λ kv, kv.1 = mol2smi kv.2 chirality) d.

End Clients.

(** ** Containers and their dictionaries *)

(** Every container refers to a dictionary of the store, and no two
    containers refer to the same one. *)
Definition heap_ok {Mol : Type} (h : heap Mol) : Prop :=
  Forall (λ c, (__data c < length (dicts h))%nat) (conts h)
  ∧ NoDup (__data <$> conts h).

(** A computation that keeps the store well formed. *)
Definition keeps_heap_ok {Mol A : Type} (m : M Mol A) : Prop :=
  ∀ h, heap_ok h → heap_ok (final (m h)).

(** A computation that allocates nothing and assigns no [__data]. *)
Definition same_shape {Mol A : Type} (m : M Mol A) : Prop :=
  ∀ h, __data <$> conts (final (m h)) = __data <$> conts h
       ∧ length (dicts (final (m h))) = length (dicts h).

(** The store is well formed and holds container [b] with attributes [cb]
    and records [db]. *)
Definition bystander {Mol : Type} (b : loc) (cb : umc) (db : dict Mol)
    (h : heap Mol) : Prop :=
  heap_ok h ∧ live h b cb db.

(** A computation that leaves container [b] as it is. *)
Definition spares {Mol A : Type} (b : loc) (cb : umc) (db : dict Mol)
    (m : M Mol A) : Prop :=
  ∀ h, bystander b cb db h → bystander b cb db (final (m h)).

(** ** A concrete molecule type, for the examples

    A molecule is given by its isomeric and its non-isomeric canonical SMILES;
    [serial] tells apart two molecule objects with the same SMILES. *)
Record toy_mol : Type := ToyMol {
  isomeric : string;
  plain : string;
  serial : nat
}.

Global Instance toy_canonicalizer : Canonicalizer toy_mol :=
  λ mol chirality, if chirality then isomeric mol else plain mol.

Definition L_alanine : toy_mol := ToyMol "C[C@H](N)C(=O)O" "CC(N)C(=O)O" 1.
Definition benzene : toy_mol := ToyMol "c1ccccc1" "c1ccccc1" 3.
Definition benzene' : toy_mol := ToyMol "c1ccccc1" "c1ccccc1" 4.
Definition pyridine : toy_mol := ToyMol "c1ccncc1" "c1ccncc1" 5.
Definition ethanol : toy_mol := ToyMol "CCO" "CCO" 6.

(** A store with one sealed container that holds four molecules. *)
Definition four_mols : dict toy_mol :=
  [("c1ccccc1", benzene); ("CCO", ethanol); ("c1ccncc1", pyridine);
   ("C[C@H](N)C(=O)O", L_alanine)].

Definition shelf : heap toy_mol := Heap [Build 0 true true None] [four_mols].

(** A store with one sealed container that holds benzene. *)
Definition vial : heap toy_mol :=
  Heap [Build 0 true true None] [[("c1ccccc1", benzene)]].

(** A store with one sealed container that is empty. *)
Definition flask : heap toy_mol := Heap [Build 0 true true None] [[]].

(** A store with two sealed containers: the four molecules, and pyridine
    with ethanol. *)
Definition two_mols : dict toy_mol :=
  [("c1ccncc1", pyridine); ("CCO", ethanol)].

Definition bench : heap toy_mol :=
  Heap [Build 0 true true None; Build 1 true true None] [four_mols; two_mols].

(** ** Running the store monad *)

Section Run.
Context {Mol : Type}.
Implicit Types (h : heap Mol) (l r : loc) (c : umc) (d : dict Mol).

Lemma run_bind {A B} (m : M Mol A) (f : A → M Mol B) h :
  (m ≫= f) h =
  match m h with
  | (Ok a, h') => f a h'
  | (Raise e, h') => (Raise e, h')
  | (Stuck, h') => (Stuck, h')
  end.
Proof. reflexivity. Qed.

Lemma run_bind_ok {A B} (m : M Mol A) (f : A → M Mol B) h a h' :
  m h = (Ok a, h') → (m ≫= f) h = f a h'.
Proof. intros E. rewrite run_bind, E. reflexivity. Qed.

Lemma run_ret {A} (a : A) h : (mret a : M Mol A) h = (Ok a, h).
Proof. reflexivity. Qed.

Lemma load_ok h l c : conts h !! l = Some c → load l h = (Ok c, h).
Proof. intros E. unfold load. rewrite E. reflexivity. Qed.

Lemma read_dict_ok h r d : dicts h !! r = Some d → read_dict r h = (Ok d, h).
Proof. intros E. unfold read_dict. rewrite E. reflexivity. Qed.

Lemma store_ok h l c c' :
  conts h !! l = Some c →
  store l c' h = (Ok (), Heap (<[l := c']> (conts h)) (dicts h)).
Proof. intros E. unfold store. rewrite E. reflexivity. Qed.

Lemma write_dict_ok h r d d' :
  dicts h !! r = Some d →
  write_dict r d' h = (Ok (), Heap (conts h) (<[r := d']> (dicts h))).
Proof. intros E. unfold write_dict. rewrite E. reflexivity. Qed.

Lemma lookup_insert_same {A} (xs : list A) i x y :
  xs !! i = Some x → <[i := y]> xs !! i = Some y.
Proof. intros E. apply list_lookup_insert_eq. by eapply lookup_lt_Some. Qed.

Lemma set_sealed_ok h l c v :
  conts h !! l = Some c →
  set_sealed l v h =
  (Ok (), Heap (<[l := Build (__data c) v (__chirality c) (__index c)]> (conts h))
               (dicts h)).
Proof.
  intros E. unfold set_sealed.
  rewrite (run_bind_ok _ _ _ _ _ (load_ok _ _ _ E)).
  by erewrite store_ok.
Qed.

Lemma set_index_ok h l c i :
  conts h !! l = Some c →
  set_index l i h =
  (Ok (), Heap (<[l := Build (__data c) (sealed c) (__chirality c) (Some i)]> (conts h))
               (dicts h)).
Proof.
  intros E. unfold set_index.
  rewrite (run_bind_ok _ _ _ _ _ (load_ok _ _ _ E)).
  by erewrite store_ok.
Qed.

Lemma set_data_ok h l c r :
  conts h !! l = Some c →
  set_data l r h =
  (Ok (), Heap (<[l := Build r (sealed c) (__chirality c) (__index c)]> (conts h))
               (dicts h)).
Proof.
  intros E. unfold set_data.
  rewrite (run_bind_ok _ _ _ _ _ (load_ok _ _ _ E)).
  by erewrite store_ok.
Qed.

Lemma dict_getitem_run h r d k :
  dicts h !! r = Some d →
  dict_getitem r k h =
  match dict_get k d with
  | Some v => (Ok v, h)
  | None => (Raise (KeyError k), h)
  end.
Proof.
  intros E. unfold dict_getitem.
  rewrite (run_bind_ok _ _ _ _ _ (read_dict_ok _ _ _ E)).
  by destruct (dict_get k d).
Qed.

Lemma dict_setitem_run h r d k v :
  dicts h !! r = Some d →
  dict_setitem r k v h =
  (Ok (), Heap (conts h) (<[r := dict_set k v d]> (dicts h))).
Proof.
  intros E. unfold dict_setitem.
  rewrite (run_bind_ok _ _ _ _ _ (read_dict_ok _ _ _ E)).
  by erewrite write_dict_ok.
Qed.

Lemma dict_delitem_run h r d k :
  dicts h !! r = Some d →
  dict_delitem r k h =
  match dict_del k d with
  | Some d' => (Ok (), Heap (conts h) (<[r := d']> (dicts h)))
  | None => (Raise (KeyError k), h)
  end.
Proof.
  intros E. unfold dict_delitem.
  rewrite (run_bind_ok _ _ _ _ _ (read_dict_ok _ _ _ E)).
  destruct (dict_del k d); [by erewrite write_dict_ok | done].
Qed.

Lemma list_index_run {A} (xs : list A) i h :
  list_index xs i h =
  match list_getitem xs i with
  | Some x => (Ok x, h)
  | None => (Raise (IndexError (list_index_error i)), h)
  end.
Proof. unfold list_index. by destruct (list_getitem xs i). Qed.

End Run.

(** ** Dictionaries *)

Section Dict.
Context {V : Type}.
Implicit Types (d : dict V) (k : string) (v : V).

Lemma dict_contains_true k d : dict_contains k d = true ↔ k ∈ dict_keys d.
Proof. unfold dict_contains. apply bool_decide_eq_true. Qed.

Lemma dict_contains_false k d : dict_contains k d = false ↔ k ∉ dict_keys d.
Proof. unfold dict_contains. apply bool_decide_eq_false. Qed.

Lemma dict_get_Some_elem k d v : dict_get k d = Some v → k ∈ dict_keys d.
Proof.
  induction d as [|[k' v'] d IH]; simpl; [done|].
  case_decide; subst; [set_solver | intros; apply list_elem_of_further; auto].
Qed.

Lemma dict_get_is_Some k d : is_Some (dict_get k d) ↔ k ∈ dict_keys d.
Proof.
  split; [intros [v Hv]; by eapply dict_get_Some_elem|].
  induction d as [|[k' v'] d IH]; simpl; [by intros ?%elem_of_nil|].
  intros [->|Hin]%elem_of_cons.
  - rewrite decide_True by done. eauto.
  - case_decide; eauto.
Qed.

Lemma dict_get_None k d : dict_get k d = None ↔ k ∉ dict_keys d.
Proof. rewrite <- dict_get_is_Some, eq_None_not_Some. done. Qed.

Lemma dict_del_None k d : dict_del k d = None ↔ k ∉ dict_keys d.
Proof.
  induction d as [|[k' v'] d IH]; simpl.
  - split; [intros _ ?%elem_of_nil; done | done].
  - case_decide; subst.
    + split; [done | intros []; left].
    + rewrite fmap_None, IH, not_elem_of_cons. tauto.
Qed.

Lemma dict_del_is_Some k d : is_Some (dict_del k d) ↔ k ∈ dict_keys d.
Proof.
  rewrite <- not_eq_None_Some, dict_del_None.
  split; [apply dec_stable | auto].
Qed.

Lemma filter_all {A} (P : A → Prop) `{!∀ x, Decision (P x)} (l : list A) :
  Forall P l → filter P l = l.
Proof.
  induction 1 as [|x l Hx _ IH]; [done|].
  rewrite filter_cons_True by done. by rewrite IH.
Qed.

(** With one entry per key, deleting [k] keeps exactly the other entries, in
    their order. *)
Lemma dict_del_filter k d d' :
  NoDup (dict_keys d) → dict_del k d = Some d' →
  d' = filter (λ kv, kv.1 ≠ k) d.
Proof.
  revert d'. induction d as [|[k' v'] d IH]; intros d' Hnd Hdel; [done|].
  apply NoDup_cons in Hnd as [Hk' Hnd]. simpl in Hdel.
  case_decide as Hk; subst.
  - injection Hdel as <-. rewrite filter_cons_False by (simpl; auto).
    symmetry. apply filter_all, Forall_forall. intros [k v] Hin Heq.
    simpl in Heq. subst k. apply Hk'. apply list_elem_of_fmap. by exists (k', v).
  - apply fmap_Some in Hdel as [d'' [Hd'' ->]].
    rewrite filter_cons_True by (simpl; auto).
    f_equal. by apply IH.
Qed.

Lemma dict_keys_filter k d :
  dict_keys (filter (λ kv, kv.1 ≠ k) d) = filter (λ k', k' ≠ k) (dict_keys d).
Proof.
  unfold dict_keys. induction d as [|[k' v'] d IH]; [done|].
  rewrite fmap_cons. simpl fst.
  destruct (decide (k' = k)) as [->|Hne].
  - rewrite !filter_cons_False by (simpl; auto). done.
  - rewrite !filter_cons_True by (simpl; auto). rewrite fmap_cons, IH. done.
Qed.

Lemma dict_set_keys_present k v d :
  k ∈ dict_keys d → dict_keys (dict_set k v d) = dict_keys d.
Proof.
  unfold dict_keys. induction d as [|[k' v'] d IH]; simpl; [by intros ?%elem_of_nil|].
  intros Hin. case_decide; subst; [done|]. simpl. f_equal.
  apply IH. apply elem_of_cons in Hin as [|]; [done | done].
Qed.

Lemma dict_set_keys_absent k v d :
  k ∉ dict_keys d → dict_keys (dict_set k v d) = dict_keys d ++ [k].
Proof.
  unfold dict_keys. induction d as [|[k' v'] d IH]; simpl; [done|].
  intros [Hne Hin]%not_elem_of_cons. rewrite decide_False by done.
  simpl. f_equal. auto.
Qed.

Lemma dict_set_absent k v d :
  k ∉ dict_keys d → dict_set k v d = d ++ [(k, v)].
Proof.
  unfold dict_keys. induction d as [|[k' v'] d IH]; simpl; [done|].
  intros [Hne Hin]%not_elem_of_cons. rewrite decide_False by done.
  f_equal. auto.
Qed.

Lemma dict_set_contains k v d : k ∈ dict_keys (dict_set k v d).
Proof.
  destruct (decide (k ∈ dict_keys d)).
  - by rewrite dict_set_keys_present.
  - rewrite dict_set_keys_absent by done. set_solver.
Qed.

Lemma dict_set_keys_elem k k' v d :
  k' ∈ dict_keys (dict_set k v d) ↔ k' = k ∨ k' ∈ dict_keys d.
Proof.
  destruct (decide (k ∈ dict_keys d)).
  - rewrite dict_set_keys_present by done. naive_solver.
  - rewrite dict_set_keys_absent by done. set_solver.
Qed.

Lemma dict_set_NoDup k v d :
  NoDup (dict_keys d) → NoDup (dict_keys (dict_set k v d)).
Proof.
  intros Hnd. destruct (decide (k ∈ dict_keys d)).
  - by rewrite dict_set_keys_present.
  - rewrite dict_set_keys_absent by done.
    apply NoDup_app. repeat split; [done | | apply NoDup_singleton].
    intros x Hx ->%list_elem_of_singleton. done.
Qed.

Lemma dict_keys_length d : length (dict_keys d) = length d.
Proof. unfold dict_keys. apply length_fmap. Qed.

End Dict.

(** ** The methods, run on a live container *)

Section MethodRuns.
Context {Mol : Type} `{!Canonicalizer Mol}.
Implicit Types (h : heap Mol) (l self : loc) (c : umc) (d : dict Mol).

Lemma live_put h l c d c' d' :
  live h l c d → __data c' = __data c → live (put h l c' d') l c' d'.
Proof.
  intros [Hc Hd] E. split; simpl.
  - by eapply lookup_insert_same.
  - rewrite E in *. by eapply lookup_insert_same.
Qed.

Lemma live_put_sealed h l c d v d' :
  live h l c d → live (put h l (with_sealed c v) d') l (with_sealed c v) d'.
Proof. intros Hl. by eapply live_put. Qed.

Lemma live_put_conts h l c d c' :
  live h l c d → __data c' = __data c →
  live (Heap (<[l := c']> (conts h)) (dicts h)) l c' d.
Proof.
  intros [Hc Hd] E. split; simpl.
  - by eapply lookup_insert_same.
  - by rewrite E.
Qed.

Lemma entries_live h l c d : live h l c d → entries h l = Some d.
Proof. intros [Hc Hd]. unfold entries. by rewrite Hc. Qed.

Lemma sealed_live h l c d : live h l c d → sealed_at h l = Some (sealed c).
Proof. intros [Hc Hd]. unfold sealed_at. by rewrite Hc. Qed.

Lemma add_run h self c d mol replace :
  live h self c d →
  add self mol replace h =
  if dict_contains (mol2smi mol (__chirality c)) d && negb replace
  then (Ok false, h)
  else (Ok true,
        put h self (with_sealed c false)
            (dict_set (mol2smi mol (__chirality c)) mol d)).
Proof.
  intros [Hc Hd]. unfold add.
  rewrite (run_bind_ok _ _ _ _ _ (load_ok _ _ _ Hc)).
  rewrite (run_bind_ok _ _ _ _ _ (read_dict_ok _ _ _ Hd)).
  destruct (_ && _); [done|].
  rewrite (run_bind_ok _ _ _ _ _ (dict_setitem_run _ _ _ _ _ Hd)).
  erewrite run_bind_ok; [|by apply set_sealed_ok]. done.
Qed.

Lemma remove_smiles_run h self c d smiles :
  live h self c d →
  remove_smiles self smiles h =
  match dict_del smiles d with
  | Some d' => (Ok true, put h self (with_sealed c false) d')
  | None => (Ok false, h)
  end.
Proof.
  intros [Hc Hd]. unfold remove_smiles, try_except.
  rewrite (run_bind_ok _ _ _ _ _ (load_ok _ _ _ Hc)).
  rewrite run_bind, (dict_delitem_run _ _ _ _ Hd).
  destruct (dict_del smiles d) as [d'|]; [|done].
  erewrite run_bind_ok; [|by apply set_sealed_ok]. done.
Qed.

Lemma remove_mol_run h self c d mol :
  live h self c d →
  remove_mol self mol h =
  match dict_del (mol2smi mol (__chirality c)) d with
  | Some d' => (Ok true, put h self (with_sealed c false) d')
  | None => (Ok false, h)
  end.
Proof.
  intros Hl. unfold remove_mol.
  rewrite (run_bind_ok _ _ _ _ _ (load_ok _ _ _ (proj1 Hl))).
  by apply remove_smiles_run.
Qed.

Lemma contains_run h self c d mol :
  live h self c d →
  __contains__ self mol h =
  (Ok (dict_contains (mol2smi mol (__chirality c)) d), h).
Proof.
  intros [Hc Hd]. unfold __contains__.
  rewrite (run_bind_ok _ _ _ _ _ (load_ok _ _ _ Hc)).
  by rewrite (run_bind_ok _ _ _ _ _ (read_dict_ok _ _ _ Hd)).
Qed.

Lemma len_run h self c d :
  live h self c d → __len__ self h = (Ok (Z.of_nat (length d)), h).
Proof.
  intros [Hc Hd]. unfold __len__.
  rewrite (run_bind_ok _ _ _ _ _ (load_ok _ _ _ Hc)).
  rewrite (run_bind_ok _ _ _ _ _ (read_dict_ok _ _ _ Hd)).
  by rewrite dict_keys_length.
Qed.

Lemma keys_run h self c d :
  live h self c d → keys self h = (Ok (dict_keys d), h).
Proof.
  intros [Hc Hd]. unfold keys.
  rewrite (run_bind_ok _ _ _ _ _ (load_ok _ _ _ Hc)).
  by rewrite (run_bind_ok _ _ _ _ _ (read_dict_ok _ _ _ Hd)).
Qed.

Lemma getitem_run h self c d key :
  live h self c d →
  __getitem__ self key h =
  match key with
  | KStr s =>
      match dict_get s d with
      | Some v => (Ok v, h)
      | None => (Raise (KeyError s), h)
      end
  | KInt i =>
      match list_getitem (dict_keys d) i with
      | Some k =>
          match dict_get k d with
          | Some v => (Ok v, h)
          | None => (Raise (KeyError k), h)
          end
      | None => (Raise (IndexError (list_index_error i)), h)
      end
  | KOther => (Raise TypeError, h)
  end.
Proof.
  intros [Hc Hd]. unfold __getitem__.
  rewrite (run_bind_ok _ _ _ _ _ (load_ok _ _ _ Hc)).
  destruct key as [s|i|]; [by apply dict_getitem_run| |done].
  rewrite (run_bind_ok _ _ _ _ _ (read_dict_ok _ _ _ Hd)).
  rewrite run_bind, list_index_run.
  destruct (list_getitem _ i); [by apply dict_getitem_run | done].
Qed.

Lemma get_run h self c d key default :
  live h self c d →
  get self key default h =
  match __getitem__ self key h with
  | (Ok _, _) => (Ok PyNone, h)
  | _ => (Ok default, h)
  end.
Proof.
  intros Hl. unfold get, try_except.
  rewrite run_bind, (getitem_run _ _ _ _ _ Hl).
  destruct key as [s|i|]; [destruct (dict_get s d); done| |done].
  destruct (list_getitem _ i) as [k|]; [|done].
  destruct (dict_get k d); done.
Qed.

End MethodRuns.

(** ** One entry per key: an invariant of every method *)

Section DictsOk.
Context {Mol : Type} `{!Canonicalizer Mol}.
Implicit Types (h : heap Mol) (self : loc) (c : umc) (d : dict Mol).

Local Abbreviation kept m := (@keeps_dicts_ok Mol _ m) (only parsing).

Lemma dict_del_NoDup {V} k (d d' : dict V) :
  NoDup (dict_keys d) → dict_del k d = Some d' → NoDup (dict_keys d').
Proof.
  intros Hnd Hdel. rewrite (dict_del_filter _ _ _ Hnd Hdel), dict_keys_filter.
  by apply NoDup_filter.
Qed.

Lemma keeps_ret {A} (a : A) : kept (mret a : M Mol A).
Proof. by intros h. Qed.

Lemma keeps_raise {A} e : kept (raise e : M Mol A).
Proof. by intros h. Qed.

Lemma keeps_bind {A B} (m : M Mol A) (f : A → M Mol B) :
  keeps_dicts_ok m → (∀ a, kept (f a)) → kept (m ≫= f).
Proof.
  intros Hm Hf h Hh. rewrite run_bind. specialize (Hm h Hh).
  destruct (m h) as [[a|e|] h']; [by apply Hf | done | done].
Qed.

Lemma keeps_try_except {A} (m : M Mol A) handler :
  keeps_dicts_ok m → (∀ e, kept (handler e)) →
  kept (try_except m handler).
Proof.
  intros Hm Hf h Hh. unfold try_except. specialize (Hm h Hh).
  destruct (m h) as [[a|e|] h']; [done | by apply Hf | done].
Qed.

Lemma keeps_try_except_IndexError {A} (m handler : M Mol A) :
  keeps_dicts_ok m → keeps_dicts_ok handler →
  kept (try_except_IndexError m handler).
Proof.
  intros Hm Hf h Hh. unfold try_except_IndexError. specialize (Hm h Hh).
  destruct (m h) as [[a|[]|] h']; try done. by apply Hf.
Qed.

Lemma keeps_load l : kept (load l : M Mol umc).
Proof. intros h Hh. unfold load. by destruct (conts h !! l). Qed.

Lemma keeps_store l c : kept (store l c : M Mol unit).
Proof. intros h Hh. unfold store. by destruct (conts h !! l). Qed.

Lemma keeps_new_object c : kept (new_object c : M Mol loc).
Proof. by intros h Hh. Qed.

Lemma keeps_read_dict r : kept (read_dict r : M Mol (dict Mol)).
Proof. intros h Hh. unfold read_dict. by destruct (dicts h !! r). Qed.

Lemma keeps_new_dict d :
  NoDup (dict_keys d) → kept (new_dict d).
Proof.
  intros Hd h Hh. unfold dicts_ok, new_dict, final. simpl.
  apply Forall_app. split; [done | by apply Forall_singleton].
Qed.

Lemma keeps_write_dict r d :
  NoDup (dict_keys d) → kept (write_dict r d).
Proof.
  intros Hd h Hh. unfold write_dict. destruct (dicts h !! r); [|done].
  unfold dicts_ok, final. simpl. by apply Forall_insert.
Qed.

Lemma keeps_dict_copy r : kept (dict_copy r).
Proof.
  intros h Hh. unfold dict_copy. rewrite run_bind. unfold read_dict.
  destruct (dicts h !! r) as [d|] eqn:E; [|done].
  apply keeps_new_dict; [|done].
  unfold dicts_ok in Hh. rewrite Forall_lookup in Hh. by eapply Hh.
Qed.

Lemma keeps_dict_getitem r k : kept (dict_getitem r k).
Proof.
  apply keeps_bind; [apply keeps_read_dict|]. intros d.
  destruct (dict_get k d); [apply keeps_ret | apply keeps_raise].
Qed.

Lemma keeps_dict_setitem r k v : kept (dict_setitem r k v).
Proof.
  intros h Hh. unfold dict_setitem. rewrite run_bind. unfold read_dict.
  destruct (dicts h !! r) as [d|] eqn:E; [|done].
  apply keeps_write_dict; [|done]. apply dict_set_NoDup.
  unfold dicts_ok in Hh. rewrite Forall_lookup in Hh. by eapply Hh.
Qed.

Lemma keeps_dict_delitem r k : kept (dict_delitem r k).
Proof.
  intros h Hh. unfold dict_delitem. rewrite run_bind. unfold read_dict.
  destruct (dicts h !! r) as [d|] eqn:E; [|done].
  destruct (dict_del k d) as [d'|] eqn:Hdel; [|done].
  apply keeps_write_dict; [|done]. eapply dict_del_NoDup; [|done].
  unfold dicts_ok in Hh. rewrite Forall_lookup in Hh. by eapply Hh.
Qed.

Lemma keeps_list_index {A} (xs : list A) i :
  kept (list_index xs i : M Mol A).
Proof.
  unfold list_index. destruct (list_getitem xs i); [apply keeps_ret | apply keeps_raise].
Qed.

Lemma keeps_for_each {A} (xs : list A) (body : A → M Mol unit) :
  (∀ x, kept (body x)) → kept (for_each xs body).
Proof.
  intros Hb. induction xs as [|x xs IH]; [apply keeps_ret|].
  cbn [for_each]. apply keeps_bind; [apply Hb | by intros _].
Qed.

Lemma keeps_comprehension {A B} (f : A → M Mol B) (xs : list A) :
  (∀ x, kept (f x)) → kept (comprehension f xs).
Proof.
  intros Hf. induction xs as [|x xs IH]; [apply keeps_ret|].
  cbn [comprehension]. apply keeps_bind; [apply Hf|]. intros y.
  apply keeps_bind; [apply IH|]. intros ys. apply keeps_ret.
Qed.

Create HintDb keeps.

Hint Resolve keeps_ret keeps_raise keeps_load keeps_store keeps_new_object
  keeps_read_dict keeps_dict_copy keeps_dict_getitem keeps_dict_setitem
  keeps_dict_delitem keeps_list_index : keeps.

(** Take a method body apart along its binds, branches and handlers. *)
Ltac keeps :=
  repeat first
    [ progress intros
    | solve [auto with keeps]
    | apply keeps_new_dict; apply NoDup_nil_2
    | apply keeps_for_each
    | apply keeps_comprehension
    | apply keeps_try_except_IndexError
    | apply keeps_try_except
    | apply keeps_bind
    | progress cbv zeta
    | match goal with
      | |- keeps_dicts_ok (if ?b then _ else _) => destruct b
      | |- keeps_dicts_ok (match ?x with _ => _ end) => destruct x
      | |- keeps_dicts_ok (let (_, _) := ?x in _) => destruct x
      end ].

Lemma keeps_set_sealed self v : kept (set_sealed self v).
Proof. unfold set_sealed. keeps. Qed.

Lemma keeps_set_data self r : kept (set_data self r).
Proof. unfold set_data. keeps. Qed.

Lemma keeps_set_index self i : kept (set_index self i).
Proof. unfold set_index. keeps. Qed.

Hint Resolve keeps_set_sealed keeps_set_data keeps_set_index : keeps.

Lemma keeps_add self mol replace : kept (add self mol replace).
Proof. unfold add. keeps. Qed.

Lemma keeps_remove_smiles self smiles :
  kept (remove_smiles self smiles).
Proof. unfold remove_smiles. keeps. Qed.

Hint Resolve keeps_add keeps_remove_smiles : keeps.

Lemma keeps_remove_mol self mol : kept (remove_mol self mol).
Proof. unfold remove_mol. keeps. Qed.

Hint Resolve keeps_remove_mol : keeps.

Lemma keeps_init argument sealed0 ignore_chirality :
  kept (__init__ argument sealed0 ignore_chirality).
Proof. unfold __init__. keeps. Qed.

Hint Resolve keeps_init : keeps.

Lemma keeps_remove_mols self mol_list :
  kept (remove_mols self mol_list).
Proof.
  assert (∀ success, kept (remove_mols_loop self mol_list success)).
  { induction mol_list as [|m rest IH]; intros success; cbn [remove_mols_loop];
      keeps. }
  unfold remove_mols. destruct mol_list; [keeps | auto].
Qed.

Lemma keeps_getitem self key : kept (__getitem__ self key).
Proof. unfold __getitem__. keeps. Qed.

Hint Resolve keeps_getitem : keeps.

(** Every method of the class keeps one entry per key in every dictionary of
    the store. *)
Lemma methods_keep_dicts_ok self other mol replace smiles mol_list indices_list
    key default index argument sealed0 ignore_chirality :
  kept (__init__ argument sealed0 ignore_chirality)
  ∧ kept (add self mol replace)
  ∧ kept (remove_smiles self smiles)
  ∧ kept (remove_mol self mol)
  ∧ kept (remove_mols self mol_list)
  ∧ kept (remove_from_indices self indices_list)
  ∧ kept (get self key default)
  ∧ kept (pop self index)
  ∧ kept (copy self)
  ∧ kept (keys self)
  ∧ kept (__iter__ self)
  ∧ kept (__next__ self)
  ∧ kept (__add__ self other)
  ∧ kept (__radd__ self other)
  ∧ kept (__len__ self)
  ∧ kept (__contains__ self mol)
  ∧ kept (__getitem__ self key)
  ∧ kept (__eq__ self other).
Proof.
  repeat split; try solve [auto using keeps_remove_mols with keeps].
  - unfold remove_from_indices. keeps.
  - unfold get. keeps.
  - unfold pop. keeps.
  - unfold copy. keeps.
  - unfold keys. keeps.
  - unfold __iter__. keeps.
  - unfold __next__. keeps.
  - unfold __add__. keeps.
  - unfold __radd__, __add__. keeps.
  - unfold __len__. keeps.
  - unfold __contains__. keeps.
  - unfold __eq__. keeps.
Qed.

End DictsOk.

(** ** [get] *)

Section Get.
Context {Mol : Type} `{!Canonicalizer Mol}.
Implicit Types (h : heap Mol) (self : loc) (c : umc) (d : dict Mol).

(** What [get] returns for a SMILES key: [None] when the key is present (the
    record found is dropped), the default when it is absent; it never
    raises and leaves the store alone. *)
Lemma get_str_run h self c d k default :
  live h self c d →
  get self (KStr k) default h =
  (Ok (if dict_contains k d then PyNone else default), h).
Proof.
  intros Hl. rewrite (get_run _ _ _ _ _ _ Hl), (getitem_run _ _ _ _ _ Hl).
  destruct (dict_get k d) as [v|] eqn:E.
  - apply dict_get_Some_elem, dict_contains_true in E. by rewrite E.
  - apply dict_get_None, dict_contains_false in E. by rewrite E.
Qed.

Lemma get_never_raises h self c d key default :
  live h self c d →
  ∃ v, get self key default h = (Ok v, h).
Proof.
  intros Hl. rewrite (get_run _ _ _ _ _ _ Hl).
  destruct (__getitem__ self key h) as [[?|?|] ?]; eauto.
Qed.

Lemma get_absent h self c d k default :
  live h self c d → k ∉ dict_keys d →
  get self (KStr k) default h = (Ok default, h).
Proof.
  intros Hl Hk. rewrite (get_str_run _ _ _ _ _ _ Hl).
  apply dict_contains_false in Hk. by rewrite Hk.
Qed.

Lemma get_present h self c d k v default :
  live h self c d → dict_get k d = Some v →
  get self (KStr k) default h = (Ok PyNone, h).
Proof.
  intros Hl Hk. rewrite (get_str_run _ _ _ _ _ _ Hl).
  apply dict_get_Some_elem, dict_contains_true in Hk. by rewrite Hk.
Qed.

End Get.

(** C1, on the code: in a container built from one benzene molecule, [get]
    with benzene's SMILES and ethanol as default returns [None]: neither the
    record stored under the key nor the default.  The strict accessor finds
    the record under the same key. *)
Theorem get_of_present_key_is_None :
  ∃ x h,
    __init__ (ArgSeq [benzene]) true false empty_heap = (Ok x, h)
    ∧ entries h x = Some [("c1ccccc1", benzene)]
    ∧ __getitem__ x (KStr "c1ccccc1") h = (Ok benzene, h)
    ∧ get x (KStr "c1ccccc1") (PyMol ethanol) h = (Ok PyNone, h).
Proof. eexists _, _. split; [reflexivity|]. by vm_compute. Qed.

(** ** [remove_mols] *)

Section RemoveMols.
Context {Mol : Type} `{!Canonicalizer Mol}.
Implicit Types (h : heap Mol) (self : loc) (c : umc) (d : dict Mol).

(** The loop never sets [success] to [True]: started with [False] it ends
    with [False], after a removal attempt for every molecule of the list. *)
Lemma remove_mols_loop_false mol_list : ∀ h self c d,
  live h self c d →
  ∃ h' c' d',
    remove_mols_loop self mol_list false h = (Ok false, h')
    ∧ live h' self c' d'
    ∧ __chirality c' = __chirality c
    ∧ (∀ k, k ∈ dict_keys d' → k ∈ dict_keys d)
    ∧ (NoDup (dict_keys d) →
       NoDup (dict_keys d')
       ∧ ∀ m, m ∈ mol_list → mol2smi m (__chirality c) ∉ dict_keys d').
Proof.
  induction mol_list as [|m rest IH]; intros h self c d Hl.
  - exists h, c, d. do 4 (split; [done|]). intros Hnd. split; [done|].
    intros m ?%elem_of_nil. done.
  - cbn [remove_mols_loop].
    rewrite run_bind, (remove_mol_run _ _ _ _ _ Hl).
    destruct (dict_del (mol2smi m (__chirality c)) d) as [d1|] eqn:E; simpl.
    + destruct (IH _ self _ d1 (live_put_sealed _ _ _ _ false d1 Hl))
        as (h' & c' & d' & Hrun & Hl' & Hch & Hsub & Hnd).
      exists h', c', d'. split; [done|]. split; [done|]. split; [done|].
      assert (Hd1 : NoDup (dict_keys d) → d1 = filter (λ kv, kv.1 ≠ mol2smi m (__chirality c)) d)
        by (intros; by apply dict_del_filter).
      split.
      * intros k Hk%Hsub. revert Hk. clear -E.
        revert d1 E. induction d as [|[k' v'] d IHd]; simpl; [done|].
        intros d1. case_decide.
        { intros [= <-] ?. by apply list_elem_of_further. }
        intros [d'' [Hd'' ->]]%fmap_Some. unfold dict_keys. rewrite !fmap_cons.
        intros [->|?]%elem_of_cons; [left | right; by eapply IHd].
      * intros Hnodup. specialize (Hd1 Hnodup).
        assert (Hnd1 : NoDup (dict_keys d1)).
        { rewrite Hd1, dict_keys_filter. by apply NoDup_filter. }
        destruct (Hnd Hnd1) as [Hnd' Hgone]. split; [done|].
        intros m' [->|Hin]%elem_of_cons; [|by apply Hgone].
        intros Hk%Hsub. rewrite Hd1, dict_keys_filter in Hk.
        apply list_elem_of_filter in Hk as [Hk _]. done.
    + destruct (IH _ self _ _ Hl) as (h' & c' & d' & Hrun & Hl' & Hch & Hsub & Hnd).
      exists h', c', d'. do 4 (split; [done|]).
      intros Hnodup. destruct (Hnd Hnodup) as [Hnd' Hgone]. split; [done|].
      intros m' [->|Hin]%elem_of_cons; [|by apply Hgone].
      intros Hk%Hsub. by apply dict_del_None in E.
Qed.

(** On a list that is not empty [remove_mols] answers [False], whether or not
    its molecules were present, and every one of them is gone afterwards. *)
Lemma remove_mols_nonempty h self c d mol_list :
  live h self c d → mol_list ≠ [] →
  ∃ h' c' d',
    remove_mols self mol_list h = (Ok false, h')
    ∧ live h' self c' d'
    ∧ (NoDup (dict_keys d) →
       ∀ m, m ∈ mol_list → mol2smi m (__chirality c) ∉ dict_keys d').
Proof.
  intros Hl Hne.
  destruct (remove_mols_loop_false mol_list _ _ _ _ Hl)
    as (h' & c' & d' & Hrun & Hl' & _ & _ & Hnd).
  exists h', c', d'. split; [by destruct mol_list|]. split; [done|].
  intros Hnodup. by apply Hnd.
Qed.

End RemoveMols.

(** C2, on the code: removing the list [[benzene]] from a container that holds
    exactly benzene empties the container (the one removal succeeded), and
    [remove_mols] returns [False]. *)
Theorem remove_mols_all_present_is_False :
  ∃ x h h',
    __init__ (ArgSeq [benzene]) true false empty_heap = (Ok x, h)
    ∧ __contains__ x benzene h = (Ok true, h)
    ∧ remove_mols x [benzene] h = (Ok false, h')
    ∧ entries h' x = Some [].
Proof. eexists _, _, _. split; [reflexivity|]. by vm_compute. Qed.

(** ** Construction from another container, [copy] *)

Section Copy.
Context {Mol : Type} `{!Canonicalizer Mol}.
Implicit Types (h : heap Mol) (self : loc) (c : umc) (d : dict Mol).

(** The store after [UniqueMoleculeContainer(self, sealed, ignore_chirality)]:
    one new object, the empty dictionary of the first assignment to [__data],
    and the copy of the source's dictionary that replaces it. *)
Lemma init_from_container_run h self c d sealed0 ignore_chirality :
  live h self c d →
  __init__ (ArgContainer self) sealed0 ignore_chirality h =
  (Ok (length (conts h)),
   Heap (conts h ++ [Build (S (length (dicts h))) sealed0 (negb ignore_chirality) None])
        (dicts h ++ [[]; d])).
Proof.
  intros [Hc Hd]. unfold __init__.
  rewrite run_bind. unfold new_dict at 1. cbv beta iota.
  rewrite run_bind. unfold new_object at 1. cbv beta iota. simpl conts. simpl dicts.
  erewrite run_bind_ok; [|apply load_ok; simpl; by apply lookup_app_l_Some].
  unfold dict_copy.
  erewrite (run_bind_ok (read_dict _ ≫= _)); cycle 1.
  { erewrite run_bind_ok; [|apply read_dict_ok; simpl; by apply lookup_app_l_Some].
    reflexivity. }
  simpl conts. simpl dicts.
  erewrite run_bind_ok;
    [|apply set_data_ok; simpl; apply list_lookup_middle; reflexivity].
  rewrite run_ret. simpl. f_equal. f_equal.
  - rewrite insert_app_r_alt by lia. rewrite Nat.sub_diag. simpl.
    by rewrite length_app, Nat.add_1_r.
  - by rewrite <- app_assoc.
Qed.

Lemma live_put_other h l c d l' c' d' :
  live h l c d → l' ≠ l → __data c' ≠ __data c →
  live (put h l' c' d') l c d.
Proof.
  intros [Hc Hd] Hl Hr. split; simpl.
  - by rewrite list_lookup_insert_ne.
  - by rewrite list_lookup_insert_ne.
Qed.

(** Adding to, or removing from, one container leaves alone every container
    that is another object with another dictionary. *)
Lemma add_frame h l c d l' c' d' mol replace :
  live h l c d → live h l' c' d' → l' ≠ l → __data c' ≠ __data c →
  live (final (add l' mol replace h)) l c d.
Proof.
  intros Hl Hl' Hne Hr. rewrite (add_run _ _ _ _ _ _ Hl').
  destruct (_ && _); [done|]. by apply live_put_other.
Qed.

Lemma remove_smiles_frame h l c d l' c' d' smiles :
  live h l c d → live h l' c' d' → l' ≠ l → __data c' ≠ __data c →
  live (final (remove_smiles l' smiles h)) l c d.
Proof.
  intros Hl Hl' Hne Hr. rewrite (remove_smiles_run _ _ _ _ _ Hl').
  destruct (dict_del _ _); [|done]. by apply live_put_other.
Qed.

Lemma remove_mol_frame h l c d l' c' d' mol :
  live h l c d → live h l' c' d' → l' ≠ l → __data c' ≠ __data c →
  live (final (remove_mol l' mol h)) l c d.
Proof.
  intros Hl Hl' Hne Hr. rewrite (remove_mol_run _ _ _ _ _ Hl').
  destruct (dict_del _ _); [|done]. by apply live_put_other.
Qed.

(** What the constructor does with a container argument: constructing a
    container from container [self] (and so [copy], which is that
    construction with the default arguments) returns a new object with the
    same entries as [self] in a dictionary of its own, and leaves [self] as
    it was.  The new container's chirality mode is the constructor's own
    argument (chirality kept, for [copy]), whatever the mode of [self], and
    that mode is the one its membership tests and insertions compute keys
    with.  Adding to and removing from the new container leaves the
    attributes and the entries of [self] unchanged. *)
Theorem construct_from_container h self c d sealed0 ignore_chirality :
  live h self c d →
  ∃ new h' c',
    __init__ (ArgContainer self) sealed0 ignore_chirality h = (Ok new, h')
    ∧ copy self h = __init__ (ArgContainer self) true false h
    ∧ conts h !! new = None
    ∧ live h' self c d
    ∧ live h' new c' d
    ∧ __data c' ≠ __data c
    ∧ dicts h !! __data c' = None
    ∧ __chirality c' = negb ignore_chirality
    ∧ sealed c' = sealed0
    ∧ (∀ mol,
         __contains__ new mol h' =
         (Ok (dict_contains (mol2smi mol (negb ignore_chirality)) d), h'))
    ∧ (∀ mol,
         mol2smi mol (negb ignore_chirality) ∉ dict_keys d →
         ∃ h'', add new mol false h' = (Ok true, h'')
           ∧ entries h'' new =
             Some (d ++ [(mol2smi mol (negb ignore_chirality), mol)]))
    ∧ (∀ mol replace, live (final (add new mol replace h')) self c d)
    ∧ (∀ smiles, live (final (remove_smiles new smiles h')) self c d)
    ∧ (∀ mol, live (final (remove_mol new mol h')) self c d).
Proof.
  intros Hl. pose proof Hl as [Hc Hd].
  pose proof (lookup_lt_Some _ _ _ Hc) as Hlt.
  pose proof (lookup_lt_Some _ _ _ Hd) as Hltd.
  eexists _, _, (Build (S (length (dicts h))) sealed0 (negb ignore_chirality) None).
  split; [exact (init_from_container_run _ _ _ _ _ _ Hl)|].
  split; [done|].
  split; [by apply lookup_ge_None|].
  assert (Hself : live
    (Heap (conts h ++ [Build (S (length (dicts h))) sealed0 (negb ignore_chirality) None])
          (dicts h ++ [[]; d])) self c d).
  { split; simpl; by apply lookup_app_l_Some. }
  assert (Hnew : live
    (Heap (conts h ++ [Build (S (length (dicts h))) sealed0 (negb ignore_chirality) None])
          (dicts h ++ [[]; d])) (length (conts h))
    (Build (S (length (dicts h))) sealed0 (negb ignore_chirality) None) d).
  { split; simpl; [by apply list_lookup_middle|].
    rewrite lookup_app_r by lia.
    by replace (S (length (dicts h)) - length (dicts h))%nat with 1%nat by lia. }
  split; [done|]. split; [done|].
  split; [simpl; lia|].
  split; [apply lookup_ge_None; simpl; lia|].
  split; [done|]. split; [done|].
  split; [intros mol; by rewrite (contains_run _ _ _ _ _ Hnew)|].
  split.
  { intros mol Habs. eexists. rewrite (add_run _ _ _ _ _ _ Hnew).
    simpl __chirality. apply dict_contains_false in Habs as Hf. rewrite Hf.
    split; [reflexivity|].
    rewrite (entries_live _ _ _ _ (live_put_sealed _ _ _ _ false _ Hnew)).
    by rewrite dict_set_absent. }
  split; [intros; eapply add_frame; eauto; simpl; lia|].
  split; [intros; eapply remove_smiles_frame; eauto; simpl; lia|].
  intros; eapply remove_mol_frame; eauto; simpl; lia.
Qed.

End Copy.

(** The copy of the container that holds benzene. *)
Lemma construct_from_container_witness :
  live vial 0%nat (Build 0 true true None) [("c1ccccc1", benzene)]
  ∧ ∃ new h' c',
      copy 0%nat vial = (Ok new, h')
      ∧ live h' new c' [("c1ccccc1", benzene)]
      ∧ __data c' ≠ 0%nat
      ∧ __chirality c' = true
      ∧ live (final (remove_smiles new "c1ccccc1" h')) 0%nat
          (Build 0 true true None) [("c1ccccc1", benzene)].
Proof.
  assert (Hl : live vial 0%nat (Build 0 true true None) [("c1ccccc1", benzene)])
    by (split; reflexivity).
  split; [exact Hl|].
  destruct (construct_from_container _ _ _ _ true false Hl)
    as (new & h' & c' & Hrun & Hcopy & _ & _ & Hnew & Hdata & _ & Hch & _ & _
        & _ & _ & Hrm & _).
  exists new, h', c'. rewrite Hcopy.
  split; [exact Hrun|]. split; [exact Hnew|]. split; [exact Hdata|].
  split; [exact Hch | exact (Hrm "c1ccccc1")].
Defined.

(** C4 is not what the code does, and the code breaks its own documentation
    there ([copy]: "return a (shallow) copy of the container"; the class: "An
    independent copy of a container can be generated by initializing a new
    container with the original one").  A container built with
    [ignore_chirality=True] has chirality mode off; its copy holds the same
    entries but has the mode on, because the constructor copies [__data] and
    takes the mode from its own argument.  L-alanine, a member of the source,
    is not a member of the copy, and adding it to the copy stores it a second
    time, under its other key: the copy then has two entries for the one
    molecule of the source. *)
Lemma copy_does_not_take_the_chirality_mode :
  ∃ x h y h' h'',
    __init__ (ArgSeq [L_alanine]) true true empty_heap = (Ok x, h)
    ∧ copy x h = (Ok y, h')
    ∧ entries h' y = entries h' x
    ∧ chirality_at h' x = Some false
    ∧ chirality_at h' y = Some true
    ∧ chirality_at h' y ≠ chirality_at h' x
    ∧ __contains__ x L_alanine h' = (Ok true, h')
    ∧ __contains__ y L_alanine h' = (Ok false, h')
    ∧ add y L_alanine false h' = (Ok true, h'')
    ∧ entries h'' y
      = Some [("CC(N)C(=O)O", L_alanine); ("C[C@H](N)C(=O)O", L_alanine)]
    ∧ __len__ x h'' = (Ok 1, h'')
    ∧ __len__ y h'' = (Ok 2, h'').
Proof.
  eexists _, _, _, _, _. split; [vm_compute; reflexivity|].
  split; [vm_compute; reflexivity|].
  do 6 (split; [by vm_compute|]). split; [vm_compute; reflexivity|].
  by vm_compute.
Qed.

(** ** The union operator *)

Section Union.
Context {Mol : Type} `{!Canonicalizer Mol}.
Implicit Types (h : heap Mol) (self other : loc) (c : umc) (d : dict Mol).

(** The loop of [__add__], from a store in which the new container is the
    last object, its dictionary the last dictionary, and [self] has had its
    seal broken by an earlier round or not. *)
Lemma add_loop_run h self c newc items : ∀ (broken : bool) (acc : dict Mol),
  conts h !! self = Some c →
  __data newc = S (length (dicts h)) →
  for_each items (λ '(k, v),
    nc ← load (length (conts h));
    nd ← read_dict (__data nc);
    if negb (dict_contains k nd) then
      set_sealed self false ;;
      dict_setitem (__data nc) k v
    else mret ())
    (Heap ((if broken then <[self := with_sealed c false]> (conts h) else conts h)
           ++ [newc])
          (dicts h ++ [[]; acc]))
  = (Ok (),
     let st := foldl merge_step (broken, acc) items in
     Heap ((if st.1 then <[self := with_sealed c false]> (conts h) else conts h)
           ++ [newc])
          (dicts h ++ [[]; st.2])).
Proof.
  intros broken acc Hc Hr. revert broken acc.
  induction items as [|[k v] items IH]; intros broken acc; [done|].
  cbn [for_each foldl].
  set (cs := if broken then <[self := with_sealed c false]> (conts h) else conts h).
  assert (Hlen : length cs = length (conts h)).
  { unfold cs. destruct broken; [apply length_insert | done]. }
  assert (Hself : ∃ ck, cs !! self = Some ck ∧ with_sealed ck false = with_sealed c false).
  { unfold cs. destruct broken.
    - exists (with_sealed c false). split; [by eapply lookup_insert_same | done].
    - by exists c. }
  destruct Hself as (ck & Hck & Hckc).
  rewrite run_bind, run_bind.
  erewrite load_ok; [|simpl; rewrite <- Hlen; apply list_lookup_middle; reflexivity].
  cbv beta iota.
  erewrite run_bind_ok; cycle 1.
  { apply read_dict_ok. simpl. rewrite Hr, lookup_app_r by lia.
    by replace (S (length (dicts h)) - length (dicts h))%nat with 1%nat by lia. }
  assert (Hstep : merge_step (broken, acc) (k, v) =
                  if dict_contains k acc then (broken, acc)
                  else (true, dict_set k v acc)) by done.
  rewrite Hstep. clear Hstep.
  destruct (dict_contains k acc) eqn:Hk; cbn [negb].
  - rewrite run_ret. apply IH.
  - erewrite run_bind_ok; cycle 1.
    { apply set_sealed_ok. simpl. by apply lookup_app_l_Some. }
    erewrite dict_setitem_run; cycle 1.
    { simpl. rewrite Hr, lookup_app_r by lia.
      by replace (S (length (dicts h)) - length (dicts h))%nat with 1%nat by lia. }
    simpl conts. simpl dicts.
    etrans; [|exact (IH true (dict_set k v acc))]. f_equal. f_equal.
    + rewrite insert_app_l by (by eapply lookup_lt_Some).
      f_equal. fold (with_sealed ck false). rewrite Hckc.
      unfold cs. destruct broken; [by rewrite list_insert_insert_eq | done].
    + rewrite Hr, insert_app_r_alt by lia.
      by replace (S (length (dicts h)) - length (dicts h))%nat with 1%nat by lia.
Qed.

(** [self + other]: the result is a new sealed container on a new dictionary
    that holds the entries of [self] followed by those of [other] under keys
    [self] lacks.  No dictionary of the store changes and no attribute of a
    container does, but for one: the seal of [self] is cleared as soon as
    [other] brings one new key. *)
Lemma add_operator_run h self other c d oc od :
  live h self c d → live h other oc od →
  __add__ self other h =
  (Ok (length (conts h)),
   Heap ((if (merge d od).1 then <[self := with_sealed c false]> (conts h)
          else conts h)
         ++ [Build (S (length (dicts h))) true true None])
        (dicts h ++ [[]; (merge d od).2])).
Proof.
  intros Hl [Hoc Hod]. unfold __add__.
  rewrite (run_bind_ok _ _ _ _ _ (init_from_container_run _ _ _ _ true false Hl)).
  erewrite run_bind_ok; [|apply load_ok; simpl; by apply lookup_app_l_Some].
  erewrite run_bind_ok; [|apply read_dict_ok; simpl; by apply lookup_app_l_Some].
  erewrite run_bind_ok; cycle 1.
  { exact (add_loop_run h self c (Build (S (length (dicts h))) true true None)
             od false d (proj1 Hl) eq_refl). }
  reflexivity.
Qed.

Lemma merge_fold_keys items : ∀ (b : bool) (acc : dict Mol) k,
  k ∈ dict_keys (foldl merge_step (b, acc) items).2
  ↔ k ∈ dict_keys acc ∨ k ∈ dict_keys items.
Proof.
  induction items as [|[k' v'] items IH]; intros b acc k; cbn [foldl].
  - unfold dict_keys at 3. rewrite fmap_nil, elem_of_nil. simpl. tauto.
  - unfold merge_step at 2. simpl fst. simpl snd.
    unfold dict_keys at 3. rewrite fmap_cons, elem_of_cons. simpl fst.
    fold (dict_keys items).
    destruct (dict_contains k' acc) eqn:Hk; rewrite IH.
    + apply dict_contains_true in Hk. split; [tauto|].
      intros [?|[->|?]]; tauto.
    + rewrite dict_set_keys_elem. tauto.
Qed.

Lemma merge_fold_broken items : ∀ (b : bool) (acc : dict Mol),
  (foldl merge_step (b, acc) items).1 = true
  ↔ b = true ∨ ∃ k, k ∈ dict_keys items ∧ k ∉ dict_keys acc.
Proof.
  induction items as [|[k' v'] items IH]; intros b acc; cbn [foldl].
  - simpl. split; [auto|]. intros [?|(k & []%elem_of_nil & _)]. done.
  - unfold merge_step at 2. simpl fst. simpl snd.
    destruct (dict_contains k' acc) eqn:Hk; rewrite IH.
    + apply dict_contains_true in Hk. split.
      * intros [?|(k & Hin & Hout)]; [by left|]. right. exists k.
        split; [by apply list_elem_of_further | done].
      * intros [?|(k & Hin & Hout)]; [by left|]. right. exists k.
        split; [|done]. unfold dict_keys in Hin. rewrite fmap_cons in Hin.
        apply elem_of_cons in Hin as [->|?]; done.
    + apply dict_contains_false in Hk. split; [|by left].
      intros _. right. exists k'. split; [left | done].
Qed.

(** What [self + other] leaves of the operands: their entries, every
    attribute of [other] when it is another object, and every attribute of
    [self] but its seal. *)
Lemma add_operator_effect h self other c d oc od :
  live h self c d → live h other oc od →
  ∃ new h',
    __add__ self other h = (Ok new, h')
    ∧ __radd__ self other h = (Ok new, h')
    ∧ conts h !! new = None
    ∧ (∃ nc nd, live h' new nc nd
         ∧ ∀ k, k ∈ dict_keys nd ↔ k ∈ dict_keys d ∨ k ∈ dict_keys od)
    ∧ entries h' self = Some d
    ∧ entries h' other = Some od
    ∧ chirality_at h' self = Some (__chirality c)
    ∧ (other ≠ self → conts h' !! other = Some oc)
    ∧ sealed_at h' self =
      Some (if decide (Forall (λ k, k ∈ dict_keys d) (dict_keys od))
            then sealed c else false).
Proof.
  intros Hl Hlo. pose proof Hl as [Hc Hd]. pose proof Hlo as [Hoc Hod].
  pose proof (lookup_lt_Some _ _ _ Hc) as Hlt.
  pose proof (lookup_lt_Some _ _ _ Hoc) as Hlto.
  eexists _, _. split; [exact (add_operator_run _ _ _ _ _ _ _ Hl Hlo)|].
  split; [exact (add_operator_run _ _ _ _ _ _ _ Hl Hlo)|].
  split; [by apply lookup_ge_None|].
  set (cs := if (merge d od).1 then <[self := with_sealed c false]> (conts h)
             else conts h).
  assert (Hlen : length cs = length (conts h)).
  { unfold cs. destruct (merge d od).1; [apply length_insert | done]. }
  split.
  { eexists _, _. split; [split; simpl|].
    - rewrite <- Hlen. apply list_lookup_middle. reflexivity.
    - simpl. rewrite lookup_app_r by lia.
      by replace (S (length (dicts h)) - length (dicts h))%nat with 1%nat by lia.
    - intros k. apply merge_fold_keys. }
  assert (Hcs : cs !! self =
    Some (if (merge d od).1 then with_sealed c false else c)).
  { unfold cs. destruct (merge d od).1; [by eapply lookup_insert_same | done]. }
  split.
  { unfold entries. simpl. rewrite lookup_app_l by lia. rewrite Hcs.
    destruct (merge d od).1; simpl; by apply lookup_app_l_Some. }
  split.
  { unfold entries. simpl. rewrite lookup_app_l by lia.
    destruct (decide (other = self)) as [->|Hne].
    - rewrite Hcs. assert (od = d) as -> by congruence.
      destruct (merge d d).1; simpl; by apply lookup_app_l_Some.
    - assert (cs !! other = Some oc) as ->.
      { unfold cs. destruct (merge d od).1; [by rewrite list_lookup_insert_ne | done]. }
      by apply lookup_app_l_Some. }
  split.
  { unfold chirality_at. simpl. rewrite lookup_app_l by lia. rewrite Hcs.
    by destruct (merge d od).1. }
  split.
  { intros Hne. simpl. rewrite lookup_app_l by lia.
    unfold cs. destruct (merge d od).1; [by rewrite list_lookup_insert_ne | done]. }
  unfold sealed_at. simpl. rewrite lookup_app_l by lia. rewrite Hcs.
  pose proof (merge_fold_broken od false d) as Hb. fold (merge d od) in Hb.
  case_decide as Hall.
  - destruct (merge d od).1; [|done].
    destruct Hb as [Hb _]. destruct (Hb eq_refl) as [?|(k & Hin & Hout)]; [done|].
    rewrite Forall_forall in Hall. by specialize (Hall k Hin).
  - assert ((merge d od).1 = true) as ->; [|done].
    apply Hb. right. apply not_Forall_Exists in Hall; [|apply _].
    apply Exists_exists in Hall as (k & Hin & Hout). by exists k.
Qed.

End Union.

(** C3, on the code: the sum of a sealed empty container [a] and a container
    [b] that holds benzene is a new object, the entries of [a] and of [b] are
    what they were, and so is the seal of [b]; the seal of [a] is broken. *)
Theorem add_operator_breaks_the_left_seal :
  ∃ a b h new h',
    (a ← __init__ ArgNone true false;
     b ← __init__ (ArgSeq [benzene]) true false;
     set_sealed b true ;;
     mret (a, b)) empty_heap = (Ok (a, b), h)
    ∧ sealed_at h a = Some true
    ∧ __add__ a b h = (Ok new, h')
    ∧ __radd__ a b h = (Ok new, h')
    ∧ new ≠ a ∧ new ≠ b
    ∧ entries h' a = entries h a
    ∧ entries h' b = entries h b
    ∧ sealed_at h' b = sealed_at h b
    ∧ sealed_at h' a = Some false.
Proof.
  eexists _, _, _, _, _. split; [reflexivity|]. split; [reflexivity|].
  split; [reflexivity|]. split; [reflexivity|]. by vm_compute.
Qed.

(** ** Positional access: subscripts, [pop], [remove_from_indices] *)

Section ListIndex.
Context {A : Type}.
Implicit Types (l : list A) (i : Z).

Lemma position_lt n i : index_ok n i → (position n i < n)%nat.
Proof. unfold index_ok, position. intros ?. destruct (Z.ltb_spec i 0); lia. Qed.

Lemma list_getitem_ok l i :
  index_ok (length l) i → list_getitem l i = l !! position (length l) i.
Proof.
  unfold index_ok, list_getitem, position. intros ?.
  destruct (Z.ltb_spec i 0); [|done].
  by rewrite (proj2 (Z.leb_le _ _)) by lia.
Qed.

Lemma list_getitem_out l i :
  ¬ index_ok (length l) i → list_getitem l i = None.
Proof.
  unfold index_ok, list_getitem. intros ?.
  destruct (Z.ltb_spec i 0).
  - destruct (Z.leb_spec (- i) (Z.of_nat (length l))); [lia | done].
  - apply lookup_ge_None. lia.
Qed.

Lemma list_getitem_is_Some l i :
  is_Some (list_getitem l i) ↔ index_ok (length l) i.
Proof.
  split.
  - intros Hs. destruct (decide (index_ok (length l) i)) as [|Hn]; [done|].
    rewrite (list_getitem_out _ _ Hn) in Hs. by destruct Hs.
  - intros Hok. rewrite (list_getitem_ok _ _ Hok).
    apply lookup_lt_is_Some. by apply position_lt.
Qed.

Lemma filter_ext_in (P Q : A → Prop) `{!∀ x, Decision (P x)}
    `{!∀ x, Decision (Q x)} l :
  (∀ x, x ∈ l → P x ↔ Q x) → filter P l = filter Q l.
Proof.
  induction l as [|x l IH]; intros Hext; [done|].
  rewrite !filter_cons.
  rewrite IH by (intros y Hy; apply Hext; by right).
  destruct (decide (P x)) as [HP|HP], (decide (Q x)) as [HQ|HQ]; try done.
  - apply Hext in HP; [done | left].
  - apply Hext in HQ; [done | left].
Qed.

End ListIndex.

Section Positional.
Context {Mol : Type} `{!Canonicalizer Mol}.
Implicit Types (h : heap Mol) (self : loc) (c : umc) (d : dict Mol).

(** The comprehension over the indices resolves them in their order: either
    every index is resolved, or the [IndexError] of the first index the list
    does not hold is raised; the store is not touched. *)
Lemma comprehension_index_run (xs : list string) idx h :
  match mapM (list_getitem xs) idx with
  | Some ks => comprehension (λ i, list_index xs i) idx h = (Ok ks, h)
  | None =>
      ∃ pre i post,
        idx = pre ++ i :: post
        ∧ Forall (λ j, is_Some (list_getitem xs j)) pre
        ∧ list_getitem xs i = None
        ∧ comprehension (λ i, list_index xs i) idx h
          = (Raise (IndexError (list_index_error i)), h)
  end.
Proof.
  induction idx as [|i idx IH]; [done|].
  cbn [comprehension]. rewrite run_bind, list_index_run.
  change (mapM (list_getitem xs) (i :: idx)) with
    (x ← list_getitem xs i; k ← mapM (list_getitem xs) idx; mret (x :: k)).
  destruct (list_getitem xs i) as [k|] eqn:E; simpl.
  - destruct (mapM (list_getitem xs) idx) as [ks|]; simpl.
    + by rewrite run_bind, IH.
    + destruct IH as (pre & j & post & -> & Hpre & Hj & Hrun).
      exists (i :: pre), j, post. split; [done|].
      split; [constructor; [by rewrite E | done]|]. split; [done|].
      by rewrite run_bind, Hrun.
  - exists [], i, idx. by rewrite E.
Qed.

(** The removal loop: every listed key is deleted, the others stay in their
    order; the seal breaks with the first key that was present. *)
Lemma remove_loop_run ks : ∀ h self c d,
  live h self c d → NoDup (dict_keys d) →
  ∃ h',
    for_each ks (λ smi, remove_smiles self smi ;; mret ()) h = (Ok (), h')
    ∧ live h' self
        (if decide (Exists (λ k, k ∈ dict_keys d) ks) then with_sealed c false
         else c)
        (filter (λ kv, kv.1 ∉ ks) d).
Proof.
  induction ks as [|k ks IH]; intros h self c d Hl Hnd.
  - exists h. split; [done|]. rewrite decide_False by (by intros ?%Exists_nil).
    rewrite filter_all; [done|]. apply Forall_forall. intros ? _ ?%elem_of_nil. done.
  - cbn [for_each]. rewrite run_bind, run_bind, (remove_smiles_run _ _ _ _ _ Hl).
    destruct (dict_del k d) as [d1|] eqn:E.
    + pose proof (dict_del_filter _ _ _ Hnd E) as Hd1.
      assert (Hnd1 : NoDup (dict_keys d1)).
      { rewrite Hd1, dict_keys_filter. by apply NoDup_filter. }
      destruct (IH _ self _ d1 (live_put_sealed _ _ _ _ false d1 Hl) Hnd1)
        as (h' & Hrun & Hl').
      exists h'. rewrite run_ret. split; [done|].
      rewrite decide_True; cycle 1.
      { left. apply dict_del_is_Some. eauto. }
      replace (filter (λ kv, kv.1 ∉ k :: ks) d)
        with (filter (λ kv : string * Mol, kv.1 ∉ ks) d1); cycle 1.
      { rewrite Hd1, list_filter_filter. apply list_filter_iff.
        intros [k' v']. simpl. rewrite not_elem_of_cons. tauto. }
      by destruct (decide (Exists _ ks)).
    + apply dict_del_None in E.
      destruct (IH _ self _ d Hl Hnd) as (h' & Hrun & Hl').
      exists h'. rewrite run_ret. split; [done|].
      replace (filter (λ kv, kv.1 ∉ k :: ks) d)
        with (filter (λ kv : string * Mol, kv.1 ∉ ks) d); cycle 1.
      { apply filter_ext_in. intros [k' v'] Hin. simpl.
        rewrite not_elem_of_cons. split; [|tauto]. intros ?. split; [|done].
        intros ->. apply E. apply list_elem_of_fmap. by exists (k, v'). }
      destruct (decide (Exists _ ks)) as [Hex|Hex].
      * by rewrite decide_True by (by right).
      * rewrite decide_False; [done|].
        intros [?|?]%Exists_cons; done.
Qed.

(** One index out of range: the [IndexError] of the first such index of the
    list, and the store is the one before the call. *)
Lemma remove_from_indices_raises h self c d idx :
  live h self c d →
  Exists (λ i, ¬ index_ok (length d) i) idx →
  ∃ pre i post,
    idx = pre ++ i :: post
    ∧ Forall (index_ok (length d)) pre
    ∧ ¬ index_ok (length d) i
    ∧ remove_from_indices self idx h =
      (Raise (IndexError (list_index_error i)), h).
Proof.
  intros [Hc Hd] Hex. unfold remove_from_indices.
  rewrite (run_bind_ok _ _ _ _ _ (load_ok _ _ _ Hc)).
  rewrite (run_bind_ok _ _ _ _ _ (read_dict_ok _ _ _ Hd)).
  pose proof (comprehension_index_run (dict_keys d) idx h) as Hcomp.
  assert (mapM (list_getitem (dict_keys d)) idx = None) as E.
  { apply mapM_None. eapply Exists_impl; [exact Hex|].
    intros i Hi. apply list_getitem_out. by rewrite dict_keys_length. }
  rewrite E in Hcomp. destruct Hcomp as (pre & i & post & -> & Hpre & Hi & Hrun).
  exists pre, i, post. split; [done|]. split; [|split].
  - eapply Forall_impl; [exact Hpre|]. intros j Hj.
    apply list_getitem_is_Some in Hj. by rewrite dict_keys_length in Hj.
  - intros Hok. rewrite <- (dict_keys_length d) in Hok.
    apply list_getitem_is_Some in Hok. rewrite Hi in Hok. by destruct Hok.
  - by rewrite run_bind, Hrun.
Qed.

(** Every index in range: the keys at the listed positions of the key order
    of the call are returned in the order of the argument, and removed. *)
Lemma remove_from_indices_ok h self c d idx :
  live h self c d → NoDup (dict_keys d) →
  Forall (index_ok (length d)) idx →
  ∃ ks h',
    remove_from_indices self idx h = (Ok ks, h')
    ∧ Forall2 (λ i k, dict_keys d !! position (length d) i = Some k) idx ks
    ∧ live h' self (if decide (idx = []) then c else with_sealed c false)
        (filter (λ kv, kv.1 ∉ ks) d).
Proof.
  intros Hl Hnd Hall. pose proof Hl as [Hc Hd]. unfold remove_from_indices.
  rewrite (run_bind_ok _ _ _ _ _ (load_ok _ _ _ Hc)).
  rewrite (run_bind_ok _ _ _ _ _ (read_dict_ok _ _ _ Hd)).
  pose proof (comprehension_index_run (dict_keys d) idx h) as Hcomp.
  destruct (mapM (list_getitem (dict_keys d)) idx) as [ks|] eqn:E; cycle 1.
  { clear Hcomp. apply mapM_None in E. apply Exists_exists in E as (i & Hin & Hi).
    rewrite Forall_forall in Hall. specialize (Hall i Hin).
    rewrite list_getitem_ok in Hi by (by rewrite dict_keys_length).
    apply lookup_ge_None in Hi. apply position_lt in Hall.
    rewrite dict_keys_length in Hi. lia. }
  apply mapM_Some in E.
  assert (HF : Forall2 (λ i k, dict_keys d !! position (length d) i = Some k) idx ks).
  { clear Hcomp. induction E as [|i k idx ks Hik E IH]; [constructor|].
    apply Forall_cons in Hall as [Hi Hall]. constructor; [|by apply IH].
    rewrite list_getitem_ok in Hik by (by rewrite dict_keys_length).
    by rewrite dict_keys_length in Hik. }
  destruct (remove_loop_run ks _ _ _ _ Hl Hnd) as (h' & Hrun & Hl').
  exists ks, h'. rewrite run_bind, Hcomp, run_bind, Hrun, run_ret.
  split; [done|]. split; [done|].
  destruct HF as [|i k idx ks Hik HF].
  - by rewrite decide_False in Hl' by (by intros ?%Exists_nil).
  - rewrite decide_True in Hl'; [done|].
    left. by eapply list_elem_of_lookup_2.
Qed.

(** With one entry per key, the key at a position leads back to the entry
    at that position. *)
Lemma dict_get_at d p k m :
  NoDup (dict_keys d) → d !! p = Some (k, m) → dict_get k d = Some m.
Proof.
  revert p. induction d as [|[k' v'] d IH]; intros p Hnd Hp; [done|].
  apply NoDup_cons in Hnd as [Hk' Hnd]. simpl.
  destruct p as [|p]; simpl in Hp.
  - injection Hp as -> ->. by rewrite decide_True.
  - rewrite decide_False; [by eapply IH|].
    intros ->. apply Hk'. apply list_elem_of_fmap. exists (k', m).
    split; [done | by eapply list_elem_of_lookup_2].
Qed.

Lemma dict_del_at d p k m :
  NoDup (dict_keys d) → d !! p = Some (k, m) → dict_del k d = Some (delete p d).
Proof.
  revert p. induction d as [|[k' v'] d IH]; intros p Hnd Hp; [done|].
  apply NoDup_cons in Hnd as [Hk' Hnd]. simpl.
  destruct p as [|p]; simpl in Hp.
  - injection Hp as -> ->. by rewrite decide_True.
  - rewrite decide_False; [by erewrite IH|].
    intros ->. apply Hk'. apply list_elem_of_fmap. exists (k', m).
    split; [done | by eapply list_elem_of_lookup_2].
Qed.

Lemma getitem_int_raises h self c d i :
  live h self c d → ¬ index_ok (length d) i →
  __getitem__ self (KInt i) h =
  (Raise (IndexError (list_index_error i)), h).
Proof.
  intros Hl Hi. rewrite (getitem_run _ _ _ _ _ Hl).
  by rewrite list_getitem_out by (by rewrite dict_keys_length).
Qed.

Lemma getitem_int_ok h self c d i k m :
  live h self c d → NoDup (dict_keys d) → index_ok (length d) i →
  d !! position (length d) i = Some (k, m) →
  __getitem__ self (KInt i) h = (Ok m, h).
Proof.
  intros Hl Hnd Hi Hp. rewrite (getitem_run _ _ _ _ _ Hl).
  rewrite list_getitem_ok by (by rewrite dict_keys_length).
  rewrite dict_keys_length. unfold dict_keys. rewrite list_lookup_fmap, Hp. simpl.
  by rewrite (dict_get_at _ _ _ _ Hnd Hp).
Qed.

(** [pop] out of range: the handler composes the message from the size and
    the index, unless the container is empty. *)
Lemma pop_raises h self c d i :
  live h self c d → ¬ index_ok (length d) i →
  pop self i h =
  (Raise (IndexError
     (if decide (Z.of_nat (length d) = 0) then "Empty container."
      else "Valid index must be between 0 and " +:+ fmt_d (Z.of_nat (length d))
           +:+ ", but " +:+ fmt_d i +:+ " was used.")), h).
Proof.
  intros [Hc Hd] Hi. unfold pop, try_except_IndexError.
  rewrite (run_bind_ok _ _ _ _ _ (load_ok _ _ _ Hc)).
  rewrite (run_bind_ok _ _ _ _ _ (read_dict_ok _ _ _ Hd)).
  rewrite run_bind, list_index_run.
  rewrite list_getitem_out by (by rewrite dict_keys_length).
  rewrite (run_bind_ok _ _ _ _ _ (load_ok _ _ _ Hc)).
  by rewrite (run_bind_ok _ _ _ _ _ (read_dict_ok _ _ _ Hd)).
Qed.

(** [pop] in range: the record at the position is returned and its entry
    deleted; no attribute of the container changes, the seal included. *)
Lemma pop_ok h self c d i k m :
  live h self c d → NoDup (dict_keys d) → index_ok (length d) i →
  d !! position (length d) i = Some (k, m) →
  pop self i h =
  (Ok m, Heap (conts h) (<[__data c := delete (position (length d) i) d]> (dicts h))).
Proof.
  intros [Hc Hd] Hnd Hi Hp. unfold pop, try_except_IndexError.
  rewrite (run_bind_ok _ _ _ _ _ (load_ok _ _ _ Hc)).
  rewrite (run_bind_ok _ _ _ _ _ (read_dict_ok _ _ _ Hd)).
  rewrite run_bind, list_index_run.
  rewrite list_getitem_ok by (by rewrite dict_keys_length).
  rewrite dict_keys_length. unfold dict_keys. rewrite list_lookup_fmap, Hp. simpl.
  rewrite run_bind, (dict_getitem_run _ _ _ _ Hd), (dict_get_at _ _ _ _ Hnd Hp).
  rewrite run_bind, (dict_delitem_run _ _ _ _ Hd), (dict_del_at _ _ _ _ Hnd Hp).
  done.
Qed.

(** C5, as the code has it: an index is in range when the list of keys
    accepts it, a negative one counting from the end.  With an index out of
    range in the list, [remove_from_indices] raises [IndexError] and the store
    is the one before the call: no entry is removed, no seal broken.  The
    error is that of the first index out of range: the list's own, or that of
    the conversion when the index is beyond a machine index.
    Otherwise it returns the keys at the listed positions of the key order at
    the time of the call, in the order of the argument, and the entries left
    are those under the other keys, in their order; the seal is broken unless
    the list is empty. *)
Theorem remove_from_indices_spec h self c d idx :
  live h self c d → NoDup (dict_keys d) →
  (Exists (λ i, ¬ index_ok (length d) i) idx →
     ∃ pre i post,
       idx = pre ++ i :: post
       ∧ Forall (index_ok (length d)) pre
       ∧ ¬ index_ok (length d) i
       ∧ remove_from_indices self idx h =
         (Raise (IndexError
            (if decide (fits_index i) then "list index out of range"
             else "cannot fit 'int' into an index-sized integer")), h))
  ∧ (Forall (index_ok (length d)) idx →
     ∃ ks h',
       remove_from_indices self idx h = (Ok ks, h')
       ∧ Forall2 (λ i k, dict_keys d !! position (length d) i = Some k) idx ks
       ∧ entries h' self = Some (filter (λ kv, kv.1 ∉ ks) d)
       ∧ sealed_at h' self = Some (if decide (idx = []) then sealed c else false)).
Proof.
  intros Hl Hnd. split; [by apply (remove_from_indices_raises _ _ _ _ _ Hl)|].
  intros Hall.
  destruct (remove_from_indices_ok _ _ _ _ _ Hl Hnd Hall) as (ks & h' & Hrun & HF & Hl').
  exists ks, h'. split; [done|]. split; [done|].
  split; [by eapply entries_live|].
  rewrite (sealed_live _ _ _ _ Hl'). by destruct (decide (idx = [])).
Qed.

(** C6, as the code has it: an index outside [-n, n) makes each positional
    access raise [IndexError] and leave the store alone.  The subscript and
    [remove_from_indices] raise the error of the list subscript, whose
    message names neither a range nor the index: "list index out of range",
    or "cannot fit 'int' into an index-sized integer" for an index beyond a
    machine index; a list of indices raises the error of its first index out
    of range.  [pop] composes a message with the size and the index, and on
    an empty container the message "Empty container.".
    An index inside [-n, n), a negative one counting from the end, raises
    nothing: the subscript returns the record at the position, [pop] returns
    it and deletes its entry, [remove_from_indices] returns its key. *)
Theorem positional_access_spec h self c d i :
  live h self c d → NoDup (dict_keys d) →
  (¬ index_ok (length d) i →
     __getitem__ self (KInt i) h =
       (Raise (IndexError
          (if decide (fits_index i) then "list index out of range"
           else "cannot fit 'int' into an index-sized integer")), h)
     ∧ pop self i h =
       (Raise (IndexError
          (if decide (Z.of_nat (length d) = 0) then "Empty container."
           else "Valid index must be between 0 and "
                +:+ fmt_d (Z.of_nat (length d))
                +:+ ", but " +:+ fmt_d i +:+ " was used.")), h)
     ∧ remove_from_indices self [i] h =
       (Raise (IndexError
          (if decide (fits_index i) then "list index out of range"
           else "cannot fit 'int' into an index-sized integer")), h)
     ∧ ∀ idx, i ∈ idx →
         ∃ j, j ∈ idx ∧ ¬ index_ok (length d) j
           ∧ remove_from_indices self idx h =
             (Raise (IndexError
                (if decide (fits_index j) then "list index out of range"
                 else "cannot fit 'int' into an index-sized integer")), h))
  ∧ (index_ok (length d) i →
     ∃ k m,
       d !! position (length d) i = Some (k, m)
       ∧ __getitem__ self (KInt i) h = (Ok m, h)
       ∧ pop self i h =
         (Ok m, Heap (conts h)
                     (<[__data c := delete (position (length d) i) d]> (dicts h)))
       ∧ ∃ h', remove_from_indices self [i] h = (Ok [k], h')).
Proof.
  intros Hl Hnd. split.
  - intros Hi. split; [by apply (getitem_int_raises _ _ _ _ _ Hl)|].
    split; [by apply (pop_raises _ _ _ _ _ Hl)|]. split.
    + destruct (remove_from_indices_raises _ _ _ _ [i] Hl)
        as (pre & j & post & Heq & Hpre & Hj & Hrun);
        [by apply Exists_cons_hd|].
      destruct pre as [|i' pre]; simplify_eq/=; [done|].
      by apply Forall_cons in Hpre as [? _].
    + intros idx Hin.
      destruct (remove_from_indices_raises _ _ _ _ idx Hl)
        as (pre & j & post & -> & Hpre & Hj & Hrun).
      { apply Exists_exists. by exists i. }
      exists j. split; [|done]. apply elem_of_app. right. by left.
  - intros Hi.
    destruct (lookup_lt_is_Some_2 d (position (length d) i)) as [[k m] Hp];
      [by apply position_lt|].
    exists k, m. split; [done|].
    split; [by eapply getitem_int_ok|]. split; [by eapply pop_ok|].
    destruct (remove_from_indices_ok _ _ _ _ [i] Hl Hnd) as (ks & h' & Hrun & HF & _);
      [by apply Forall_singleton|].
    exists h'. rewrite Hrun. do 2 f_equal.
    apply Forall2_cons_inv_l in HF as (k' & ks' & Hk' & ->%Forall2_nil_inv_l & ->).
    unfold dict_keys in Hk'. rewrite list_lookup_fmap, Hp in Hk'. simpl in Hk'.
    by injection Hk' as ->.
Qed.

End Positional.

Lemma shelf_live :
  live shelf 0%nat (Build 0 true true None) four_mols.
Proof. split; reflexivity. Defined.

Lemma four_mols_NoDup : NoDup (dict_keys four_mols).
Proof. apply (bool_decide_unpack _). by vm_compute. Defined.

(** C5 witness: indices 0 and 2 on the container of four molecules. *)
Lemma remove_from_indices_spec_witness :
  live shelf 0%nat (Build 0 true true None) four_mols
  ∧ NoDup (dict_keys four_mols)
  ∧ Forall (index_ok (length four_mols)) [0; 2]
  ∧ ∃ ks h',
      remove_from_indices 0%nat [0; 2] shelf = (Ok ks, h')
      ∧ Forall2 (λ i k, dict_keys four_mols !! position (length four_mols) i = Some k)
          [0; 2] ks
      ∧ entries h' 0%nat = Some (filter (λ kv, kv.1 ∉ ks) four_mols)
      ∧ sealed_at h' 0%nat = Some false.
Proof.
  assert (Hall : Forall (index_ok (length four_mols)) [0; 2]).
  { repeat constructor; simpl; lia. }
  split; [exact shelf_live|]. split; [exact four_mols_NoDup|].
  split; [exact Hall|].
  exact (proj2 (remove_from_indices_spec shelf 0%nat _ four_mols [0; 2]
                  shelf_live four_mols_NoDup) Hall).
Defined.

(** C5 fails as stated: -1 lies outside [0, 4), yet with the index list
    [[-1]] nothing is raised: the last key is removed and returned, and the
    seal is broken. *)
Lemma remove_from_indices_takes_a_negative_index :
  ¬ (0 ≤ -1 < Z.of_nat (length four_mols))
  ∧ remove_from_indices 0%nat [-1] shelf =
    (Ok ["C[C@H](N)C(=O)O"],
     Heap [Build 0 false true None]
          [[("c1ccccc1", benzene); ("CCO", ethanol); ("c1ccncc1", pyridine)]]).
Proof. split; [simpl; lia | by vm_compute]. Qed.

(** C6 witness: index 7, and an index beyond a machine index, on the
    container of four molecules. *)
Lemma positional_access_spec_witness :
  live shelf 0%nat (Build 0 true true None) four_mols
  ∧ NoDup (dict_keys four_mols)
  ∧ ¬ index_ok (length four_mols) 7
  ∧ __getitem__ 0%nat (KInt 7) shelf =
    (Raise (IndexError "list index out of range"), shelf)
  ∧ pop 0%nat 7 shelf =
    (Raise (IndexError "Valid index must be between 0 and 4, but 7 was used."),
     shelf)
  ∧ ¬ index_ok (length four_mols) (2 ^ 70)
  ∧ __getitem__ 0%nat (KInt (2 ^ 70)) shelf =
    (Raise (IndexError "cannot fit 'int' into an index-sized integer"), shelf)
  ∧ remove_from_indices 0%nat [2 ^ 70] shelf =
    (Raise (IndexError "cannot fit 'int' into an index-sized integer"), shelf).
Proof.
  assert (Hout : ¬ index_ok (length four_mols) 7).
  { unfold index_ok. simpl. lia. }
  assert (Hbig : ¬ index_ok (length four_mols) (2 ^ 70)).
  { unfold index_ok. simpl. lia. }
  split; [exact shelf_live|]. split; [exact four_mols_NoDup|].
  split; [exact Hout|].
  destruct (proj1 (positional_access_spec shelf 0%nat _ four_mols 7
                     shelf_live four_mols_NoDup) Hout) as (Hget & Hpop & _).
  split; [exact Hget|]. split; [exact Hpop|]. split; [exact Hbig|].
  destruct (proj1 (positional_access_spec shelf 0%nat _ four_mols (2 ^ 70)
                     shelf_live four_mols_NoDup) Hbig) as (Hget' & _ & Hrm & _).
  split; [exact Hget' | exact Hrm].
Defined.

(** C6 fails as stated.  Index -1 lies outside [0, 4) and the subscript raises
    nothing: it returns the last record.  Where an error is raised, its
    message need not name a range or the index: the subscript with index 4
    raises "list index out of range", and [pop()] on an empty container
    raises "Empty container.". *)
Lemma positional_errors_of_the_code :
  ¬ (0 ≤ -1 < Z.of_nat (length four_mols))
  ∧ __getitem__ 0%nat (KInt (-1)) shelf = (Ok L_alanine, shelf)
  ∧ pop 0%nat (-1) shelf =
    (Ok L_alanine,
     Heap [Build 0 true true None]
          [[("c1ccccc1", benzene); ("CCO", ethanol); ("c1ccncc1", pyridine)]])
  ∧ __getitem__ 0%nat (KInt 4) shelf =
    (Raise (IndexError "list index out of range"), shelf)
  ∧ ∃ x h,
      __init__ ArgNone true false (empty_heap (Mol := toy_mol)) = (Ok x, h)
      ∧ pop x 0 h = (Raise (IndexError "Empty container."), h).
Proof.
  split; [simpl; lia|]. split; [by vm_compute|]. split; [by vm_compute|].
  split; [by vm_compute|]. eexists _, _. split; reflexivity.
Qed.

(** ** The seal *)

Section Seal.
Context {Mol : Type} `{!Canonicalizer Mol}.
Implicit Types (h : heap Mol) (self : loc) (c : umc) (d : dict Mol).

Lemma dict_contains_del k d :
  dict_contains k d = bool_decide (is_Some (dict_del k d)).
Proof.
  unfold dict_contains. apply bool_decide_ext. by rewrite dict_del_is_Some.
Qed.

(** One call: its answer is [call_succeeds], its entries are [call_effect];
    the seal is assigned [False] when the call succeeds, and the store is
    the one before the call when it does not. *)
Lemma do_call_spec h self c d cl :
  live h self c d →
  ∃ h1,
    do_call self cl h = (Ok (call_succeeds (__chirality c) d cl), h1)
    ∧ live h1 self
        (if call_succeeds (__chirality c) d cl then with_sealed c false else c)
        (call_effect (__chirality c) d cl)
    ∧ (call_succeeds (__chirality c) d cl = false → h1 = h).
Proof.
  intros Hl. destruct cl as [key default|mol|smiles|mol|mol replace];
    cbn [do_call call_succeeds call_effect].
  - destruct (get_never_raises _ _ _ _ key default Hl) as [v Hv].
    exists h. by rewrite run_bind, Hv.
  - exists h. by rewrite run_bind, (contains_run _ _ _ _ _ Hl).
  - rewrite (remove_smiles_run _ _ _ _ _ Hl), dict_contains_del.
    destruct (dict_del smiles d) as [d'|].
    + rewrite bool_decide_eq_true_2 by eauto. simpl.
      eexists. split; [done|]. split; [by apply (live_put_sealed _ _ _ d) | done].
    + rewrite bool_decide_eq_false_2 by (by intros []). by exists h.
  - rewrite (remove_mol_run _ _ _ _ _ Hl), dict_contains_del.
    destruct (dict_del _ d) as [d'|].
    + rewrite bool_decide_eq_true_2 by eauto. simpl.
      eexists. split; [done|]. split; [by apply (live_put_sealed _ _ _ d) | done].
    + rewrite bool_decide_eq_false_2 by (by intros []). by exists h.
  - rewrite (add_run _ _ _ _ _ _ Hl).
    destruct (_ && _); simpl.
    + by exists h.
    + eexists. split; [done|]. split; [by apply (live_put_sealed _ _ _ d) | done].
Qed.

(** The sequence: its answer is [calls_succeed], its entries are
    [calls_effect]. *)
Lemma do_calls_spec cls : ∀ h self c d acc,
  live h self c d →
  ∃ h',
    do_calls self cls acc h
    = (Ok (acc || calls_succeed (__chirality c) d cls), h')
    ∧ live h' self
        (if calls_succeed (__chirality c) d cls then with_sealed c false else c)
        (calls_effect (__chirality c) d cls)
    ∧ (calls_succeed (__chirality c) d cls = false → h' = h).
Proof.
  induction cls as [|cl cls IH]; intros h self c d acc Hl.
  - exists h. cbn [do_calls calls_succeed]. by rewrite orb_false_r.
  - cbn [do_calls calls_succeed]. unfold calls_effect. cbn [foldl].
    destruct (do_call_spec _ _ _ _ cl Hl) as (h1 & Hrun & Hl1 & Hsame).
    rewrite run_bind, Hrun.
    destruct (IH h1 self _ _ (acc || call_succeeds (__chirality c) d cl) Hl1)
      as (h' & Hrun' & Hl' & Hsame').
    assert (Hch : __chirality
              (if call_succeeds (__chirality c) d cl then with_sealed c false
               else c) = __chirality c) by (by destruct (call_succeeds _ _ _)).
    rewrite Hch in Hrun', Hl', Hsame'.
    exists h'. rewrite Hrun', orb_assoc. split; [done|]. split.
    + unfold calls_effect in Hl'.
      by destruct (call_succeeds _ _ _), (calls_succeed _ _ _).
    + intros [E1 E2]%orb_false_elim. by rewrite (Hsame' E2), (Hsame E1).
Qed.

(** On an empty container every removal fails and the first insertion
    succeeds. *)
Lemma calls_succeed_on_empty chirality (cls : list (call Mol)) :
  calls_succeed chirality [] cls = existsb is_add cls.
Proof.
  induction cls as [|cl cls IH]; [done|].
  destruct cl; cbn [calls_succeed call_succeeds call_effect existsb is_add];
    by rewrite ?IH.
Qed.

Lemma init_empty_run (h0 : heap Mol) sealed0 ignore_chirality :
  __init__ ArgNone sealed0 ignore_chirality h0 =
  (Ok (length (conts h0)),
   Heap (conts h0 ++ [Build (length (dicts h0)) sealed0 (negb ignore_chirality) None])
        (dicts h0 ++ [[]])).
Proof. reflexivity. Qed.

Lemma init_empty_live (h0 : heap Mol) sealed0 ignore_chirality :
  live (Heap (conts h0 ++ [Build (length (dicts h0)) sealed0 (negb ignore_chirality) None])
             (dicts h0 ++ [[]]))
       (length (conts h0))
       (Build (length (dicts h0)) sealed0 (negb ignore_chirality) None) [].
Proof. split; simpl; by apply list_lookup_middle. Qed.

(** C7: a container constructed empty with [sealed=True], in any store and
    with either chirality mode, is a container that is sealed and holds
    nothing.  On a container in any state (the new one, one that has been
    filled and sealed again, a copy), take any sequence of [get] calls,
    membership tests, removals by key or by molecule, and insertions.  The
    calls run without an exception and leave the entries the sequence
    describes.  If no call of the sequence is a removal of a key held at
    that point, an insertion of a key not held at that point or an insertion
    with [replace], the store is the one before the sequence, so a sealed
    container is still sealed; if one is, the container is unsealed after
    the sequence, whatever its seal was before.  So lookups, membership tests
    and failed removals keep the seal, and the first successful insertion or
    removal breaks it.  On an empty container the removals before the first
    insertion all fail and the first insertion succeeds. *)
Theorem seal_semantics h self c d (cls : list (call Mol)) :
  live h self c d →
  (∀ (h0 : heap Mol) ignore_chirality,
     ∃ x hx cx,
       __init__ ArgNone true ignore_chirality h0 = (Ok x, hx)
       ∧ live hx x cx [] ∧ sealed cx = true)
  ∧ (∃ h',
       do_calls self cls false h
       = (Ok (calls_succeed (__chirality c) d cls), h')
       ∧ entries h' self = Some (calls_effect (__chirality c) d cls)
       ∧ sealed_at h' self
         = Some (if calls_succeed (__chirality c) d cls then false
                 else sealed c)
       ∧ (calls_succeed (__chirality c) d cls = false → h' = h))
  ∧ (d = [] → calls_succeed (__chirality c) d cls = existsb is_add cls).
Proof.
  intros Hl. split; [|split].
  - intros h0 ignore_chirality. eexists _, _, _.
    split; [apply init_empty_run|]. split; [apply init_empty_live | done].
  - destruct (do_calls_spec cls _ _ _ _ false Hl) as (h' & Hrun & Hl' & Hsame).
    exists h'. split; [exact Hrun|].
    split; [by rewrite (entries_live _ _ _ _ Hl')|].
    split; [|done].
    rewrite (sealed_live _ _ _ _ Hl'). by destruct (calls_succeed _ _ _).
  - intros ->. apply calls_succeed_on_empty.
Qed.

End Seal.

Lemma vial_live :
  live vial 0%nat (Build 0 true true None) [("c1ccccc1", benzene)].
Proof. split; reflexivity. Defined.

(** C7 witness: on the sealed container that holds benzene, a lookup, a
    membership test and the removal of an absent key leave the store as it
    is, sealed; the removal of benzene after them breaks the seal. *)
Lemma seal_semantics_witness :
  live vial 0%nat (Build 0 true true None) [("c1ccccc1", benzene)]
  ∧ do_calls 0%nat
      [CallGet (KStr "c1ccccc1") PyNone; CallContains ethanol;
       CallRemoveSmiles "CCO"] false vial
    = (Ok false, vial)
  ∧ sealed_at vial 0%nat = Some true
  ∧ ∃ h',
      do_calls 0%nat
        [CallGet (KStr "c1ccccc1") PyNone; CallContains ethanol;
         CallRemoveSmiles "CCO"; CallRemoveMol benzene] false vial
      = (Ok true, h')
      ∧ entries h' 0%nat = Some []
      ∧ sealed_at h' 0%nat = Some false.
Proof.
  split; [exact vial_live|].
  destruct (seal_semantics vial 0%nat _ _
              [CallGet (KStr "c1ccccc1") PyNone; CallContains ethanol;
               CallRemoveSmiles "CCO"] vial_live)
    as (_ & (h1 & Hrun1 & _ & Hs1 & Hsame1) & _).
  rewrite (Hsame1 eq_refl) in Hrun1, Hs1.
  split; [exact Hrun1|]. split; [exact Hs1|].
  destruct (seal_semantics vial 0%nat _ _
              [CallGet (KStr "c1ccccc1") PyNone; CallContains ethanol;
               CallRemoveSmiles "CCO"; CallRemoveMol benzene] vial_live)
    as (_ & (h' & Hrun & He & Hs & _) & _).
  exists h'. split; [exact Hrun|]. split; [exact He | exact Hs].
Defined.

(** ** [add] *)

Section Add.
Context {Mol : Type} `{!Canonicalizer Mol}.
Implicit Types (h : heap Mol) (self : loc) (c : umc) (d : dict Mol).

(** C8, as the code has it: for a record whose key the container does not
    hold yet, two calls of [add] without [replace] return [True] then
    [False], the second leaves the store alone, and the size has grown by
    exactly one.  For a record whose key the container holds already, [add]
    returns [False] from the first call on and changes nothing. *)
Theorem add_twice h self c d mol :
  live h self c d →
  (mol2smi mol (__chirality c) ∉ dict_keys d →
     ∃ h1,
       add self mol false h = (Ok true, h1)
       ∧ add self mol false h1 = (Ok false, h1)
       ∧ __len__ self h = (Ok (Z.of_nat (length d)), h)
       ∧ __len__ self h1 = (Ok (Z.of_nat (length d) + 1), h1))
  ∧ (mol2smi mol (__chirality c) ∈ dict_keys d →
     add self mol false h = (Ok false, h)).
Proof.
  intros Hl. split.
  - intros Habs. pose proof Habs as Hf%dict_contains_false.
    pose proof (live_put_sealed _ _ _ _ false
                  (dict_set (mol2smi mol (__chirality c)) mol d) Hl) as Hl1.
    eexists. split; [by rewrite (add_run _ _ _ _ _ _ Hl), Hf|].
    split.
    { rewrite (add_run _ _ _ _ _ _ Hl1). simpl __chirality.
      by rewrite (proj2 (dict_contains_true _ _) (dict_set_contains _ _ _)). }
    split; [by apply (len_run _ _ c)|].
    rewrite (len_run _ _ _ _ Hl1), dict_set_absent by done.
    rewrite length_app. simpl. do 2 f_equal. lia.
  - intros Hin%dict_contains_true. by rewrite (add_run _ _ _ _ _ _ Hl), Hin.
Qed.

End Add.

(** C8 witness: ethanol is added twice to a container that holds benzene. *)
Lemma add_twice_witness :
  live vial 0%nat (Build 0 true true None) [("c1ccccc1", benzene)]
  ∧ (mol2smi ethanol true ∉ dict_keys [("c1ccccc1", benzene)])
  ∧ ∃ h1,
      add 0%nat ethanol false vial = (Ok true, h1)
      ∧ add 0%nat ethanol false h1 = (Ok false, h1)
      ∧ __len__ 0%nat h1 = (Ok 2, h1).
Proof.
  assert (Hl : live vial 0%nat (Build 0 true true None) [("c1ccccc1", benzene)])
    by (split; reflexivity).
  assert (Habs : mol2smi ethanol true ∉ dict_keys [("c1ccccc1", benzene)]).
  { apply (bool_decide_unpack _). by vm_compute. }
  split; [exact Hl|]. split; [exact Habs|].
  destruct (proj1 (add_twice _ _ _ _ ethanol Hl) Habs) as (h1 & H1 & H2 & _ & H4).
  exists h1. split; [exact H1|]. split; [exact H2 | exact H4].
Defined.

(** C8 fails as stated: the container of four molecules holds benzene, and
    the first of two calls of [add] with benzene returns [False]; the size
    stays 4. *)
Lemma add_of_a_held_record_is_False :
  add 0%nat benzene false shelf = (Ok false, shelf)
  ∧ __len__ 0%nat shelf = (Ok 4, shelf).
Proof. split; by vm_compute. Qed.

(** ** Construction from a sequence, equality *)

Section Equality.
Context {Mol : Type} `{!Canonicalizer Mol}.
Implicit Types (h : heap Mol) (self : loc) (c : umc) (d : dict Mol).

Lemma keyset_eq_true (a b : list string) :
  keyset_eq a b = true ↔ ∀ k, k ∈ a ↔ k ∈ b.
Proof.
  unfold keyset_eq. rewrite bool_decide_eq_true. split.
  - intros E k. rewrite <- !(elem_of_list_to_set (C := gset string)). by rewrite E.
  - intros E. apply set_eq. intros k. rewrite !elem_of_list_to_set. apply E.
Qed.

Lemma eq_run h a b ca da cb db :
  live h a ca da → live h b cb db →
  __eq__ a b h = (Ok (keyset_eq (dict_keys da) (dict_keys db)), h).
Proof.
  intros [Ha Hda] [Hb Hdb]. unfold __eq__.
  rewrite (run_bind_ok _ _ _ _ _ (load_ok _ _ _ Ha)).
  rewrite (run_bind_ok _ _ _ _ _ (read_dict_ok _ _ _ Hda)).
  rewrite (run_bind_ok _ _ _ _ _ (load_ok _ _ _ Hb)).
  by rewrite (run_bind_ok _ _ _ _ _ (read_dict_ok _ _ _ Hdb)).
Qed.

(** One round of the constructor's loop over a sequence. *)
Lemma init_round_run h self c d m :
  live h self c d →
  ∃ h' d',
    (add self m false ;; set_sealed self false) h = (Ok (), h')
    ∧ live h' self (with_sealed c false) d'
    ∧ (∀ k, k ∈ dict_keys d' ↔ k ∈ dict_keys d ∨ k = mol2smi m (__chirality c))
    ∧ (NoDup (dict_keys d) → NoDup (dict_keys d'))
    ∧ (∀ l cl dl, live h l cl dl → l ≠ self → __data cl ≠ __data c →
         live h' l cl dl).
Proof.
  intros Hl. rewrite run_bind, (add_run _ _ _ _ _ _ Hl). simpl negb.
  rewrite andb_true_r.
  destruct (dict_contains (mol2smi m (__chirality c)) d) eqn:Hk.
  - apply dict_contains_true in Hk.
    rewrite (set_sealed_ok _ _ _ _ (proj1 Hl)).
    eexists _, d. split; [done|].
    split; [by apply (live_put_conts _ _ c d (with_sealed c false))|].
    split; [intros k; split; [by left | by intros [?| ->]]|].
    split; [done|].
    intros l cl dl [Hcl Hdl] Hne _. split; simpl; [|done].
    by rewrite list_lookup_insert_ne.
  - apply dict_contains_false in Hk.
    pose proof (live_put_sealed _ _ _ _ false
                  (dict_set (mol2smi m (__chirality c)) m d) Hl) as Hl1.
    rewrite (set_sealed_ok _ _ _ _ (proj1 Hl1)).
    eexists _, _. split; [done|]. split.
    { apply (live_put_conts _ _ _ _ (with_sealed c false) Hl1 eq_refl). }
    split; [intros k; rewrite dict_set_keys_elem; tauto|].
    split; [by apply dict_set_NoDup|].
    intros l cl dl [Hcl Hdl] Hne Hr. split; simpl.
    + by rewrite !list_lookup_insert_ne.
    + by rewrite list_lookup_insert_ne.
Qed.

Lemma init_loop_run mols : ∀ h self c d,
  live h self c d →
  ∃ h' c' d',
    for_each mols (λ m, add self m false ;; set_sealed self false) h = (Ok (), h')
    ∧ live h' self c' d'
    ∧ __data c' = __data c
    ∧ __chirality c' = __chirality c
    ∧ sealed c' = (if mols is [] then sealed c else false)
    ∧ (∀ k, k ∈ dict_keys d'
         ↔ k ∈ dict_keys d ∨ k ∈ (λ m, mol2smi m (__chirality c)) <$> mols)
    ∧ (NoDup (dict_keys d) → NoDup (dict_keys d'))
    ∧ (∀ l cl dl, live h l cl dl → l ≠ self → __data cl ≠ __data c →
         live h' l cl dl).
Proof.
  induction mols as [|m mols IH]; intros h self c d Hl.
  - exists h, c, d. do 5 (split; [done|]).
    split; [|done]. intros k. rewrite fmap_nil, elem_of_nil. tauto.
  - cbn [for_each]. rewrite run_bind.
    destruct (init_round_run _ _ _ _ m Hl) as (h1 & d1 & Hrun & Hl1 & Hk1 & Hnd1 & Hfr1).
    rewrite Hrun.
    destruct (IH _ _ _ _ Hl1) as (h' & c' & d' & Hr & Hl' & Hd & Hch & Hs & Hk & Hnd & Hfr).
    simpl in Hd, Hch.
    exists h', c', d'. do 4 (split; [done|]).
    split; [by destruct mols|].
    split.
    { intros k. rewrite Hk, Hk1, fmap_cons, elem_of_cons. simpl. tauto. }
    split; [auto|].
    intros l cl dl Hlive Hne Hr'. apply Hfr; auto.
Qed.

(** [UniqueMoleculeContainer(mols, sealed, ignore_chirality)] for a list or
    tuple: a new container whose keys are those of the molecules, each once;
    the containers there were are untouched. *)
Lemma init_from_sequence_run h0 mols sealed0 ignore_chirality :
  ∃ x h' c' d',
    __init__ (ArgSeq mols) sealed0 ignore_chirality h0 = (Ok x, h')
    ∧ conts h0 !! x = None
    ∧ live h' x c' d'
    ∧ __chirality c' = negb ignore_chirality
    ∧ sealed c' = (if mols is [] then sealed0 else false)
    ∧ (∀ k, k ∈ dict_keys d'
         ↔ k ∈ (λ m, mol2smi m (negb ignore_chirality)) <$> mols)
    ∧ NoDup (dict_keys d')
    ∧ (∀ l cl dl, live h0 l cl dl → live h' l cl dl).
Proof.
  pose proof (init_empty_live h0 sealed0 ignore_chirality) as Hl.
  destruct (init_loop_run mols _ _ _ _ Hl)
    as (h' & c' & d' & Hr & Hl' & Hd & Hch & Hs & Hk & Hnd & Hfr).
  exists (length (conts h0)), h', c', d'. split.
  { unfold __init__. rewrite run_bind. unfold new_dict at 1. cbv beta iota.
    rewrite run_bind. unfold new_object at 1. cbv beta iota.
    simpl conts. simpl dicts. by rewrite run_bind, Hr. }
  split; [by apply lookup_ge_None|]. split; [done|]. split; [done|].
  split; [done|].
  split. { intros k. rewrite Hk. simpl. rewrite elem_of_nil. tauto. }
  split; [apply Hnd, NoDup_nil_2|].
  intros l cl dl [Hcl Hdl].
  pose proof (lookup_lt_Some _ _ _ Hcl). pose proof (lookup_lt_Some _ _ _ Hdl).
  apply Hfr; [|lia|simpl; lia].
  split; simpl; by apply lookup_app_l_Some.
Qed.

(** C9: [a == b] is [True] exactly when every key of one container is a key
    of the other; neither the order of the keys, nor the records under them,
    nor any other attribute of the containers enters, and the comparison
    leaves the store alone.  So two containers constructed from sequences of
    molecules whose keys are the same up to order compare equal, whichever
    molecule objects carry those keys. *)
Theorem eq_compares_key_sets h a b ca da cb db :
  live h a ca da → live h b cb db →
  (∃ r, __eq__ a b h = (Ok r, h)
        ∧ (r = true ↔ ∀ k, k ∈ dict_keys da ↔ k ∈ dict_keys db))
  ∧ ∀ mols1 mols2 sealed1 sealed2 ignore_chirality,
      (λ m, mol2smi m (negb ignore_chirality)) <$> mols1
        ≡ₚ (λ m, mol2smi m (negb ignore_chirality)) <$> mols2 →
      ∃ x h1 y h2,
        __init__ (ArgSeq mols1) sealed1 ignore_chirality h = (Ok x, h1)
        ∧ __init__ (ArgSeq mols2) sealed2 ignore_chirality h1 = (Ok y, h2)
        ∧ x ≠ y
        ∧ __eq__ x y h2 = (Ok true, h2).
Proof.
  intros Ha Hb. split.
  - eexists. split; [by apply (eq_run _ _ _ _ _ _ _ Ha Hb)|]. apply keyset_eq_true.
  - intros mols1 mols2 s1 s2 ic Hperm.
    destruct (init_from_sequence_run h mols1 s1 ic)
      as (x & h1 & cx & dx & Hx & Hfresh & Hlx & _ & _ & Hkx & _ & _).
    destruct (init_from_sequence_run h1 mols2 s2 ic)
      as (y & h2 & cy & dy & Hy & Hfreshy & Hly & _ & _ & Hky & _ & Hfr).
    exists x, h1, y, h2. split; [done|]. split; [done|].
    split. { intros ->. destruct Hlx as [Hcx _]. congruence. }
    rewrite (eq_run _ _ _ _ _ _ _ (Hfr _ _ _ Hlx) Hly). do 2 f_equal.
    apply keyset_eq_true. intros k. rewrite Hkx, Hky. by rewrite Hperm.
Qed.

End Equality.

(** C9 witness: in the store of the four-molecule container, compared with
    itself, two containers are built from benzene, ethanol and pyridine in
    two orders, with two benzene objects. *)
Lemma eq_compares_key_sets_witness :
  live shelf 0%nat (Build 0 true true None) four_mols
  ∧ (∃ r, __eq__ 0%nat 0%nat shelf = (Ok r, shelf) ∧ r = true)
  ∧ ∃ x h1 y h2,
      __init__ (ArgSeq [benzene; ethanol; pyridine]) true false shelf = (Ok x, h1)
      ∧ __init__ (ArgSeq [pyridine; benzene'; ethanol]) true false h1 = (Ok y, h2)
      ∧ x ≠ y
      ∧ __eq__ x y h2 = (Ok true, h2).
Proof.
  destruct (eq_compares_key_sets shelf 0%nat 0%nat _ _ _ _ shelf_live shelf_live)
    as [(r & Hr & Hiff) Hseq].
  split; [exact shelf_live|]. split.
  - exists r. split; [exact Hr|]. apply Hiff. intros k. reflexivity.
  - apply (Hseq [benzene; ethanol; pyridine] [pyridine; benzene'; ethanol]
             true true false).
    simpl. apply (Permutation_app_comm ["c1ccccc1"; "CCO"] ["c1ccncc1"]).
Defined.

(** ** Iteration *)

Section Iteration.
Context {Mol : Type} `{!Canonicalizer Mol}.
Implicit Types (h : heap Mol) (self : loc) (c : umc) (d : dict Mol).

Lemma live_put_attrs h l c d c' :
  live h l c d → __data c' = __data c → live (put_attrs h l c') l c' d.
Proof. apply live_put_conts. Qed.

Lemma iter_run h self c :
  conts h !! self = Some c →
  __iter__ self h = (Ok self, put_attrs h self (with_index c (-1))).
Proof.
  intros Hc. unfold __iter__.
  by rewrite (run_bind_ok _ _ _ _ _ (set_index_ok _ _ _ _ Hc)).
Qed.

(** [__next__] moves the container's counter by one and answers with the
    record at the new position, or with [StopIteration] past the end. *)
Lemma next_run h self c d i :
  live h self c d → NoDup (dict_keys d) → __index c = Some i → -1 ≤ i →
  __next__ self h =
  (match d !! Z.to_nat (i + 1) with
   | Some (k, m) => Ok m
   | None => Raise StopIteration
   end,
   put_attrs h self (with_index c (i + 1))).
Proof.
  intros [Hc Hd] Hnd Hi Hge. unfold __next__.
  rewrite (run_bind_ok _ _ _ _ _ (load_ok _ _ _ Hc)). rewrite Hi.
  rewrite (run_bind_ok _ _ _ _ _ (set_index_ok _ _ _ _ Hc)).
  erewrite run_bind_ok; [|by apply read_dict_ok].
  fold (with_index c (i + 1)). fold (put_attrs h self (with_index c (i + 1))).
  case_decide as Hend.
  - rewrite (proj2 (lookup_ge_None d (Z.to_nat (i + 1)))) by lia. done.
  - destruct (lookup_lt_is_Some_2 d (Z.to_nat (i + 1))) as [[k m] Hp]; [lia|].
    rewrite Hp, run_bind, list_index_run.
    unfold list_getitem. rewrite (proj2 (Z.ltb_ge _ _)) by lia.
    unfold dict_keys. rewrite list_lookup_fmap, Hp. simpl.
    rewrite (dict_getitem_run _ _ d) by done.
    by rewrite (dict_get_at _ _ _ _ Hnd Hp).
Qed.

(** C10: [iter(x)] answers with [x] itself, sets the position counter kept
    among the attributes of [x] to -1, and changes nothing else in the store;
    whatever the counter was, the next [__next__] yields the first record.
    So with two iterators requested from one container, both are the
    container, and after two steps of the first the request of the second
    sends the first back to the start: its third step yields the first
    record again. *)
Theorem iter_shares_one_counter h self c d :
  live h self c d → NoDup (dict_keys d) →
  __iter__ self h = (Ok self, put_attrs h self (with_index c (-1)))
  ∧ index_at (put_attrs h self (with_index c (-1))) self = Some (Some (-1))
  ∧ entries (put_attrs h self (with_index c (-1))) self = Some d
  ∧ (∀ k m, d !! 0%nat = Some (k, m) →
       (__iter__ self ;; __next__ self) h =
       (Ok m, put_attrs h self (with_index c 0)))
  ∧ (∀ k0 m0 k1 m1 rest, d = (k0, m0) :: (k1, m1) :: rest →
       ∃ h',
         (it1 ← __iter__ self;
          first ← __next__ it1;
          second ← __next__ it1;
          it2 ← __iter__ self;
          third ← __next__ it1;
          mret (it1, it2, first, second, third)) h
         = (Ok (self, self, m0, m1, m0), h')).
Proof.
  intros Hl Hnd. pose proof Hl as [Hc Hd].
  assert (Hstart : ∀ h0 c0 k m,
            live h0 self c0 d → d !! 0%nat = Some (k, m) →
            (__iter__ self ;; __next__ self) h0 =
            (Ok m, put_attrs h0 self (with_index c0 0))).
  { intros h0 c0 k m Hl0 Hp.
    rewrite (run_bind_ok _ _ _ _ _ (iter_run _ _ _ (proj1 Hl0))).
    rewrite (next_run _ _ _ d (-1)
               (live_put_attrs _ _ _ _ (with_index c0 (-1)) Hl0 eq_refl) Hnd eq_refl)
      by lia.
    change (Z.to_nat (-1 + 1)) with 0%nat. rewrite Hp.
    unfold put_attrs, with_index. simpl.
    by rewrite list_insert_insert_eq. }
  split; [by apply iter_run|].
  split. { unfold index_at. simpl. by erewrite lookup_insert_same. }
  split.
  { apply (entries_live _ _ (with_index c (-1))).
    by apply (live_put_attrs _ _ c). }
  split; [intros k m Hp; by apply (Hstart h c k m)|].
  intros k0 m0 k1 m1 rest ->.
  pose proof (live_put_attrs _ _ _ _ (with_index c (-1)) Hl eq_refl) as Hl1.
  pose proof (live_put_attrs _ _ _ _
                (with_index (with_index c (-1)) (-1 + 1)) Hl1 eq_refl) as Hl2.
  pose proof (live_put_attrs _ _ _ _
                (with_index (with_index (with_index c (-1)) (-1 + 1)) (0 + 1))
                Hl2 eq_refl) as Hl3.
  eexists.
  rewrite (run_bind_ok _ _ _ _ _ (iter_run _ _ _ Hc)).
  rewrite (run_bind_ok _ _ _ _ _
             (next_run _ _ _ _ (-1) Hl1 Hnd eq_refl ltac:(lia))).
  rewrite (run_bind_ok _ _ _ _ _
             (next_run _ _ _ _ 0 Hl2 Hnd eq_refl ltac:(lia))).
  rewrite (run_bind_ok _ _ _ _ _ (iter_run _ _ _ (proj1 Hl3))).
  pose proof (live_put_attrs _ _ _ _
                (with_index (with_index (with_index (with_index c (-1)) (-1 + 1)) (0 + 1)) (-1))
                Hl3 eq_refl) as Hl4.
  rewrite (run_bind_ok _ _ _ _ _
             (next_run _ _ _ _ (-1) Hl4 Hnd eq_refl ltac:(lia))).
  reflexivity.
Qed.

End Iteration.

(** C10 witness: two iterators over the container of four molecules. *)
Lemma iter_shares_one_counter_witness :
  live shelf 0%nat (Build 0 true true None) four_mols
  ∧ NoDup (dict_keys four_mols)
  ∧ __iter__ 0%nat shelf =
    (Ok 0%nat, Heap [Build 0 true true (Some (-1))] [four_mols])
  ∧ ∃ h',
      (it1 ← __iter__ 0%nat;
       first ← __next__ it1;
       second ← __next__ it1;
       it2 ← __iter__ 0%nat;
       third ← __next__ it1;
       mret (it1, it2, first, second, third)) shelf
      = (Ok (0%nat, 0%nat, benzene, ethanol, benzene), h').
Proof.
  destruct (iter_shares_one_counter shelf 0%nat _ four_mols
              shelf_live four_mols_NoDup) as (Hiter & _ & _ & _ & Hinter).
  split; [exact shelf_live|]. split; [exact four_mols_NoDup|].
  split; [exact Hiter|].
  exact (Hinter _ _ _ _ _ eq_refl).
Defined.

(** * Further properties of the class *)

(** ** Dictionaries: lookups after writes *)

Section DictLookups.
Context {V : Type}.
Implicit Types (d : dict V) (k : string) (v : V).

Lemma dict_get_set_eq k v d : dict_get k (dict_set k v d) = Some v.
Proof.
  induction d as [|[k' v'] d IH]; simpl.
  - by rewrite decide_True.
  - case_decide as Hk; simpl; [by rewrite decide_True|].
    by rewrite decide_False.
Qed.

Lemma dict_get_set_ne k k' v d :
  k' ≠ k → dict_get k' (dict_set k v d) = dict_get k' d.
Proof.
  intros Hne. induction d as [|[k0 v0] d IH]; simpl.
  - by rewrite decide_False.
  - case_decide as Hk; simpl.
    + subst k0. by rewrite !decide_False.
    + case_decide; [done | apply IH].
Qed.

Lemma dict_set_length_present k v d :
  k ∈ dict_keys d → length (dict_set k v d) = length d.
Proof.
  intros Hk. rewrite <- !dict_keys_length. by rewrite dict_set_keys_present.
Qed.

Lemma dict_del_snoc k v d :
  k ∉ dict_keys d → dict_del k (d ++ [(k, v)]) = Some d.
Proof.
  unfold dict_keys. induction d as [|[k' v'] d IH]; simpl.
  - intros _. by rewrite decide_True.
  - intros [Hne Hin]%not_elem_of_cons. rewrite decide_False by done.
    by rewrite IH.
Qed.

Lemma dict_get_filter_ne k k' d :
  k' ≠ k → dict_get k' (filter (λ kv, kv.1 ≠ k) d) = dict_get k' d.
Proof.
  intros Hne. induction d as [|[k0 v0] d IH]; [done|].
  destruct (decide (k0 = k)) as [->|Hk0].
  - rewrite filter_cons_False by (simpl; auto). simpl.
    by rewrite decide_False.
  - rewrite filter_cons_True by (simpl; auto). simpl. by rewrite IH.
Qed.

Lemma filter_length_one_less k d :
  NoDup (dict_keys d) → k ∈ dict_keys d →
  S (length (filter (λ kv, kv.1 ≠ k) d)) = length d.
Proof.
  intros Hnd Hin. apply dict_del_is_Some in Hin as [d' Hd'].
  rewrite <- (dict_del_filter _ _ _ Hnd Hd'). clear Hnd.
  revert d' Hd'. induction d as [|[k' v'] d IH]; simpl; intros d'; [done|].
  case_decide; [by intros [= <-]|].
  intros [d'' [Hd'' ->]]%fmap_Some. simpl. f_equal. auto.
Qed.

End DictLookups.

(** ** Insertion, lookup and removal together *)

Section InsertLookupRemove.
Context {Mol : Type} `{!Canonicalizer Mol}.
Implicit Types (h : heap Mol) (self : loc) (c : umc) (d : dict Mol).

Lemma getitem_str_run h self c d k :
  live h self c d →
  __getitem__ self (KStr k) h =
  (match dict_get k d with Some v => Ok v | None => Raise (KeyError k) end, h).
Proof.
  intros Hl. rewrite (getitem_run _ _ _ _ _ Hl). by destruct (dict_get k d).
Qed.

(** After [add(mol, replace)] the molecule is a member, whatever the answer.
    When the answer is [True] the strict lookup under the molecule's key
    finds that very molecule, every other key leads where it led, and the
    key order is the old one, with the key appended if it was new (a
    replaced record keeps its position).  When the answer is [False] nothing
    has changed and the key still leads to the record held before. *)
Theorem add_then_lookup h self c d mol replace :
  live h self c d →
  ∃ b h' d',
    add self mol replace h = (Ok b, h')
    ∧ entries h' self = Some d'
    ∧ __contains__ self mol h' = (Ok true, h')
    ∧ (b = true →
         __getitem__ self (KStr (mol2smi mol (__chirality c))) h' = (Ok mol, h')
         ∧ sealed_at h' self = Some false
         ∧ (∀ k, k ≠ mol2smi mol (__chirality c) →
              dict_get k d' = dict_get k d)
         ∧ dict_keys d' =
           if decide (mol2smi mol (__chirality c) ∈ dict_keys d) then dict_keys d
           else dict_keys d ++ [mol2smi mol (__chirality c)])
    ∧ (b = false →
         h' = h ∧ replace = false
         ∧ ∃ old, __getitem__ self (KStr (mol2smi mol (__chirality c))) h
                  = (Ok old, h)).
Proof.
  intros Hl. rewrite (add_run _ _ _ _ _ _ Hl).
  set (k := mol2smi mol (__chirality c)).
  destruct (dict_contains k d) eqn:Hk, replace; simpl.
  - (* present, replaced *)
    apply dict_contains_true in Hk.
    pose proof (live_put_sealed _ _ _ _ false (dict_set k mol d) Hl) as Hl1.
    eexists true, _, _. split; [done|].
    split; [by apply (entries_live _ _ _ _ Hl1)|].
    split.
    { rewrite (contains_run _ _ _ _ _ Hl1). simpl __chirality. fold k.
      by rewrite (proj2 (dict_contains_true _ _) (dict_set_contains _ _ _)). }
    split; [|done]. intros _.
    split; [by rewrite (getitem_str_run _ _ _ _ _ Hl1), dict_get_set_eq|].
    split; [by rewrite (sealed_live _ _ _ _ Hl1)|].
    split; [intros k' Hne; by apply dict_get_set_ne|].
    rewrite decide_True by done. by apply dict_set_keys_present.
  - (* present, kept *)
    pose proof Hk as Hin%dict_contains_true.
    exists false, h, d. split; [done|]. split; [by apply (entries_live _ _ c)|].
    split; [by rewrite (contains_run _ _ _ _ _ Hl); fold k; rewrite Hk|].
    split; [done|]. intros _. split; [done|]. split; [done|].
    apply dict_get_is_Some in Hin as [old Hold]. exists old.
    by rewrite (getitem_str_run _ _ _ _ _ Hl), Hold.
  - (* absent: replace does not matter *)
    apply dict_contains_false in Hk.
    pose proof (live_put_sealed _ _ _ _ false (dict_set k mol d) Hl) as Hl1.
    eexists true, _, _. split; [done|].
    split; [by apply (entries_live _ _ _ _ Hl1)|].
    split.
    { rewrite (contains_run _ _ _ _ _ Hl1). simpl __chirality. fold k.
      by rewrite (proj2 (dict_contains_true _ _) (dict_set_contains _ _ _)). }
    split; [|done]. intros _.
    split; [by rewrite (getitem_str_run _ _ _ _ _ Hl1), dict_get_set_eq|].
    split; [by rewrite (sealed_live _ _ _ _ Hl1)|].
    split; [intros k' Hne; by apply dict_get_set_ne|].
    rewrite decide_False by done. by apply dict_set_keys_absent.
  - apply dict_contains_false in Hk.
    pose proof (live_put_sealed _ _ _ _ false (dict_set k mol d) Hl) as Hl1.
    eexists true, _, _. split; [done|].
    split; [by apply (entries_live _ _ _ _ Hl1)|].
    split.
    { rewrite (contains_run _ _ _ _ _ Hl1). simpl __chirality. fold k.
      by rewrite (proj2 (dict_contains_true _ _) (dict_set_contains _ _ _)). }
    split; [|done]. intros _.
    split; [by rewrite (getitem_str_run _ _ _ _ _ Hl1), dict_get_set_eq|].
    split; [by rewrite (sealed_live _ _ _ _ Hl1)|].
    split; [intros k' Hne; by apply dict_get_set_ne|].
    rewrite decide_False by done. by apply dict_set_keys_absent.
Qed.

End InsertLookupRemove.

Section Removal.
Context {Mol : Type} `{!Canonicalizer Mol}.
Implicit Types (h : heap Mol) (self : loc) (c : umc) (d : dict Mol).

(** [remove_smiles] of a key the container holds answers [True], breaks the
    seal and deletes that entry alone: the size drops by one, the other
    entries keep their order and their records, and the strict lookup of the
    removed key raises [KeyError] from then on.  For a key the container does
    not hold it answers [False] and the store is the one before the call.
    [remove_mol] is [remove_smiles] at the molecule's key under the
    container's chirality mode. *)
Theorem remove_smiles_spec h self c d k :
  live h self c d → NoDup (dict_keys d) →
  (k ∈ dict_keys d →
     ∃ h',
       remove_smiles self k h = (Ok true, h')
       ∧ entries h' self = Some (filter (λ kv, kv.1 ≠ k) d)
       ∧ sealed_at h' self = Some false
       ∧ __len__ self h' = (Ok (Z.of_nat (length d) - 1), h')
       ∧ __getitem__ self (KStr k) h' = (Raise (KeyError k), h')
       ∧ ∀ k', k' ≠ k →
           (__getitem__ self (KStr k') h').1 = (__getitem__ self (KStr k') h).1)
  ∧ (k ∉ dict_keys d → remove_smiles self k h = (Ok false, h))
  ∧ (∀ mol, remove_mol self mol h
            = remove_smiles self (mol2smi mol (__chirality c)) h).
Proof.
  intros Hl Hnd. split; [|split].
  - intros Hin. pose proof Hin as [d' Hd']%dict_del_is_Some.
    pose proof (dict_del_filter _ _ _ Hnd Hd') as ->.
    pose proof (live_put_sealed _ _ _ _ false
                  (filter (λ kv : string * Mol, kv.1 ≠ k) d) Hl) as Hl1.
    eexists. split; [by rewrite (remove_smiles_run _ _ _ _ _ Hl), Hd'|].
    split; [by apply (entries_live _ _ _ _ Hl1)|].
    split; [by rewrite (sealed_live _ _ _ _ Hl1)|].
    split.
    { rewrite (len_run _ _ _ _ Hl1). do 2 f_equal.
      pose proof (filter_length_one_less k d Hnd Hin). lia. }
    split.
    { rewrite (getitem_str_run _ _ _ _ _ Hl1).
      assert (dict_get k (filter (λ kv : string * Mol, kv.1 ≠ k) d) = None) as ->;
        [|done].
      apply dict_get_None. rewrite dict_keys_filter.
      intros [? _]%list_elem_of_filter. done. }
    intros k' Hne.
    rewrite (getitem_str_run _ _ _ _ _ Hl1), (getitem_str_run _ _ _ _ _ Hl).
    simpl. by rewrite dict_get_filter_ne.
  - intros Hout%dict_del_None. by rewrite (remove_smiles_run _ _ _ _ _ Hl), Hout.
  - intros mol. rewrite (remove_mol_run _ _ _ _ _ Hl).
    by rewrite (remove_smiles_run _ _ _ _ _ Hl).
Qed.

(** Adding a molecule whose key is new and removing it again gives back the
    entries there were, in their order; only the seal tells that anything
    happened. *)
Theorem add_then_remove_mol h self c d mol :
  live h self c d → mol2smi mol (__chirality c) ∉ dict_keys d →
  ∃ h1 h2,
    add self mol false h = (Ok true, h1)
    ∧ remove_mol self mol h1 = (Ok true, h2)
    ∧ entries h2 self = Some d
    ∧ sealed_at h2 self = Some false
    ∧ chirality_at h2 self = Some (__chirality c).
Proof.
  intros Hl Habs. pose proof Habs as Hf%dict_contains_false.
  set (k := mol2smi mol (__chirality c)) in *.
  pose proof (live_put_sealed _ _ _ _ false (dict_set k mol d) Hl) as Hl1.
  pose proof (live_put_sealed _ _ _ _ false d Hl1) as Hl2.
  eexists _, _. split; [by rewrite (add_run _ _ _ _ _ _ Hl); fold k; rewrite Hf|].
  split.
  { rewrite (remove_mol_run _ _ _ _ _ Hl1). simpl __chirality. fold k.
    assert (dict_del k (dict_set k mol d) = Some d) as ->; [|done].
    rewrite dict_set_absent by done. by apply dict_del_snoc. }
  split; [by apply (entries_live _ _ _ _ Hl2)|].
  split; [by rewrite (sealed_live _ _ _ _ Hl2)|].
  unfold chirality_at. by rewrite (proj1 Hl2).
Qed.

(** Two molecules with one key under the container's chirality mode are one
    member.  After the first is added, adding the second without [replace]
    answers [False] and keeps the first as the record; with [replace] it
    answers [True] and the second takes the place of the first, the keys and
    the size staying as they were.  Either way the second is a member. *)
Theorem one_record_per_key h self c d m1 m2 :
  live h self c d →
  mol2smi m1 (__chirality c) = mol2smi m2 (__chirality c) →
  mol2smi m1 (__chirality c) ∉ dict_keys d →
  ∃ h1 h2,
    add self m1 false h = (Ok true, h1)
    ∧ add self m2 false h1 = (Ok false, h1)
    ∧ __contains__ self m2 h1 = (Ok true, h1)
    ∧ __getitem__ self (KStr (mol2smi m2 (__chirality c))) h1 = (Ok m1, h1)
    ∧ add self m2 true h1 = (Ok true, h2)
    ∧ __getitem__ self (KStr (mol2smi m2 (__chirality c))) h2 = (Ok m2, h2)
    ∧ keys self h2 = (Ok (dict_keys d ++ [mol2smi m1 (__chirality c)]), h2)
    ∧ keys self h1 = (Ok (dict_keys d ++ [mol2smi m1 (__chirality c)]), h1).
Proof.
  intros Hl Hsame Habs. pose proof Habs as Hf%dict_contains_false.
  set (k := mol2smi m1 (__chirality c)) in *.
  pose proof (live_put_sealed _ _ _ _ false (dict_set k m1 d) Hl) as Hl1.
  pose proof (live_put_sealed _ _ _ _ false
                (dict_set k m2 (dict_set k m1 d)) Hl1) as Hl2.
  assert (Hin : dict_contains k (dict_set k m1 d) = true)
    by apply dict_contains_true, dict_set_contains.
  eexists _, _. split; [by rewrite (add_run _ _ _ _ _ _ Hl); fold k; rewrite Hf|].
  split.
  { rewrite (add_run _ _ _ _ _ _ Hl1). simpl __chirality.
    by rewrite <- Hsame, Hin. }
  split.
  { rewrite (contains_run _ _ _ _ _ Hl1). simpl __chirality.
    by rewrite <- Hsame, Hin. }
  split.
  { rewrite <- Hsame, (getitem_str_run _ _ _ _ _ Hl1). fold k.
    by rewrite dict_get_set_eq. }
  split.
  { rewrite (add_run _ _ _ _ _ _ Hl1). simpl __chirality.
    rewrite <- Hsame, Hin. reflexivity. }
  split.
  { rewrite <- Hsame, (getitem_str_run _ _ _ _ _ Hl2). fold k.
    by rewrite dict_get_set_eq. }
  split.
  { rewrite (keys_run _ _ _ _ Hl2).
    rewrite dict_set_keys_present by apply dict_set_contains.
    by rewrite dict_set_keys_absent. }
  rewrite (keys_run _ _ _ _ Hl1). by rewrite dict_set_keys_absent.
Qed.

(** The membership test, the strict lookup and [get] agree: a molecule is a
    member exactly when the lookup under its key succeeds, and exactly then
    [get] does not answer with the default (it answers [None]). *)
Theorem membership_agrees_with_lookup h self c d mol default :
  live h self c d →
  let k := mol2smi mol (__chirality c) in
  (k ∈ dict_keys d →
     __contains__ self mol h = (Ok true, h)
     ∧ (∃ m, __getitem__ self (KStr k) h = (Ok m, h))
     ∧ get self (KStr k) default h = (Ok PyNone, h))
  ∧ (k ∉ dict_keys d →
     __contains__ self mol h = (Ok false, h)
     ∧ __getitem__ self (KStr k) h = (Raise (KeyError k), h)
     ∧ get self (KStr k) default h = (Ok default, h)).
Proof.
  intros Hl k. subst k. split.
  - intros Hin. pose proof Hin as [m Hm]%dict_get_is_Some.
    split; [by rewrite (contains_run _ _ _ _ _ Hl);
            rewrite (proj2 (dict_contains_true _ _) Hin)|].
    split; [exists m; by rewrite (getitem_str_run _ _ _ _ _ Hl), Hm|].
    by apply (get_present _ _ c d _ m).
  - intros Hout. pose proof Hout as Hn%dict_get_None.
    split; [by rewrite (contains_run _ _ _ _ _ Hl);
            rewrite (proj2 (dict_contains_false _ _) Hout)|].
    split; [by rewrite (getitem_str_run _ _ _ _ _ Hl), Hn|].
    by apply (get_absent _ _ c d).
Qed.

End Removal.

(** ** [clear] *)

Section Clear.
Context {Mol : Type} `{!Canonicalizer Mol}.
Implicit Types (h : heap Mol) (self : loc) (c : umc) (d : dict Mol).

Lemma clear_run h self c d :
  live h self c d →
  clear self h =
  (Ok (),
   Heap (<[self := Build (length (dicts h))
                     (bool_decide (Z.of_nat (length d) = 0))
                     (__chirality c) (__index c)]> (conts h))
        (dicts h ++ [[]])).
Proof.
  intros [Hc Hd]. unfold clear.
  rewrite (run_bind_ok _ _ _ _ _ (load_ok _ _ _ Hc)).
  rewrite (run_bind_ok _ _ _ _ _ (read_dict_ok _ _ _ Hd)).
  rewrite (run_bind_ok _ _ _ _ _ (set_sealed_ok _ _ _ _ Hc)).
  rewrite run_bind. unfold new_dict at 1. cbv beta iota. simpl conts. simpl dicts.
  erewrite set_data_ok; [|simpl; by eapply lookup_insert_same].
  simpl. by rewrite list_insert_insert_eq.
Qed.

(** [clear] leaves the container empty, on a dictionary of its own, and
    assigns the seal: [True] when the container was empty already, [False]
    when it held anything.  So clearing an empty container seals it even if
    its seal was broken, and clearing a sealed container that holds a record
    breaks the seal.  The chirality mode stays, and so does every other
    container. *)
Theorem clear_spec h self c d :
  live h self c d →
  ∃ h',
    clear self h = (Ok (), h')
    ∧ entries h' self = Some []
    ∧ __len__ self h' = (Ok 0, h')
    ∧ sealed_at h' self = Some (bool_decide (d = []))
    ∧ chirality_at h' self = Some (__chirality c)
    ∧ ∀ l cl dl, l ≠ self → live h l cl dl → live h' l cl dl.
Proof.
  intros Hl. pose proof Hl as [Hc Hd].
  eexists. split; [by apply (clear_run _ _ _ _ Hl)|].
  set (c' := Build (length (dicts h)) (bool_decide (Z.of_nat (length d) = 0))
               (__chirality c) (__index c)).
  assert (Hl' : live (Heap (<[self := c']> (conts h)) (dicts h ++ [[]])) self c' []).
  { split; simpl; [by eapply lookup_insert_same | by apply list_lookup_middle]. }
  split; [by apply (entries_live _ _ _ _ Hl')|].
  split; [by rewrite (len_run _ _ _ _ Hl')|].
  split.
  { rewrite (sealed_live _ _ _ _ Hl'). simpl. f_equal.
    apply bool_decide_ext. destruct d; simpl; split; (done || lia). }
  split; [unfold chirality_at; by rewrite (proj1 Hl')|].
  intros l cl dl Hne [Hcl Hdl]. split; simpl.
  - by rewrite list_lookup_insert_ne.
  - by apply lookup_app_l_Some.
Qed.

End Clear.

(** Witness: clearing the container of four molecules, which is sealed. *)
Lemma clear_spec_witness :
  live shelf 0%nat (Build 0 true true None) four_mols
  ∧ ∃ h', clear 0%nat shelf = (Ok (), h')
          ∧ entries h' 0%nat = Some []
          ∧ sealed_at h' 0%nat = Some false.
Proof.
  split; [exact shelf_live|].
  destruct (clear_spec shelf 0%nat _ _ shelf_live)
    as (h' & Hrun & He & _ & Hs & _).
  exists h'. split; [exact Hrun|]. split; [exact He | exact Hs].
Defined.

(** ** In-place union, and the entries of a union *)

Section InPlaceUnion.
Context {Mol : Type} `{!Canonicalizer Mol}.
Implicit Types (h : heap Mol) (self other : loc) (c : umc) (d : dict Mol).

(** The loop of [__iadd__], from a store in which [self] has had its seal
    broken by an earlier round or not, and holds [acc]. *)
Lemma iadd_loop_run h self c d items : ∀ (broken : bool) (acc : dict Mol),
  live h self c d →
  for_each items (λ '(k, v),
    c ← load self;
    d ← read_dict (__data c);
    if negb (dict_contains k d) then
      set_sealed self false ;;
      dict_setitem (__data c) k v
    else mret ())
    (Heap (if broken then <[self := with_sealed c false]> (conts h) else conts h)
          (<[__data c := acc]> (dicts h)))
  = (Ok (),
     Heap (if (foldl merge_step (broken, acc) items).1
           then <[self := with_sealed c false]> (conts h) else conts h)
          (<[__data c := (foldl merge_step (broken, acc) items).2]> (dicts h))).
Proof.
  intros broken acc [Hc Hd]. revert broken acc.
  induction items as [|[k v] items IH]; intros broken acc; [done|].
  cbn [for_each foldl].
  set (cs := if broken then <[self := with_sealed c false]> (conts h) else conts h).
  assert (Hself : ∃ ck, cs !! self = Some ck ∧ __data ck = __data c
                        ∧ with_sealed ck false = with_sealed c false).
  { unfold cs. destruct broken.
    - exists (with_sealed c false). split; [by eapply lookup_insert_same | done].
    - by exists c. }
  destruct Hself as (ck & Hck & Hdk & Hckc).
  rewrite run_bind, run_bind.
  erewrite load_ok; [|exact Hck]. cbv beta iota.
  erewrite run_bind_ok; cycle 1.
  { apply read_dict_ok. simpl. rewrite Hdk. by eapply lookup_insert_same. }
  assert (Hstep : merge_step (broken, acc) (k, v) =
                  if dict_contains k acc then (broken, acc)
                  else (true, dict_set k v acc)) by done.
  rewrite Hstep. clear Hstep.
  destruct (dict_contains k acc) eqn:Hk; cbn [negb].
  - rewrite run_ret. apply IH.
  - erewrite run_bind_ok; cycle 1.
    { apply set_sealed_ok. simpl. exact Hck. }
    erewrite dict_setitem_run; cycle 1.
    { simpl. rewrite Hdk. by eapply lookup_insert_same. }
    simpl conts. simpl dicts.
    etrans; [|exact (IH true (dict_set k v acc))]. f_equal. f_equal.
    + fold (with_sealed ck false). rewrite Hckc.
      unfold cs. destruct broken; [by rewrite list_insert_insert_eq | done].
    + by rewrite Hdk, list_insert_insert_eq.
Qed.

Lemma iadd_run h self other c d oc od :
  live h self c d → live h other oc od →
  __iadd__ self other h =
  (Ok self,
   Heap (if (merge d od).1 then <[self := with_sealed c false]> (conts h)
         else conts h)
        (<[__data c := (merge d od).2]> (dicts h))).
Proof.
  intros Hl [Hoc Hod]. pose proof Hl as [Hc Hd]. unfold __iadd__.
  rewrite (run_bind_ok _ _ _ _ _ (load_ok _ _ _ Hoc)).
  rewrite (run_bind_ok _ _ _ _ _ (read_dict_ok _ _ _ Hod)).
  pose proof (iadd_loop_run h self c d od false d Hl) as Hloop.
  rewrite (list_insert_id _ _ _ Hd) in Hloop.
  destruct h as [cs ds]. simpl in *.
  by rewrite (run_bind_ok _ _ _ _ _ Hloop).
Qed.

(** Keys the dictionary holds already change nothing. *)
Lemma merge_fold_id items : ∀ (b : bool) (acc : dict Mol),
  Forall (λ kv, kv.1 ∈ dict_keys acc) items →
  foldl merge_step (b, acc) items = (b, acc).
Proof.
  induction items as [|[k v] items IH]; intros b acc Hall; [done|].
  apply Forall_cons in Hall as [Hk Hall]. cbn [foldl].
  unfold merge_step at 2. simpl fst. simpl snd. simpl in Hk.
  rewrite (proj2 (dict_contains_true _ _) Hk). by apply IH.
Qed.

(** The merged dictionary: the entries there were, then the items under new
    keys, in their order. *)
Lemma merge_fold_entries items : ∀ (b : bool) (acc : dict Mol),
  NoDup (dict_keys items) →
  (foldl merge_step (b, acc) items).2
  = acc ++ filter (λ kv, kv.1 ∉ dict_keys acc) items.
Proof.
  induction items as [|[k v] items IH]; intros b acc Hnd.
  - simpl. by rewrite app_nil_r.
  - unfold dict_keys in Hnd. rewrite fmap_cons in Hnd.
    apply NoDup_cons in Hnd as [Hk Hnd]. cbn [foldl].
    unfold merge_step at 2. simpl fst. simpl snd.
    destruct (dict_contains k acc) eqn:Hc.
    + apply dict_contains_true in Hc.
      rewrite filter_cons_False by (simpl; auto). by apply IH.
    + apply dict_contains_false in Hc.
      rewrite filter_cons_True by (simpl; auto).
      rewrite IH by done. rewrite dict_set_absent by done.
      rewrite <- app_assoc. simpl. do 2 f_equal.
      apply filter_ext_in. intros [k' v'] Hin. simpl.
      unfold dict_keys. rewrite fmap_app, elem_of_app. simpl.
      rewrite list_elem_of_singleton. split; [tauto|].
      intros Hn [?| ->]; [done|]. apply Hk.
      apply list_elem_of_fmap. by exists (k, v').
Qed.

(** [self += other] answers with [self] and allocates nothing.  Afterwards
    [self] holds a key exactly when [self] or [other] held it, its seal is
    broken as soon as [other] brought one new key and is untouched
    otherwise, and [other] holds what it held.  Adding a container to itself
    changes nothing at all. *)
Theorem iadd_spec h self other c d oc od :
  live h self c d → live h other oc od →
  ∃ h' d',
    __iadd__ self other h = (Ok self, h')
    ∧ length (conts h') = length (conts h)
    ∧ length (dicts h') = length (dicts h)
    ∧ entries h' self = Some d'
    ∧ (∀ k, k ∈ dict_keys d' ↔ k ∈ dict_keys d ∨ k ∈ dict_keys od)
    ∧ sealed_at h' self =
      Some (if decide (Forall (λ k, k ∈ dict_keys d) (dict_keys od))
            then sealed c else false)
    ∧ chirality_at h' self = Some (__chirality c)
    ∧ entries h' other = Some od
    ∧ __iadd__ self self h = (Ok self, h).
Proof.
  intros Hl Hlo. pose proof Hl as [Hc Hd]. pose proof Hlo as [Hoc Hod].
  eexists _, _. split; [exact (iadd_run _ _ _ _ _ _ _ Hl Hlo)|].
  set (cs := if (merge d od).1 then <[self := with_sealed c false]> (conts h)
             else conts h).
  assert (Hcs : cs !! self =
    Some (if (merge d od).1 then with_sealed c false else c)).
  { unfold cs. destruct (merge d od).1; [by eapply lookup_insert_same | done]. }
  split. { simpl. unfold cs. destruct (merge d od).1; [apply length_insert | done]. }
  split; [simpl; apply length_insert|].
  split.
  { unfold entries. simpl. rewrite Hcs.
    destruct (merge d od).1; simpl; by eapply lookup_insert_same. }
  split; [intros k; apply merge_fold_keys|].
  pose proof (merge_fold_broken od false d) as Hb. fold (merge d od) in Hb.
  split.
  { unfold sealed_at. simpl. rewrite Hcs. case_decide as Hall.
    - destruct (merge d od).1; [|done].
      destruct Hb as [Hb _]. destruct (Hb eq_refl) as [?|(k & Hin & Hout)]; [done|].
      rewrite Forall_forall in Hall. by specialize (Hall k Hin).
    - assert ((merge d od).1 = true) as ->; [|done].
      apply Hb. right. apply not_Forall_Exists in Hall; [|apply _].
      apply Exists_exists in Hall as (k & Hin & Hout). by exists k. }
  split. { unfold chirality_at. simpl. rewrite Hcs. by destruct (merge d od).1. }
  split.
  { assert (∃ oc', cs !! other = Some oc' ∧ __data oc' = __data oc)
      as (oc' & Hoc' & Hdoc').
    { unfold cs. destruct (merge d od).1; [|by exists oc].
      destruct (decide (self = other)) as [->|Hso].
      - exists (with_sealed c false). split; [by eapply lookup_insert_same|].
        simpl. congruence.
      - exists oc. by rewrite list_lookup_insert_ne. }
    unfold entries. simpl. rewrite Hoc', Hdoc'.
    destruct (decide (__data oc = __data c)) as [Heq|Hne].
    - assert (od = d) as -> by (rewrite Heq in Hod; congruence).
      unfold merge. rewrite merge_fold_id; cycle 1.
      { apply Forall_forall. intros [k v] Hin. simpl.
        apply list_elem_of_fmap. by exists (k, v). }
      rewrite Heq. by eapply lookup_insert_same.
    - by rewrite list_lookup_insert_ne. }
  rewrite (iadd_run _ _ _ _ _ _ _ Hl Hl). unfold merge.
  rewrite merge_fold_id; cycle 1.
  { apply Forall_forall. intros [k v] Hin. simpl.
    apply list_elem_of_fmap. by exists (k, v). }
  simpl. rewrite (list_insert_id _ _ _ Hd). by destruct h.
Qed.

(** [a + b] and [a += b] build the same entries: those of [a] in their
    order, followed by those of [b] whose keys [a] lacks, in the order of
    [b].  The size of the union is the size of [a] plus the number of keys new
    to it. *)
Theorem union_entries h self other c d oc od :
  live h self c d → live h other oc od → NoDup (dict_keys od) →
  ∃ new h1 h2,
    __add__ self other h = (Ok new, h1)
    ∧ entries h1 new = Some (d ++ filter (λ kv, kv.1 ∉ dict_keys d) od)
    ∧ __iadd__ self other h = (Ok self, h2)
    ∧ entries h2 self = Some (d ++ filter (λ kv, kv.1 ∉ dict_keys d) od)
    ∧ __len__ new h1 =
      (Ok (Z.of_nat (length d)
           + Z.of_nat (length (filter (λ kv, kv.1 ∉ dict_keys d) od))), h1).
Proof.
  intros Hl Hlo Hnd. pose proof Hl as [Hc Hd].
  pose proof (merge_fold_entries od false d Hnd) as Hm. fold (merge d od) in Hm.
  eexists _, _, _. split; [exact (add_operator_run _ _ _ _ _ _ _ Hl Hlo)|].
  set (cs := if (merge d od).1 then <[self := with_sealed c false]> (conts h)
             else conts h).
  assert (Hlen : length cs = length (conts h)).
  { unfold cs. destruct (merge d od).1; [apply length_insert | done]. }
  assert (Hnew : live (Heap (cs ++ [Build (S (length (dicts h))) true true None])
                            (dicts h ++ [[]; (merge d od).2]))
                   (length (conts h)) (Build (S (length (dicts h))) true true None)
                   (d ++ filter (λ kv, kv.1 ∉ dict_keys d) od)).
  { split; simpl.
    - rewrite <- Hlen. apply list_lookup_middle. reflexivity.
    - rewrite lookup_app_r by lia.
      replace (S (length (dicts h)) - length (dicts h))%nat with 1%nat by lia.
      simpl. by rewrite Hm. }
  split; [by apply (entries_live _ _ _ _ Hnew)|].
  split; [exact (iadd_run _ _ _ _ _ _ _ Hl Hlo)|].
  split.
  { unfold entries. simpl. fold cs.
    assert (∃ ck, cs !! self = Some ck ∧ __data ck = __data c) as (ck & -> & ->).
    { unfold cs. destruct (merge d od).1; [|by exists c].
      exists (with_sealed c false). split; [by eapply lookup_insert_same | done]. }
    rewrite Hm. by eapply lookup_insert_same. }
  rewrite (len_run _ _ _ _ Hnew), length_app. do 2 f_equal. lia.
Qed.

End InPlaceUnion.

(** ** Construction from a sequence: order *)

Section SequenceOrder.
Context {Mol : Type} `{!Canonicalizer Mol}.
Implicit Types (h : heap Mol) (self : loc) (c : umc) (d : dict Mol).

(** Entries whose keys are their records' SMILES and are new to [acc], each
    once, are appended as they come. *)
Lemma foldl_insert_new_canonical chirality (es : dict Mol) : ∀ acc,
  canonical chirality es → NoDup (dict_keys (acc ++ es)) →
  foldl (insert_new chirality) acc es.*2 = acc ++ es.
Proof.
  induction es as [|[k m] es IH]; intros acc Hcan Hnd.
  - simpl. by rewrite app_nil_r.
  - apply Forall_cons in Hcan as [Hk Hcan]. simpl in Hk. subst k.
    rewrite fmap_cons. cbn [foldl]. simpl snd.
    assert (Habs : mol2smi m chirality ∉ dict_keys acc).
    { unfold dict_keys in Hnd. rewrite fmap_app in Hnd.
      apply NoDup_app in Hnd as (_ & Hdisj & _).
      intros Hin. apply (Hdisj _ Hin). rewrite fmap_cons. left. }
    unfold insert_new at 2.
    rewrite (proj2 (dict_contains_false _ _) Habs), dict_set_absent by done.
    rewrite IH; [by rewrite <- app_assoc | done |].
    by rewrite <- app_assoc.
Qed.

Lemma init_round_exact h self c d m :
  live h self c d →
  ∃ h',
    (add self m false ;; set_sealed self false) h = (Ok (), h')
    ∧ live h' self (with_sealed c false) (insert_new (__chirality c) d m)
    ∧ length (conts h') = length (conts h)
    ∧ length (dicts h') = length (dicts h).
Proof.
  intros Hl. rewrite run_bind, (add_run _ _ _ _ _ _ Hl). simpl negb.
  rewrite andb_true_r. unfold insert_new.
  destruct (dict_contains (mol2smi m (__chirality c)) d) eqn:Hk.
  - rewrite (set_sealed_ok _ _ _ _ (proj1 Hl)).
    eexists. split; [done|].
    split; [by apply (live_put_conts _ _ c d (with_sealed c false))|].
    simpl. by rewrite length_insert.
  - pose proof (live_put_sealed _ _ _ _ false
                  (dict_set (mol2smi m (__chirality c)) m d) Hl) as Hl1.
    rewrite (set_sealed_ok _ _ _ _ (proj1 Hl1)).
    eexists. split; [done|]. split.
    { apply (live_put_conts _ _ _ _ (with_sealed c false) Hl1 eq_refl). }
    simpl. by rewrite !length_insert.
Qed.

Lemma init_loop_exact mols : ∀ h self c d,
  live h self c d →
  ∃ h',
    for_each mols (λ m, add self m false ;; set_sealed self false) h = (Ok (), h')
    ∧ live h' self (if mols is [] then c else with_sealed c false)
        (foldl (insert_new (__chirality c)) d mols)
    ∧ length (conts h') = length (conts h)
    ∧ length (dicts h') = length (dicts h).
Proof.
  induction mols as [|m mols IH]; intros h self c d Hl; [by exists h|].
  cbn [for_each foldl]. rewrite run_bind.
  destruct (init_round_exact _ _ _ _ m Hl) as (h1 & Hrun & Hl1 & Hlc & Hld).
  rewrite Hrun.
  destruct (IH _ _ _ _ Hl1) as (h' & Hr & Hl' & Hlc' & Hld').
  exists h'. split; [done|]. split; [by destruct mols|]. split; congruence.
Qed.

(** A list or tuple of molecules with distinct keys gives a container that
    holds them in the order of the sequence: [keys()] lists their keys in
    that order and the size is the length of the sequence.  The seal is the
    [sealed] argument only for the empty sequence; one molecule is enough to
    leave the new container unsealed, whatever the argument. *)
Theorem init_from_distinct_sequence (h0 : heap Mol) mols sealed0 ignore_chirality :
  NoDup ((λ m, mol2smi m (negb ignore_chirality)) <$> mols) →
  ∃ x h',
    __init__ (ArgSeq mols) sealed0 ignore_chirality h0 = (Ok x, h')
    ∧ entries h' x
      = Some ((λ m, (mol2smi m (negb ignore_chirality), m)) <$> mols)
    ∧ keys x h'
      = (Ok ((λ m, mol2smi m (negb ignore_chirality)) <$> mols), h')
    ∧ __len__ x h' = (Ok (Z.of_nat (length mols)), h')
    ∧ sealed_at h' x = Some (if mols is [] then sealed0 else false)
    ∧ chirality_at h' x = Some (negb ignore_chirality).
Proof.
  intros Hnd.
  pose proof (init_empty_live h0 sealed0 ignore_chirality) as Hl.
  destruct (init_loop_exact mols _ _ _ _ Hl) as (h' & Hr & Hl' & _ & _).
  simpl __chirality in Hl'.
  set (es := (λ m, (mol2smi m (negb ignore_chirality), m)) <$> mols) in *.
  assert (Hes2 : es.*2 = mols).
  { unfold es. rewrite <- list_fmap_compose. apply list_fmap_id. }
  assert (Hes1 : dict_keys es = (λ m, mol2smi m (negb ignore_chirality)) <$> mols).
  { unfold es, dict_keys. by rewrite <- list_fmap_compose. }
  assert (Hfold : foldl (insert_new (negb ignore_chirality)) [] mols = es).
  { rewrite <- Hes2 at 1.
    rewrite (foldl_insert_new_canonical (negb ignore_chirality) es []); [done| |].
    - unfold es. apply Forall_fmap, Forall_forall. by intros m _.
    - simpl. by rewrite Hes1. }
  rewrite Hfold in Hl'.
  exists (length (conts h0)), h'. split.
  { unfold __init__. rewrite run_bind. unfold new_dict at 1. cbv beta iota.
    rewrite run_bind. unfold new_object at 1. cbv beta iota.
    simpl conts. simpl dicts. by rewrite run_bind, Hr. }
  split; [by apply (entries_live _ _ _ _ Hl')|].
  split; [by rewrite (keys_run _ _ _ _ Hl'), Hes1|].
  split.
  { rewrite (len_run _ _ _ _ Hl'). unfold es. by rewrite length_fmap. }
  split; [rewrite (sealed_live _ _ _ _ Hl'); by destruct mols|].
  unfold chirality_at. rewrite (proj1 Hl'). by destruct mols.
Qed.

End SequenceOrder.

(** Witness: three molecules with three keys, and [sealed=True]. *)
Lemma init_from_distinct_sequence_witness :
  NoDup ((λ m, mol2smi m (negb false)) <$> [benzene; ethanol; pyridine])
  ∧ ∃ x h',
      __init__ (ArgSeq [benzene; ethanol; pyridine]) true false
        (empty_heap (Mol := toy_mol)) = (Ok x, h')
      ∧ keys x h' = (Ok ["c1ccccc1"; "CCO"; "c1ccncc1"], h')
      ∧ sealed_at h' x = Some false.
Proof.
  assert (Hnd : NoDup ((λ m, mol2smi m (negb false))
                         <$> [benzene; ethanol; pyridine])).
  { apply (bool_decide_unpack _). by vm_compute. }
  split; [exact Hnd|].
  destruct (init_from_distinct_sequence empty_heap [benzene; ethanol; pyridine]
              true false Hnd) as (x & h' & Hrun & _ & Hkeys & _ & Hs & _).
  exists x, h'. split; [exact Hrun|]. split; [exact Hkeys | exact Hs].
Defined.

(** ** Intersection and difference *)

Section Selection.
Context {Mol : Type} `{!Canonicalizer Mol}.
Implicit Types (h : heap Mol) (self other : loc) (c : umc) (d : dict Mol).

Lemma for_each_ext {A} (xs : list A) (f g : A → M Mol unit) h :
  (∀ x h', f x h' = g x h') → for_each xs f h = for_each xs g h.
Proof.
  intros Hext. revert h. induction xs as [|x xs IH]; intros h; [done|].
  cbn [for_each]. rewrite !run_bind, Hext.
  destruct (g x h) as [[[]|e|] h']; [apply IH | done | done].
Qed.

Lemma filter_fmap_snd (P : Mol → Prop) `{!∀ m, Decision (P m)} (d : dict Mol) :
  filter P d.*2 = (filter (λ kv, P kv.2) d).*2.
Proof.
  induction d as [|[k m] d IH]; [done|].
  rewrite fmap_cons. simpl snd. destruct (decide (P m)).
  - rewrite !filter_cons_True by done. rewrite fmap_cons. by rewrite IH.
  - by rewrite !filter_cons_False by done.
Qed.

(** The loop shared by [&] and [-]: the molecules that pass the test
    [keep (mol in other)] are added to the container constructed last. *)
Lemma select_loop_run h other oc od (keep : bool → bool) mols :
  ∀ (s : bool) (acc : dict Mol),
  live h other oc od →
  for_each mols (λ mol,
    member ← __contains__ other mol;
    if keep member then add (length (conts h)) mol false ;; mret ()
    else mret ())
    (Heap (conts h ++ [Build (length (dicts h)) s true None]) (dicts h ++ [acc]))
  = (Ok (),
     let ms := filter (λ m, keep (dict_contains (mol2smi m (__chirality oc)) od))
                 mols in
     Heap (conts h ++ [Build (length (dicts h))
                         (if decide (length (foldl (insert_new true) acc ms)
                                     = length acc)
                          then s else false) true None])
          (dicts h ++ [foldl (insert_new true) acc ms])).
Proof.
  intros s acc Hlo. revert s acc.
  assert (Hgrow : ∀ ms (acc0 : dict Mol),
            (length acc0 ≤ length (foldl (insert_new true) acc0 ms))%nat).
  { induction ms as [|m ms IHm]; intros acc0; [done|]. cbn [foldl].
    etrans; [|apply IHm]. unfold insert_new.
    destruct (dict_contains _ acc0) eqn:E; [done|].
    apply dict_contains_false in E. rewrite dict_set_absent by done.
    rewrite length_app. lia. }
  induction mols as [|m mols IH]; intros s acc.
  { simpl. by rewrite decide_True. }
  cbn [for_each]. rewrite run_bind, run_bind.
  erewrite contains_run; cycle 1.
  { destruct Hlo as [Hoc Hod]. split; simpl; by apply lookup_app_l_Some. }
  cbv beta iota zeta.
  destruct (keep (dict_contains (mol2smi m (__chirality oc)) od)) eqn:Hkeep.
  - rewrite filter_cons_True by (by rewrite Hkeep).
    cbn [foldl]. rewrite run_bind.
    erewrite add_run; cycle 1.
    { split; simpl; by apply list_lookup_middle. }
    simpl __chirality. simpl negb. rewrite andb_true_r.
    destruct (dict_contains (mol2smi m true) acc) eqn:Hin.
    + assert (insert_new true acc m = acc) as ->
        by (unfold insert_new; by rewrite Hin).
      rewrite run_ret. apply IH.
    + assert (insert_new true acc m = dict_set (mol2smi m true) m acc) as ->
        by (unfold insert_new; by rewrite Hin).
      rewrite run_ret. unfold put, with_sealed. simpl.
      rewrite !insert_app_r_alt by lia. rewrite !Nat.sub_diag. simpl.
      rewrite (IH false (dict_set (mol2smi m true) m acc)). cbv zeta.
      do 4 f_equal. f_equal.
      rewrite (decide_False (P := length _ = length acc)); [by destruct (decide _)|].
      intros Heq. apply dict_contains_false in Hin.
      pose proof (Hgrow (filter (λ m0, keep (dict_contains
                    (mol2smi m0 (__chirality oc)) od)) mols)
                    (dict_set (mol2smi m true) m acc)) as Hle.
      rewrite Heq, dict_set_absent, length_app in Hle by done. simpl in Hle. lia.
  - rewrite filter_cons_False by (rewrite Hkeep; by intros []).
    rewrite run_ret. apply IH.
Qed.

(** The store both operators leave, and the container they return. *)
Lemma select_run h self other c d oc od (keep : bool → bool)
    (op : loc → loc → M Mol loc) :
  live h self c d → live h other oc od →
  (∀ h1, op self other h1 =
     (new ← __init__ ArgNone true false;
      c ← load self;
      d ← read_dict (__data c);
      for_each d.*2 (λ mol,
        member ← __contains__ other mol;
        if keep member then add new mol false ;; mret ()
        else mret ()) ;;
      mret new : M Mol loc) h1) →
  let ms := filter (λ m, keep (dict_contains (mol2smi m (__chirality oc)) od))
              d.*2 in
  op self other h =
  (Ok (length (conts h)),
   Heap (conts h ++ [Build (length (dicts h))
                       (if decide (length (foldl (insert_new true) [] ms)
                                   = 0%nat)
                        then true else false) true None])
        (dicts h ++ [foldl (insert_new true) [] ms])).
Proof.
  intros Hl Hlo Hop ms. pose proof Hl as [Hc Hd]. rewrite Hop.
  rewrite (run_bind_ok _ _ _ _ _ (init_empty_run h true false)).
  erewrite run_bind_ok; [|apply load_ok; simpl; by apply lookup_app_l_Some].
  erewrite run_bind_ok; [|apply read_dict_ok; simpl; by apply lookup_app_l_Some].
  simpl negb.
  by rewrite (run_bind_ok _ _ _ _ _ (select_loop_run h other oc od keep d.*2 true [] Hlo)).
Qed.

Lemma and_unfold self other (h1 : heap Mol) :
  __and__ self other h1 =
  (new ← __init__ ArgNone true false;
   c ← load self;
   d ← read_dict (__data c);
   for_each d.*2 (λ mol,
     member ← __contains__ other mol;
     if @id bool member then add new mol false ;; mret ()
     else mret ()) ;;
   mret new : M Mol loc) h1.
Proof.
  unfold __and__. rewrite !run_bind.
  destruct (__init__ ArgNone true false h1) as [[new|e|] h2]; [|done|done].
  rewrite !run_bind. destruct (load self h2) as [[c|e|] h3]; [|done|done].
  rewrite !run_bind. destruct (read_dict (__data c) h3) as [[d|e|] h4]; [|done|done].
  rewrite !run_bind. erewrite for_each_ext; [reflexivity|].
  intros mol h'. rewrite !run_bind.
  by destruct (__contains__ other mol h') as [[[]|e|] h5].
Qed.

Lemma sub_unfold self other (h1 : heap Mol) :
  __sub__ self other h1 =
  (new ← __init__ ArgNone true false;
   c ← load self;
   d ← read_dict (__data c);
   for_each d.*2 (λ mol,
     member ← __contains__ other mol;
     if negb member then add new mol false ;; mret ()
     else mret ()) ;;
   mret new : M Mol loc) h1.
Proof. reflexivity. Qed.

(** The selected entries of a dictionary whose keys are its records' SMILES
    with chirality are inserted as they are. *)
Lemma select_canonical (P : Mol → Prop) `{!∀ m, Decision (P m)} (d : dict Mol) :
  canonical true d → NoDup (dict_keys d) →
  foldl (insert_new true) [] (filter P d.*2) = filter (λ kv, P kv.2) d.
Proof.
  intros Hcan Hnd. rewrite filter_fmap_snd.
  rewrite (foldl_insert_new_canonical true _ []); [done| |].
  - unfold canonical in *. rewrite Forall_forall in Hcan.
    apply Forall_forall. intros kv [_ Hin]%list_elem_of_filter. by apply Hcan.
  - simpl. unfold dict_keys. apply (NoDup_fmap_2_strong fst).
    + intros [k1 m1] [k2 m2] [_ H1]%list_elem_of_filter [_ H2]%list_elem_of_filter.
      simpl. intros ->.
      unfold canonical in Hcan. rewrite Forall_forall in Hcan.
      pose proof (Hcan _ H1) as E1. pose proof (Hcan _ H2) as E2. simpl in *.
      f_equal.
      apply list_elem_of_lookup in H1 as [i1 H1], H2 as [i2 H2].
      assert (i1 = i2).
      { eapply (NoDup_lookup _ _ _ k2 Hnd);
          unfold dict_keys; rewrite list_lookup_fmap; [by rewrite H1 | by rewrite H2]. }
      subst i2. congruence.
    + apply NoDup_filter. eapply NoDup_fmap_1. exact Hnd.
Qed.

End Selection.

Section Algebra.
Context {Mol : Type} `{!Canonicalizer Mol}.
Implicit Types (h : heap Mol) (self other : loc) (c : umc) (d : dict Mol).

Lemma filter_complement_perm {A} (P : A → Prop) `{!∀ x, Decision (P x)}
    (l : list A) :
  filter P l ++ filter (λ x, ¬ P x) l ≡ₚ l.
Proof.
  induction l as [|x l IH]; [done|].
  destruct (decide (P x)).
  - rewrite filter_cons_True, (filter_cons_False (λ x, ¬ P x)) by auto.
    simpl. by rewrite IH.
  - rewrite filter_cons_False, (filter_cons_True (λ x, ¬ P x)) by auto.
    rewrite <- Permutation_middle. by rewrite IH.
Qed.

Lemma filter_none {A} (Q : A → Prop) `{!∀ x, Decision (Q x)} (l : list A) :
  Forall (λ x, ¬ Q x) l → filter Q l = [].
Proof.
  induction 1 as [|x l Hx _ IH]; [done|]. by rewrite filter_cons_False.
Qed.

(** The container a selection returns, given what the loop inserted. *)
Lemma selected_live h (res : dict Mol) :
  live (Heap (conts h ++ [Build (length (dicts h))
                            (if decide (length res = 0%nat) then true else false)
                            true None])
             (dicts h ++ [res]))
       (length (conts h))
       (Build (length (dicts h))
          (if decide (length res = 0%nat) then true else false) true None)
       res.
Proof. split; simpl; by apply list_lookup_middle. Qed.

Lemma selected_frame h (res : dict Mol) nc l cl dl :
  live h l cl dl → live (Heap (conts h ++ [nc]) (dicts h ++ [res])) l cl dl.
Proof. intros [Hcl Hdl]. split; simpl; by apply lookup_app_l_Some. Qed.

(** The runs of both operators on a container whose keys are its records'
    SMILES with chirality. *)
Lemma and_run_canonical h self other c d oc od :
  live h self c d → live h other oc od →
  canonical true d → NoDup (dict_keys d) →
  let res := filter (λ kv, mol2smi kv.2 (__chirality oc) ∈ dict_keys od) d in
  __and__ self other h =
  (Ok (length (conts h)),
   Heap (conts h ++ [Build (length (dicts h))
                       (if decide (length res = 0%nat) then true else false)
                       true None])
        (dicts h ++ [res])).
Proof.
  intros Hl Hlo Hcan Hnd res.
  pose proof (select_run h self other c d oc od id __and__ Hl Hlo
                (and_unfold self other)) as Hrun.
  cbv zeta in Hrun.
  assert (Hres : foldl (insert_new true) []
            (filter (λ m, id (dict_contains (mol2smi m (__chirality oc)) od)) d.*2)
          = res).
  { rewrite (select_canonical _ d Hcan Hnd). apply list_filter_iff.
    intros [k m]. simpl. unfold dict_contains. apply bool_decide_spec. }
  by rewrite Hres in Hrun.
Qed.

Lemma sub_run_canonical h self other c d oc od :
  live h self c d → live h other oc od →
  canonical true d → NoDup (dict_keys d) →
  let res := filter (λ kv, mol2smi kv.2 (__chirality oc) ∉ dict_keys od) d in
  __sub__ self other h =
  (Ok (length (conts h)),
   Heap (conts h ++ [Build (length (dicts h))
                       (if decide (length res = 0%nat) then true else false)
                       true None])
        (dicts h ++ [res])).
Proof.
  intros Hl Hlo Hcan Hnd res.
  pose proof (select_run h self other c d oc od negb __sub__ Hl Hlo
                (sub_unfold self other)) as Hrun.
  cbv zeta in Hrun.
  assert (Hres : foldl (insert_new true) []
            (filter (λ m, negb (dict_contains (mol2smi m (__chirality oc)) od)) d.*2)
          = res).
  { rewrite (select_canonical _ d Hcan Hnd). apply list_filter_iff.
    intros [k m]. simpl. unfold dict_contains.
    rewrite negb_True. by rewrite bool_decide_spec. }
  by rewrite Hres in Hrun.
Qed.

Lemma dict_entry_unique (d : dict Mol) k m1 m2 :
  NoDup (dict_keys d) → (k, m1) ∈ d → (k, m2) ∈ d → m1 = m2.
Proof.
  intros Hnd [i1 H1]%list_elem_of_lookup [i2 H2]%list_elem_of_lookup.
  assert (i1 = i2).
  { eapply (NoDup_lookup _ _ _ k Hnd);
      unfold dict_keys; rewrite list_lookup_fmap; [by rewrite H1 | by rewrite H2]. }
  subst i2. congruence.
Qed.

Lemma canonical_key (d : dict Mol) k m :
  canonical true d → (k, m) ∈ d → mol2smi m true = k.
Proof.
  unfold canonical. rewrite Forall_forall. intros Hcan Hin.
  symmetry. exact (Hcan _ Hin).
Qed.

(** [self & other], for a container whose keys are its records' SMILES with
    chirality: the result is a new container, with chirality kept, that
    holds the entries of [self] whose record is a member of [other], in the
    order they have in [self]; it is sealed only if it is empty.  Membership
    is tested under the chirality mode of [other]; when that is on, an entry
    is selected exactly when its key is a key of [other].  No other container
    changes. *)
Theorem and_spec h self other c d oc od :
  live h self c d → live h other oc od →
  canonical true d → NoDup (dict_keys d) →
  ∃ new h',
    __and__ self other h = (Ok new, h')
    ∧ conts h !! new = None
    ∧ entries h' new
      = Some (filter (λ kv, mol2smi kv.2 (__chirality oc) ∈ dict_keys od) d)
    ∧ chirality_at h' new = Some true
    ∧ sealed_at h' new
      = Some (bool_decide
                (length (filter (λ kv, mol2smi kv.2 (__chirality oc) ∈ dict_keys od) d)
                 = 0%nat))
    ∧ (∀ l cl dl, live h l cl dl → live h' l cl dl)
    ∧ (__chirality oc = true →
         entries h' new = Some (filter (λ kv, kv.1 ∈ dict_keys od) d)).
Proof.
  intros Hl Hlo Hcan Hnd.
  eexists _, _. split; [exact (and_run_canonical _ _ _ _ _ _ _ Hl Hlo Hcan Hnd)|].
  split; [by apply lookup_ge_None|].
  split; [by apply (entries_live _ _ _ _ (selected_live h _))|].
  split; [unfold chirality_at; by rewrite (proj1 (selected_live h _))|].
  split.
  { rewrite (sealed_live _ _ _ _ (selected_live h _)). simpl.
    by destruct (decide _) as [E|E];
      [rewrite bool_decide_eq_true_2 | rewrite bool_decide_eq_false_2]. }
  split; [intros l cl dl; apply selected_frame|].
  intros Hch. rewrite (entries_live _ _ _ _ (selected_live h _)). f_equal.
  apply filter_ext_in. intros [k m] Hin. simpl. rewrite Hch.
  by rewrite (canonical_key d k m Hcan Hin).
Qed.

(** [self - other], under the same condition: a new container, with
    chirality kept, that holds the entries of [self] whose record is not a
    member of [other], in the order they have in [self]. *)
Theorem sub_spec h self other c d oc od :
  live h self c d → live h other oc od →
  canonical true d → NoDup (dict_keys d) →
  ∃ new h',
    __sub__ self other h = (Ok new, h')
    ∧ conts h !! new = None
    ∧ entries h' new
      = Some (filter (λ kv, mol2smi kv.2 (__chirality oc) ∉ dict_keys od) d)
    ∧ chirality_at h' new = Some true
    ∧ sealed_at h' new
      = Some (bool_decide
                (length (filter (λ kv, mol2smi kv.2 (__chirality oc) ∉ dict_keys od) d)
                 = 0%nat))
    ∧ (∀ l cl dl, live h l cl dl → live h' l cl dl)
    ∧ (__chirality oc = true →
         entries h' new = Some (filter (λ kv, kv.1 ∉ dict_keys od) d)).
Proof.
  intros Hl Hlo Hcan Hnd.
  eexists _, _. split; [exact (sub_run_canonical _ _ _ _ _ _ _ Hl Hlo Hcan Hnd)|].
  split; [by apply lookup_ge_None|].
  split; [by apply (entries_live _ _ _ _ (selected_live h _))|].
  split; [unfold chirality_at; by rewrite (proj1 (selected_live h _))|].
  split.
  { rewrite (sealed_live _ _ _ _ (selected_live h _)). simpl.
    by destruct (decide _) as [E|E];
      [rewrite bool_decide_eq_true_2 | rewrite bool_decide_eq_false_2]. }
  split; [intros l cl dl; apply selected_frame|].
  intros Hch. rewrite (entries_live _ _ _ _ (selected_live h _)). f_equal.
  apply filter_ext_in. intros [k m] Hin. simpl. rewrite Hch.
  by rewrite (canonical_key d k m Hcan Hin).
Qed.

(** Intersection and difference split a container: every entry of [self]
    goes to exactly one of [self & other] and [self - other], so their sizes
    add up to the size of [self] and they share no key.  With itself, a
    container with chirality on intersects to its own entries and differs to
    nothing. *)
Theorem and_sub_partition h self other c d oc od :
  live h self c d → live h other oc od →
  canonical true d → NoDup (dict_keys d) →
  ∃ x hx y hy dx dy,
    __and__ self other h = (Ok x, hx)
    ∧ __sub__ self other h = (Ok y, hy)
    ∧ entries hx x = Some dx
    ∧ entries hy y = Some dy
    ∧ dx ++ dy ≡ₚ d
    ∧ __len__ x hx = (Ok (Z.of_nat (length d) - Z.of_nat (length dy)), hx)
    ∧ (∀ k, k ∈ dict_keys dx → k ∉ dict_keys dy)
    ∧ (__chirality c = true →
         ∃ x' hx' y' hy',
           __and__ self self h = (Ok x', hx') ∧ entries hx' x' = Some d
           ∧ __sub__ self self h = (Ok y', hy') ∧ entries hy' y' = Some []).
Proof.
  intros Hl Hlo Hcan Hnd.
  set (P := λ kv : string * Mol, mol2smi kv.2 (__chirality oc) ∈ dict_keys od).
  eexists _, _, _, _, (filter P d), (filter (λ kv, ¬ P kv) d).
  split; [exact (and_run_canonical _ _ _ _ _ _ _ Hl Hlo Hcan Hnd)|].
  split; [exact (sub_run_canonical _ _ _ _ _ _ _ Hl Hlo Hcan Hnd)|].
  split; [by apply (entries_live _ _ _ _ (selected_live h _))|].
  split; [by apply (entries_live _ _ _ _ (selected_live h _))|].
  pose proof (filter_complement_perm P d) as Hperm.
  split; [done|].
  split.
  { rewrite (len_run _ _ _ _ (selected_live h _)). do 2 f_equal.
    apply Permutation_length in Hperm. rewrite length_app in Hperm.
    fold P. lia. }
  split.
  { intros k Hx Hy.
    apply list_elem_of_fmap in Hx as ([k1 m1] & -> & [HP1 Hin1]%list_elem_of_filter).
    apply list_elem_of_fmap in Hy as ([k2 m2] & Hk & [HP2 Hin2]%list_elem_of_filter).
    simpl in Hk. subst k2. apply HP2.
    by rewrite <- (dict_entry_unique d k1 m1 m2 Hnd Hin1 Hin2). }
  intros Hch.
  assert (Hall : Forall (λ kv : string * Mol,
                   mol2smi kv.2 (__chirality c) ∈ dict_keys d) d).
  { apply Forall_forall. intros [k m] Hin. simpl. rewrite Hch.
    rewrite (canonical_key d k m Hcan Hin).
    apply list_elem_of_fmap. by exists (k, m). }
  eexists _, _, _, _.
  split; [exact (and_run_canonical _ _ _ _ _ _ _ Hl Hl Hcan Hnd)|].
  split.
  { rewrite (entries_live _ _ _ _ (selected_live h _)). f_equal.
    by apply filter_all. }
  split; [exact (sub_run_canonical _ _ _ _ _ _ _ Hl Hl Hcan Hnd)|].
  rewrite (entries_live _ _ _ _ (selected_live h _)). f_equal.
  apply filter_none. eapply Forall_impl; [exact Hall|]. simpl. auto.
Qed.

End Algebra.


(** ** Consuming and traversing a container *)

Section Traversal.
Context {Mol : Type} `{!Canonicalizer Mol}.
Implicit Types (h : heap Mol) (self : loc) (c : umc) (d : dict Mol).

Lemma pop_front h self c k m d :
  live h self c ((k, m) :: d) → NoDup (dict_keys ((k, m) :: d)) →
  pop self 0 h = (Ok m, Heap (conts h) (<[__data c := d]> (dicts h))).
Proof.
  intros Hl Hnd.
  by rewrite (pop_ok _ _ _ _ 0 k m Hl Hnd ltac:(unfold index_ok; simpl; lia) eq_refl).
Qed.

Lemma consume_loop_run d : ∀ h self c (start : nat),
  live h self c d → NoDup (dict_keys d) →
  comprehension (λ _ : nat, pop self 0) (seq start (length d)) h
  = (Ok d.*2, Heap (conts h) (<[__data c := []]> (dicts h))).
Proof.
  induction d as [|[k m] d IH]; intros h self c start Hl Hnd.
  - simpl. rewrite (list_insert_id _ _ _ (proj2 Hl)). by destruct h.
  - cbn [length seq comprehension]. rewrite run_bind, (pop_front _ _ _ _ _ _ Hl Hnd).
    assert (Hl1 : live (Heap (conts h) (<[__data c := d]> (dicts h))) self c d).
    { destruct Hl as [Hc Hd]. split; simpl; [done | by eapply lookup_insert_same]. }
    unfold dict_keys in Hnd. rewrite fmap_cons in Hnd.
    apply NoDup_cons in Hnd as [_ Hnd].
    rewrite run_bind, (IH _ _ _ (S start) Hl1 Hnd). simpl.
    by rewrite list_insert_insert_eq.
Qed.

(** The loop of the class docstring, [for i in range(len(x)): mol = x.pop()],
    hands out every record once, in the order of the keys, and leaves the
    container empty.  No attribute of the container changes on the way, the
    seal included; one more [pop()] raises "Empty container.". *)
Theorem consume_spec h self c d :
  live h self c d → NoDup (dict_keys d) →
  ∃ h',
    consume self h = (Ok d.*2, h')
    ∧ entries h' self = Some []
    ∧ conts h' = conts h
    ∧ sealed_at h' self = Some (sealed c)
    ∧ pop self 0 h' = (Raise (IndexError "Empty container."), h').
Proof.
  intros Hl Hnd. pose proof Hl as [Hc Hd].
  assert (Hl' : live (Heap (conts h) (<[__data c := []]> (dicts h))) self c []).
  { split; simpl; [done | by eapply lookup_insert_same]. }
  eexists. split.
  { unfold consume. rewrite (run_bind_ok _ _ _ _ _ (len_run _ _ _ _ Hl)).
    rewrite Nat2Z.id. by apply consume_loop_run. }
  split; [by apply (entries_live _ _ _ _ Hl')|].
  split; [done|].
  split; [by rewrite (sealed_live _ _ _ _ Hl')|].
  rewrite (pop_raises _ _ _ _ 0 Hl'); [done|].
  unfold index_ok. simpl. lia.
Qed.

Lemma next_or_stop_run h self c d i :
  live h self c d → NoDup (dict_keys d) → __index c = Some i → -1 ≤ i →
  next_or_stop self h =
  (Ok (snd <$> d !! Z.to_nat (i + 1)), put_attrs h self (with_index c (i + 1))).
Proof.
  intros Hl Hnd Hi Hge. unfold next_or_stop.
  rewrite (next_run _ _ _ _ _ Hl Hnd Hi Hge).
  by destruct (d !! Z.to_nat (i + 1)) as [[k m]|].
Qed.

(** The rounds of a [for] statement from any position: the records from that
    position on, and the counter left at the size. *)
Lemma for_rounds_run d rest : ∀ pre h self c fuel,
  d = pre ++ rest →
  live h self c d → NoDup (dict_keys d) →
  __index c = Some (Z.of_nat (length pre) - 1) →
  (length rest < fuel)%nat →
  for_rounds fuel self h
  = (Ok rest.*2, put_attrs h self (with_index c (Z.of_nat (length d)))).
Proof.
  induction rest as [|[k m] rest IH]; intros pre h self c fuel Hd Hl Hnd Hi Hfuel.
  - destruct fuel as [|fuel]; [simpl in Hfuel; lia|]. cbn [for_rounds].
    rewrite run_bind, (next_or_stop_run _ _ _ _ _ Hl Hnd Hi) by lia.
    rewrite app_nil_r in Hd. subst pre.
    replace (Z.to_nat (Z.of_nat (length d) - 1 + 1)) with (length d) by lia.
    rewrite (proj2 (lookup_ge_None d (length d))) by lia. simpl.
    rewrite run_ret. by replace (Z.of_nat (length d) - 1 + 1) with (Z.of_nat (length d)) by lia.
  - destruct fuel as [|fuel]; [simpl in Hfuel; lia|]. cbn [for_rounds].
    rewrite run_bind, (next_or_stop_run _ _ _ _ _ Hl Hnd Hi) by lia.
    replace (Z.to_nat (Z.of_nat (length pre) - 1 + 1)) with (length pre) by lia.
    replace (Z.of_nat (length pre) - 1 + 1) with (Z.of_nat (length pre)) by lia.
    assert (d !! length pre = Some (k, m)) as ->.
    { subst d. by apply list_lookup_middle. }
    simpl. rewrite run_bind.
    rewrite (IH (pre ++ [(k, m)]) _ self (with_index c (Z.of_nat (length pre))) fuel).
    + rewrite run_ret. unfold put_attrs, with_index. simpl.
      by rewrite list_insert_insert_eq.
    + by rewrite <- app_assoc.
    + by apply (live_put_attrs _ _ c).
    + done.
    + simpl. rewrite length_app. simpl. f_equal. lia.
    + simpl in Hfuel. lia.
Qed.

(** [[m for m in x]], given a round more than the size: the records in the
    order of the keys, each once.  The traversal changes nothing but the
    position counter, which it leaves at the size, so that a further
    [__next__] raises [StopIteration] again; and it can be repeated, with the
    same list and the same store as an outcome. *)
Theorem traversal_spec h self c d fuel :
  live h self c d → NoDup (dict_keys d) → (length d < fuel)%nat →
  ∃ h',
    to_list fuel self h = (Ok d.*2, h')
    ∧ h' = put_attrs h self (with_index c (Z.of_nat (length d)))
    ∧ entries h' self = Some d
    ∧ sealed_at h' self = Some (sealed c)
    ∧ (__next__ self h').1 = Raise StopIteration
    ∧ to_list fuel self h' = (Ok d.*2, h').
Proof.
  intros Hl Hnd Hfuel.
  assert (Hrun : ∀ h0 c0, live h0 self c0 d →
            to_list fuel self h0
            = (Ok d.*2, put_attrs h0 self (with_index c0 (Z.of_nat (length d))))).
  { intros h0 c0 Hl0. unfold to_list.
    rewrite (run_bind_ok _ _ _ _ _ (iter_run _ _ _ (proj1 Hl0))).
    rewrite (for_rounds_run d d [] _ self (with_index c0 (-1)) fuel eq_refl
               (live_put_attrs _ _ _ _ (with_index c0 (-1)) Hl0 eq_refl) Hnd
               eq_refl Hfuel).
    unfold put_attrs, with_index. simpl. by rewrite list_insert_insert_eq. }
  pose proof (live_put_attrs _ _ _ _ (with_index c (Z.of_nat (length d))) Hl eq_refl)
    as Hl'.
  eexists. split; [by apply Hrun|]. split; [done|].
  split; [by apply (entries_live _ _ _ _ Hl')|].
  split; [by rewrite (sealed_live _ _ _ _ Hl')|].
  split.
  { rewrite (next_run _ _ _ _ _ Hl' Hnd eq_refl) by lia. simpl.
    by rewrite (proj2 (lookup_ge_None d (Z.to_nat (Z.of_nat (length d) + 1)))) by lia. }
  rewrite (Hrun _ _ Hl'). unfold put_attrs, with_index. simpl.
  by rewrite list_insert_insert_eq.
Qed.

End Traversal.

(** ** Equality as a relation, and the union up to equality *)

Section EqualityLaws.
Context {Mol : Type} `{!Canonicalizer Mol}.
Implicit Types (h : heap Mol) (self other : loc) (c : umc) (d : dict Mol).

Lemma keyset_eq_refl a : keyset_eq a a = true.
Proof. by apply keyset_eq_true. Qed.

Lemma keyset_eq_sym a b : keyset_eq a b = keyset_eq b a.
Proof.
  destruct (keyset_eq b a) eqn:E.
  - apply keyset_eq_true. intros k. symmetry. by apply keyset_eq_true.
  - destruct (keyset_eq a b) eqn:E'; [|done].
    rewrite <- E. symmetry. apply keyset_eq_true. intros k. symmetry.
    by apply keyset_eq_true.
Qed.

(** What [self + other] leaves of any container there was: its entries. *)
Lemma add_operator_frame h self other c d oc od l cl dl :
  live h self c d → live h other oc od → live h l cl dl →
  ∃ cl', live (final (__add__ self other h)) l cl' dl.
Proof.
  intros Hl Hlo [Hcl Hdl]. rewrite (add_operator_run _ _ _ _ _ _ _ Hl Hlo).
  unfold final. simpl.
  destruct (merge d od).1.
  - destruct (decide (l = self)) as [->|Hne].
    + exists (with_sealed c false). split; simpl.
      * apply lookup_app_l_Some. by eapply lookup_insert_same, Hl.
      * apply lookup_app_l_Some. destruct Hl as [Hc Hd]. congruence.
    + exists cl. split; simpl.
      * apply lookup_app_l_Some. by rewrite list_lookup_insert_ne.
      * by apply lookup_app_l_Some.
  - exists cl. split; simpl; by apply lookup_app_l_Some.
Qed.

Lemma add_operator_new h self other c d oc od :
  live h self c d → live h other oc od →
  ∃ nc nd,
    live (final (__add__ self other h)) (length (conts h)) nc nd
    ∧ ∀ k, k ∈ dict_keys nd ↔ k ∈ dict_keys d ∨ k ∈ dict_keys od.
Proof.
  intros Hl Hlo. rewrite (add_operator_run _ _ _ _ _ _ _ Hl Hlo).
  unfold final. simpl. eexists _, _. split; [split; simpl|].
  - replace (length (conts h)) with
      (length (if (merge d od).1 then <[self := with_sealed c false]> (conts h)
               else conts h)) at 1
      by (destruct (merge d od).1; [apply length_insert | done]).
    apply list_lookup_middle. reflexivity.
  - simpl. rewrite lookup_app_r by lia.
    by replace (S (length (dicts h)) - length (dicts h))%nat with 1%nat by lia.
  - intros k. apply merge_fold_keys.
Qed.

(** [==] is an equivalence on containers: every container equals itself, the
    answer does not depend on the side a container stands on, and two
    containers equal to a third are equal.  A container equals its copy. *)
Theorem eq_is_an_equivalence h a b e ca da cb db ce de :
  live h a ca da → live h b cb db → live h e ce de →
  __eq__ a a h = (Ok true, h)
  ∧ __eq__ a b h = __eq__ b a h
  ∧ (__eq__ a b h = (Ok true, h) → __eq__ b e h = (Ok true, h) →
     __eq__ a e h = (Ok true, h))
  ∧ ∃ y h', copy a h = (Ok y, h') ∧ y ≠ a ∧ __eq__ a y h' = (Ok true, h').
Proof.
  intros Ha Hb He.
  split; [by rewrite (eq_run _ _ _ _ _ _ _ Ha Ha), keyset_eq_refl|].
  split.
  { rewrite (eq_run _ _ _ _ _ _ _ Ha Hb), (eq_run _ _ _ _ _ _ _ Hb Ha).
    by rewrite keyset_eq_sym. }
  split.
  { rewrite (eq_run _ _ _ _ _ _ _ Ha Hb), (eq_run _ _ _ _ _ _ _ Hb He),
      (eq_run _ _ _ _ _ _ _ Ha He).
    intros [= Hab] [= Hbe]. do 2 f_equal.
    apply keyset_eq_true. intros k.
    rewrite (proj1 (keyset_eq_true _ _) Hab k).
    apply (proj1 (keyset_eq_true _ _) Hbe k). }
  unfold copy. rewrite (init_from_container_run _ _ _ _ true false Ha).
  eexists _, _. split; [done|].
  split. { pose proof (lookup_lt_Some _ _ _ (proj1 Ha)). lia. }
  assert (Ha' : live (Heap (conts h ++ [Build (S (length (dicts h))) true
                                          (negb false) None])
                           (dicts h ++ [[]; da])) a ca da).
  { destruct Ha as [Hca Hda]. split; simpl; by apply lookup_app_l_Some. }
  assert (Hy : live (Heap (conts h ++ [Build (S (length (dicts h))) true
                                         (negb false) None])
                          (dicts h ++ [[]; da])) (length (conts h))
                 (Build (S (length (dicts h))) true (negb false) None) da).
  { split; simpl; [by apply list_lookup_middle|].
    rewrite lookup_app_r by lia.
    by replace (S (length (dicts h)) - length (dicts h))%nat with 1%nat by lia. }
  by rewrite (eq_run _ _ _ _ _ _ _ Ha' Hy), keyset_eq_refl.
Qed.

(** The union does not depend on the order of its operands, up to [==]:
    [a + b == b + a], though the two results list their keys in different
    orders in general; and [a + a == a]. *)
Theorem union_commutes h a b ca da cb db :
  live h a ca da → live h b cb db →
  ∃ x h1 y h2 z h3,
    __add__ a b h = (Ok x, h1)
    ∧ __add__ b a h1 = (Ok y, h2)
    ∧ x ≠ y
    ∧ __eq__ x y h2 = (Ok true, h2)
    ∧ __eq__ y x h2 = (Ok true, h2)
    ∧ __add__ a a h = (Ok z, h3)
    ∧ __eq__ z a h3 = (Ok true, h3).
Proof.
  intros Ha Hb.
  destruct (add_operator_new _ _ _ _ _ _ _ Ha Hb) as (xc & xd & Hx & Hxk).
  destruct (add_operator_frame _ _ _ _ _ _ _ _ _ _ Ha Hb Ha) as (ca1 & Ha1).
  destruct (add_operator_frame _ _ _ _ _ _ _ _ _ _ Ha Hb Hb) as (cb1 & Hb1).
  pose proof (add_operator_run _ _ _ _ _ _ _ Ha Hb) as Hrun1.
  set (h1 := final (__add__ a b h)) in *.
  assert (Hh1 : __add__ a b h = (Ok (length (conts h)), h1)).
  { unfold h1. by rewrite Hrun1. }
  destruct (add_operator_new _ _ _ _ _ _ _ Hb1 Ha1) as (yc & yd & Hy & Hyk).
  destruct (add_operator_frame _ _ _ _ _ _ _ _ _ _ Hb1 Ha1 Hx) as (xc2 & Hx2).
  pose proof (add_operator_run _ _ _ _ _ _ _ Hb1 Ha1) as Hrun2.
  set (h2 := final (__add__ b a h1)) in *.
  assert (Hh2 : __add__ b a h1 = (Ok (length (conts h1)), h2)).
  { unfold h2. by rewrite Hrun2. }
  destruct (add_operator_new _ _ _ _ _ _ _ Ha Ha) as (zc & zd & Hz & Hzk).
  destruct (add_operator_frame _ _ _ _ _ _ _ _ _ _ Ha Ha Ha) as (ca3 & Ha3).
  pose proof (add_operator_run _ _ _ _ _ _ _ Ha Ha) as Hrun3.
  set (h3 := final (__add__ a a h)) in *.
  assert (Hh3 : __add__ a a h = (Ok (length (conts h)), h3)).
  { unfold h3. by rewrite Hrun3. }
  exists (length (conts h)), h1, (length (conts h1)), h2, (length (conts h)), h3.
  split; [done|]. split; [done|].
  split. { pose proof (lookup_lt_Some _ _ _ (proj1 Hx)). lia. }
  split.
  { rewrite (eq_run _ _ _ _ _ _ _ Hx2 Hy). do 2 f_equal.
    apply keyset_eq_true. intros k. rewrite Hxk, Hyk. tauto. }
  split.
  { rewrite (eq_run _ _ _ _ _ _ _ Hy Hx2). do 2 f_equal.
    apply keyset_eq_true. intros k. rewrite Hxk, Hyk. tauto. }
  split; [done|].
  rewrite (eq_run _ _ _ _ _ _ _ Hz Ha3). do 2 f_equal.
  apply keyset_eq_true. intros k. rewrite Hzk. tauto.
Qed.

End EqualityLaws.

(** ** Printing *)

Section Printing.
Context {Mol : Type} `{!Canonicalizer Mol}.
Implicit Types (h : heap Mol) (self : loc) (c : umc) (d : dict Mol).

Lemma string_app_assoc (a b c : string) : (a +:+ b) +:+ c = a +:+ (b +:+ c).
Proof.
  induction a as [|x a IH]; [done|].
  change (String x ((a +:+ b) +:+ c) = String x (a +:+ (b +:+ c))).
  by rewrite IH.
Qed.

Lemma str_join_cons (sep x : string) (l : list string) :
  l ≠ [] → str_join sep (x :: l) = x +:+ sep +:+ str_join sep l.
Proof. by destruct l. Qed.

(** Joining prefixed items with a separator is prefixing the join with the
    separator followed by the prefix. *)
Lemma str_join_prefixed (sep pre : string) (xs : list string) :
  xs ≠ [] →
  str_join sep ((λ x, pre +:+ x) <$> xs) = pre +:+ str_join (sep +:+ pre) xs.
Proof.
  induction xs as [|x xs IH]; [done|]. intros _.
  destruct (decide (xs = [])) as [->|Hne]; [done|].
  rewrite fmap_cons, !str_join_cons; [|done|by destruct xs].
  rewrite IH by done. by rewrite !string_app_assoc.
Qed.

(** [str(x)] and [repr(x)] read the keys and leave the store alone.  For an
    empty container both are the empty string.  Otherwise [repr(x)] is the
    keys in their order, separated by a line feed and ["  - "], and [str(x)]
    is ["  - "] followed by [repr(x)]: one line per key, each behind the same
    dash, and no heading. *)
Theorem str_is_dashed_repr h self c d :
  live h self c d →
  ∃ r s,
    __repr__ self h = (Ok r, h)
    ∧ __str__ self h = (Ok s, h)
    ∧ r = str_join (LF +:+ "  - ") (dict_keys d)
    ∧ (d = [] → r = "" ∧ s = "")
    ∧ (d ≠ [] → s = "  - " +:+ r).
Proof.
  intros [Hc Hd]. eexists _, _. split; [|split].
  - unfold __repr__.
    rewrite (run_bind_ok _ _ _ _ _ (load_ok _ _ _ Hc)).
    by rewrite (run_bind_ok _ _ _ _ _ (read_dict_ok _ _ _ Hd)).
  - unfold __str__.
    rewrite (run_bind_ok _ _ _ _ _ (load_ok _ _ _ Hc)).
    by rewrite (run_bind_ok _ _ _ _ _ (read_dict_ok _ _ _ Hd)).
  - split; [done|]. split; [by intros ->|].
    intros Hne. apply str_join_prefixed. by destruct d.
Qed.

End Printing.

(** Witness: printing the container of four molecules. *)
Lemma str_is_dashed_repr_witness :
  live shelf 0%nat (Build 0 true true None) four_mols
  ∧ ∃ r s,
      __repr__ 0%nat shelf = (Ok r, shelf)
      ∧ __str__ 0%nat shelf = (Ok s, shelf)
      ∧ s = "  - " +:+ r.
Proof.
  split; [exact shelf_live|].
  destruct (str_is_dashed_repr shelf 0%nat _ _ shelf_live)
    as (r & s & Hr & Hs & _ & _ & Hne).
  exists r, s. split; [exact Hr|]. split; [exact Hs|]. by apply Hne.
Defined.

(** ** Witnesses of the further properties *)


Lemma flask_live : live flask 0%nat (Build 0 true true None) [].
Proof. split; reflexivity. Defined.

Lemma bench_live_0 : live bench 0%nat (Build 0 true true None) four_mols.
Proof. split; reflexivity. Defined.

Lemma bench_live_1 : live bench 1%nat (Build 1 true true None) two_mols.
Proof. split; reflexivity. Defined.

Lemma four_mols_canonical : canonical true four_mols.
Proof. repeat constructor. Defined.

(** Witness: on the bench, the container of four molecules is added in place
    to the container of pyridine and ethanol, which gains benzene and
    L-alanine and loses its seal. *)
Lemma iadd_spec_witness :
  live bench 1%nat (Build 1 true true None) two_mols
  ∧ live bench 0%nat (Build 0 true true None) four_mols
  ∧ ∃ h' d',
      __iadd__ 1%nat 0%nat bench = (Ok 1%nat, h')
      ∧ length (conts h') = 2%nat
      ∧ entries h' 1%nat = Some d'
      ∧ (∀ k, k ∈ dict_keys d'
              ↔ k ∈ dict_keys two_mols ∨ k ∈ dict_keys four_mols)
      ∧ sealed_at h' 1%nat = Some false
      ∧ entries h' 0%nat = Some four_mols.
Proof.
  split; [exact bench_live_1|]. split; [exact bench_live_0|].
  destruct (iadd_spec bench 1%nat 0%nat _ _ _ _ bench_live_1 bench_live_0)
    as (h' & d' & Hrun & Hlen & _ & He & Hkeys & Hs & _ & Hother & _).
  exists h', d'. split; [exact Hrun|]. split; [exact Hlen|].
  split; [exact He|]. split; [exact Hkeys|]. split; [exact Hs | exact Hother].
Defined.

(** Witness: on the bench, the union of the container of pyridine and
    ethanol with the container of four molecules, by [+] and by [+=]:
    benzene and L-alanine are new to it and come behind its own entries. *)
Lemma union_entries_witness :
  live bench 1%nat (Build 1 true true None) two_mols
  ∧ live bench 0%nat (Build 0 true true None) four_mols
  ∧ NoDup (dict_keys four_mols)
  ∧ ∃ new h1 h2,
      __add__ 1%nat 0%nat bench = (Ok new, h1)
      ∧ entries h1 new
        = Some [("c1ccncc1", pyridine); ("CCO", ethanol);
                ("c1ccccc1", benzene); ("C[C@H](N)C(=O)O", L_alanine)]
      ∧ __iadd__ 1%nat 0%nat bench = (Ok 1%nat, h2)
      ∧ entries h2 1%nat
        = Some [("c1ccncc1", pyridine); ("CCO", ethanol);
                ("c1ccccc1", benzene); ("C[C@H](N)C(=O)O", L_alanine)]
      ∧ __len__ new h1 = (Ok 4, h1).
Proof.
  split; [exact bench_live_1|]. split; [exact bench_live_0|].
  split; [exact four_mols_NoDup|].
  destruct (union_entries bench 1%nat 0%nat _ _ _ _ bench_live_1 bench_live_0
              four_mols_NoDup) as (new & h1 & h2 & Hrun & He & Hrun2 & He2 & Hlen).
  exists new, h1, h2. split; [exact Hrun|]. split; [exact He|].
  split; [exact Hrun2|]. split; [exact He2 | exact Hlen].
Defined.

(** Witness: ethanol added to the container that holds benzene. *)
Lemma add_then_lookup_witness :
  live vial 0%nat (Build 0 true true None) [("c1ccccc1", benzene)]
  ∧ ∃ b h' d',
      add 0%nat ethanol false vial = (Ok b, h')
      ∧ entries h' 0%nat = Some d'
      ∧ __contains__ 0%nat ethanol h' = (Ok true, h').
Proof.
  split; [exact vial_live|].
  destruct (add_then_lookup vial 0%nat _ _ ethanol false vial_live)
    as (b & h' & d' & Hrun & He & Hin & _).
  exists b, h', d'. split; [exact Hrun|]. split; [exact He | exact Hin].
Defined.

(** Witness: ethanol removed from the container of four molecules. *)
Lemma remove_smiles_spec_witness :
  live shelf 0%nat (Build 0 true true None) four_mols
  ∧ NoDup (dict_keys four_mols)
  ∧ ("CCO" ∈ dict_keys four_mols)
  ∧ ∃ h',
      remove_smiles 0%nat "CCO" shelf = (Ok true, h')
      ∧ __getitem__ 0%nat (KStr "CCO") h' = (Raise (KeyError "CCO"), h')
      ∧ __len__ 0%nat h' = (Ok (Z.of_nat (length four_mols) - 1), h').
Proof.
  assert (Hin : "CCO" ∈ dict_keys four_mols).
  { apply (bool_decide_unpack _). by vm_compute. }
  split; [exact shelf_live|]. split; [exact four_mols_NoDup|].
  split; [exact Hin|].
  destruct (proj1 (remove_smiles_spec shelf 0%nat _ _ "CCO"
                     shelf_live four_mols_NoDup) Hin)
    as (h' & Hrun & _ & _ & Hlen & Hget & _).
  exists h'. split; [exact Hrun|]. split; [exact Hget | exact Hlen].
Defined.

(** Witness: ethanol added to and removed from the container that holds
    benzene. *)
Lemma add_then_remove_mol_witness :
  live vial 0%nat (Build 0 true true None) [("c1ccccc1", benzene)]
  ∧ (mol2smi ethanol true ∉ dict_keys [("c1ccccc1", benzene)])
  ∧ ∃ h1 h2,
      add 0%nat ethanol false vial = (Ok true, h1)
      ∧ remove_mol 0%nat ethanol h1 = (Ok true, h2)
      ∧ entries h2 0%nat = Some [("c1ccccc1", benzene)].
Proof.
  assert (Habs : mol2smi ethanol true ∉ dict_keys [("c1ccccc1", benzene)]).
  { apply (bool_decide_unpack _). by vm_compute. }
  split; [exact vial_live|]. split; [exact Habs|].
  destruct (add_then_remove_mol vial 0%nat _ _ ethanol vial_live Habs)
    as (h1 & h2 & H1 & H2 & He & _).
  exists h1, h2. split; [exact H1|]. split; [exact H2 | exact He].
Defined.

(** Witness: two benzene objects and the empty container. *)
Lemma one_record_per_key_witness :
  live flask 0%nat (Build 0 true true None) []
  ∧ mol2smi benzene true = mol2smi benzene' true
  ∧ (mol2smi benzene true ∉ dict_keys ([] : dict toy_mol))
  ∧ ∃ h1 h2,
      add 0%nat benzene false flask = (Ok true, h1)
      ∧ add 0%nat benzene' false h1 = (Ok false, h1)
      ∧ __getitem__ 0%nat (KStr "c1ccccc1") h1 = (Ok benzene, h1)
      ∧ add 0%nat benzene' true h1 = (Ok true, h2)
      ∧ __getitem__ 0%nat (KStr "c1ccccc1") h2 = (Ok benzene', h2).
Proof.
  assert (Habs : mol2smi benzene true ∉ dict_keys ([] : dict toy_mol))
    by apply not_elem_of_nil.
  assert (Hsame : mol2smi benzene true = mol2smi benzene' true) by reflexivity.
  split; [exact flask_live|]. split; [exact Hsame|]. split; [exact Habs|].
  destruct (one_record_per_key flask 0%nat _ _ benzene benzene'
              flask_live Hsame Habs)
    as (h1 & h2 & H1 & H2 & _ & H4 & H5 & H6 & _).
  exists h1, h2. split; [exact H1|]. split; [exact H2|]. split; [exact H4|].
  split; [exact H5 | exact H6].
Defined.

(** Witness: benzene and the container of four molecules. *)
Lemma membership_agrees_with_lookup_witness :
  live shelf 0%nat (Build 0 true true None) four_mols
  ∧ (mol2smi benzene true ∈ dict_keys four_mols)
  ∧ __contains__ 0%nat benzene shelf = (Ok true, shelf)
  ∧ get 0%nat (KStr (mol2smi benzene true)) (PyMol ethanol) shelf
    = (Ok PyNone, shelf).
Proof.
  assert (Hin : mol2smi benzene true ∈ dict_keys four_mols).
  { apply (bool_decide_unpack _). by vm_compute. }
  split; [exact shelf_live|]. split; [exact Hin|].
  destruct (proj1 (membership_agrees_with_lookup shelf 0%nat _ _ benzene
                     (PyMol ethanol) shelf_live) Hin) as (Hc & _ & Hg).
  split; [exact Hc | exact Hg].
Defined.

(** Witness: the intersection of the two containers of the bench. *)
Lemma and_spec_witness :
  live bench 0%nat (Build 0 true true None) four_mols
  ∧ live bench 1%nat (Build 1 true true None) two_mols
  ∧ canonical true four_mols
  ∧ NoDup (dict_keys four_mols)
  ∧ ∃ new h',
      __and__ 0%nat 1%nat bench = (Ok new, h')
      ∧ entries h' new
        = Some (filter (λ kv, kv.1 ∈ dict_keys two_mols) four_mols).
Proof.
  split; [exact bench_live_0|]. split; [exact bench_live_1|].
  split; [exact four_mols_canonical|]. split; [exact four_mols_NoDup|].
  destruct (and_spec bench 0%nat 1%nat _ _ _ _ bench_live_0 bench_live_1
              four_mols_canonical four_mols_NoDup)
    as (new & h' & Hrun & _ & _ & _ & _ & _ & He).
  exists new, h'. split; [exact Hrun | exact (He eq_refl)].
Defined.

(** Witness: the difference of the two containers of the bench. *)
Lemma sub_spec_witness :
  live bench 0%nat (Build 0 true true None) four_mols
  ∧ live bench 1%nat (Build 1 true true None) two_mols
  ∧ canonical true four_mols
  ∧ NoDup (dict_keys four_mols)
  ∧ ∃ new h',
      __sub__ 0%nat 1%nat bench = (Ok new, h')
      ∧ entries h' new
        = Some (filter (λ kv, kv.1 ∉ dict_keys two_mols) four_mols).
Proof.
  split; [exact bench_live_0|]. split; [exact bench_live_1|].
  split; [exact four_mols_canonical|]. split; [exact four_mols_NoDup|].
  destruct (sub_spec bench 0%nat 1%nat _ _ _ _ bench_live_0 bench_live_1
              four_mols_canonical four_mols_NoDup)
    as (new & h' & Hrun & _ & _ & _ & _ & _ & He).
  exists new, h'. split; [exact Hrun | exact (He eq_refl)].
Defined.

(** Witness: intersection and difference on the bench. *)
Lemma and_sub_partition_witness :
  live bench 0%nat (Build 0 true true None) four_mols
  ∧ live bench 1%nat (Build 1 true true None) two_mols
  ∧ canonical true four_mols
  ∧ NoDup (dict_keys four_mols)
  ∧ ∃ x hx y hy dx dy,
      __and__ 0%nat 1%nat bench = (Ok x, hx)
      ∧ __sub__ 0%nat 1%nat bench = (Ok y, hy)
      ∧ entries hx x = Some dx
      ∧ entries hy y = Some dy
      ∧ dx ++ dy ≡ₚ four_mols.
Proof.
  split; [exact bench_live_0|]. split; [exact bench_live_1|].
  split; [exact four_mols_canonical|]. split; [exact four_mols_NoDup|].
  destruct (and_sub_partition bench 0%nat 1%nat _ _ _ _ bench_live_0
              bench_live_1 four_mols_canonical four_mols_NoDup)
    as (x & hx & y & hy & dx & dy & Hx & Hy & Hdx & Hdy & Hperm & _).
  exists x, hx, y, hy, dx, dy.
  split; [exact Hx|]. split; [exact Hy|]. split; [exact Hdx|].
  split; [exact Hdy | exact Hperm].
Defined.

(** Witness: the container of four molecules consumed by [pop]. *)
Lemma consume_spec_witness :
  live shelf 0%nat (Build 0 true true None) four_mols
  ∧ NoDup (dict_keys four_mols)
  ∧ ∃ h',
      consume 0%nat shelf = (Ok [benzene; ethanol; pyridine; L_alanine], h')
      ∧ entries h' 0%nat = Some []
      ∧ sealed_at h' 0%nat = Some true.
Proof.
  split; [exact shelf_live|]. split; [exact four_mols_NoDup|].
  destruct (consume_spec shelf 0%nat _ _ shelf_live four_mols_NoDup)
    as (h' & Hrun & He & _ & Hs & _).
  exists h'. split; [exact Hrun|]. split; [exact He | exact Hs].
Defined.

(** Witness: the container of four molecules traversed, five rounds
    allowed. *)
Lemma traversal_spec_witness :
  live shelf 0%nat (Build 0 true true None) four_mols
  ∧ NoDup (dict_keys four_mols)
  ∧ (length four_mols < 5)%nat
  ∧ ∃ h',
      to_list 5 0%nat shelf = (Ok [benzene; ethanol; pyridine; L_alanine], h')
      ∧ to_list 5 0%nat h' = (Ok [benzene; ethanol; pyridine; L_alanine], h').
Proof.
  assert (Hfuel : (length four_mols < 5)%nat) by (simpl; lia).
  split; [exact shelf_live|]. split; [exact four_mols_NoDup|].
  split; [exact Hfuel|].
  destruct (traversal_spec shelf 0%nat _ _ 5%nat shelf_live four_mols_NoDup Hfuel)
    as (h' & Hrun & _ & _ & _ & _ & Hagain).
  exists h'. split; [exact Hrun | exact Hagain].
Defined.

(** Witness: equality on the bench. *)
Lemma eq_is_an_equivalence_witness :
  live bench 0%nat (Build 0 true true None) four_mols
  ∧ live bench 1%nat (Build 1 true true None) two_mols
  ∧ __eq__ 0%nat 0%nat bench = (Ok true, bench)
  ∧ __eq__ 0%nat 1%nat bench = __eq__ 1%nat 0%nat bench
  ∧ ∃ y h', copy 0%nat bench = (Ok y, h') ∧ __eq__ 0%nat y h' = (Ok true, h').
Proof.
  split; [exact bench_live_0|]. split; [exact bench_live_1|].
  destruct (eq_is_an_equivalence bench 0%nat 1%nat 0%nat _ _ _ _ _ _
              bench_live_0 bench_live_1 bench_live_0)
    as (Hrefl & Hsym & _ & (y & h' & Hcopy & _ & Heq)).
  split; [exact Hrefl|]. split; [exact Hsym|].
  exists y, h'. split; [exact Hcopy | exact Heq].
Defined.

(** Witness: the two unions of the containers of the bench. *)
Lemma union_commutes_witness :
  live bench 0%nat (Build 0 true true None) four_mols
  ∧ live bench 1%nat (Build 1 true true None) two_mols
  ∧ ∃ x h1 y h2,
      __add__ 0%nat 1%nat bench = (Ok x, h1)
      ∧ __add__ 1%nat 0%nat h1 = (Ok y, h2)
      ∧ x ≠ y
      ∧ __eq__ x y h2 = (Ok true, h2).
Proof.
  split; [exact bench_live_0|]. split; [exact bench_live_1|].
  destruct (union_commutes bench 0%nat 1%nat _ _ _ _ bench_live_0 bench_live_1)
    as (x & h1 & y & h2 & _ & _ & H1 & H2 & Hne & Heq & _).
  exists x, h1, y, h2.
  split; [exact H1|]. split; [exact H2|]. split; [exact Hne | exact Heq].
Defined.

(** ** Containers never share a dictionary *)

Section Separation.
Context {Mol : Type} `{!Canonicalizer Mol}.
Implicit Types (h : heap Mol) (self : loc) (c : umc) (d : dict Mol).

Local Abbreviation shape m := (@same_shape Mol _ m) (only parsing).
Local Abbreviation okept m := (@keeps_heap_ok Mol _ m) (only parsing).

Lemma shape_keeps {A} (m : M Mol A) : same_shape m → keeps_heap_ok m.
Proof.
  intros Hm h [Hb Hnd]. destruct (Hm h) as [Hc Hl]. split.
  - rewrite Hl.
    assert (Hb' : Forall (λ r, (r < length (dicts h))%nat) (__data <$> conts h))
      by (apply Forall_fmap; exact Hb).
    rewrite <- Hc in Hb'. apply Forall_fmap in Hb'. exact Hb'.
  - by rewrite Hc.
Qed.

Lemma shape_ret {A} (a : A) : shape (mret a : M Mol A).
Proof. by intros h. Qed.

Lemma shape_raise {A} e : shape (raise e : M Mol A).
Proof. by intros h. Qed.

Lemma shape_bind {A B} (m : M Mol A) (f : A → M Mol B) :
  same_shape m → (∀ a, same_shape (f a)) → same_shape (m ≫= f).
Proof.
  intros Hm Hf h. rewrite run_bind. specialize (Hm h).
  destruct (m h) as [[a|e|] h']; [|done|done].
  destruct (Hf a h') as [H1 H2]. unfold final in *. simpl in *.
  destruct Hm as [H3 H4]. split; congruence.
Qed.

Lemma shape_try_except {A} (m : M Mol A) handler :
  same_shape m → (∀ e, same_shape (handler e)) →
  same_shape (try_except m handler).
Proof.
  intros Hm Hf h. unfold try_except. specialize (Hm h).
  destruct (m h) as [[a|e|] h']; [done| |done].
  destruct (Hf e h') as [H1 H2]. unfold final in *. simpl in *.
  destruct Hm as [H3 H4]. split; congruence.
Qed.

Lemma shape_try_except_IndexError {A} (m handler : M Mol A) :
  same_shape m → same_shape handler →
  same_shape (try_except_IndexError m handler).
Proof.
  intros Hm Hf h. unfold try_except_IndexError. specialize (Hm h).
  destruct (m h) as [[a|[]|] h']; try done.
  destruct (Hf h') as [H1 H2]. unfold final in *. simpl in *.
  destruct Hm as [H3 H4]. split; congruence.
Qed.

Lemma shape_load l : shape (load l : M Mol umc).
Proof. intros h. unfold load. by destruct (conts h !! l). Qed.

Lemma shape_read_dict r : shape (read_dict r : M Mol (dict Mol)).
Proof. intros h. unfold read_dict. by destruct (dicts h !! r). Qed.

Lemma shape_write_dict r d : shape (write_dict r d).
Proof.
  intros h. unfold write_dict. destruct (dicts h !! r); [|done].
  unfold final. simpl. by rewrite length_insert.
Qed.

(** Assigning an attribute other than [__data]. *)
Lemma shape_store_same_data l (f : umc → umc) :
  (∀ c, __data (f c) = __data c) →
  shape (c ← load l; store l (f c) : M Mol unit).
Proof.
  intros Hf h. rewrite run_bind. unfold load, store.
  destruct (conts h !! l) as [c|] eqn:E; [|done]. rewrite E.
  unfold final. simpl. split; [|done].
  rewrite list_fmap_insert, Hf. apply list_insert_id.
  by rewrite list_lookup_fmap, E.
Qed.

Lemma shape_set_sealed l v : shape (set_sealed l v).
Proof. apply (shape_store_same_data l (λ c, Build (__data c) v (__chirality c) (__index c))). done. Qed.

Lemma shape_set_index l i : shape (set_index l i).
Proof. apply (shape_store_same_data l (λ c, Build (__data c) (sealed c) (__chirality c) (Some i))). done. Qed.

Lemma shape_list_index {A} (xs : list A) i : shape (list_index xs i : M Mol A).
Proof.
  unfold list_index. destruct (list_getitem xs i); [apply shape_ret | apply shape_raise].
Qed.

Lemma shape_for_each {A} (xs : list A) (body : A → M Mol unit) :
  (∀ x, same_shape (body x)) → same_shape (for_each xs body).
Proof.
  intros Hb. induction xs as [|x xs IH]; [apply shape_ret|].
  cbn [for_each]. apply shape_bind; [apply Hb | by intros _].
Qed.

Lemma shape_comprehension {A B} (f : A → M Mol B) (xs : list A) :
  (∀ x, same_shape (f x)) → same_shape (comprehension f xs).
Proof.
  intros Hf. induction xs as [|x xs IH]; [apply shape_ret|].
  cbn [comprehension]. apply shape_bind; [apply Hf|]. intros y.
  apply shape_bind; [apply IH|]. intros ys. apply shape_ret.
Qed.

Create HintDb shape.

Hint Resolve shape_ret shape_raise shape_load shape_read_dict shape_write_dict
  shape_set_sealed shape_set_index shape_list_index : shape.

Ltac shape :=
  repeat first
    [ progress intros
    | solve [auto with shape]
    | apply shape_for_each
    | apply shape_comprehension
    | apply shape_try_except_IndexError
    | apply shape_try_except
    | apply shape_bind
    | progress cbv zeta
    | match goal with
      | |- same_shape (if ?b then _ else _) => destruct b
      | |- same_shape (match ?x with _ => _ end) => destruct x
      | |- same_shape (let (_, _) := ?x in _) => destruct x
      end ].

Lemma shape_dict_getitem r k : shape (dict_getitem r k).
Proof. unfold dict_getitem. shape. Qed.

Lemma shape_dict_setitem r k v : shape (dict_setitem r k v).
Proof. unfold dict_setitem. shape. Qed.

Lemma shape_dict_delitem r k : shape (dict_delitem r k).
Proof. unfold dict_delitem. shape. Qed.

Hint Resolve shape_dict_getitem shape_dict_setitem shape_dict_delitem : shape.

Lemma shape_add self mol replace : shape (add self mol replace).
Proof. unfold add. shape. Qed.

Lemma shape_remove_smiles self smiles : shape (remove_smiles self smiles).
Proof. unfold remove_smiles. shape. Qed.

Hint Resolve shape_add shape_remove_smiles : shape.

Lemma shape_remove_mol self mol : shape (remove_mol self mol).
Proof. unfold remove_mol. shape. Qed.

Lemma shape_getitem self key : shape (__getitem__ self key).
Proof. unfold __getitem__. shape. Qed.

Lemma shape_contains self mol : shape (__contains__ self mol).
Proof. unfold __contains__. shape. Qed.

Lemma shape_pop self index : shape (pop self index).
Proof. unfold pop. shape. Qed.

Lemma shape_next self : shape (__next__ self).
Proof. unfold __next__. shape. Qed.

Hint Resolve shape_remove_mol shape_getitem shape_contains shape_pop
  shape_next : shape.

Lemma shape_remove_mols self mol_list : shape (remove_mols self mol_list).
Proof.
  assert (∀ success, shape (remove_mols_loop self mol_list success)).
  { induction mol_list as [|m rest IH]; intros success; cbn [remove_mols_loop];
      shape. }
  unfold remove_mols. destruct mol_list; [shape | auto].
Qed.

Lemma shape_for_rounds fuel it : shape (for_rounds fuel it).
Proof.
  induction fuel as [|fuel IH]; [by intros h|]. cbn [for_rounds].
  apply shape_bind.
  - intros h. unfold next_or_stop. pose proof (shape_next it h) as Hn.
    by destruct (__next__ it h) as [[m|[]|] h'].
  - intros [m|]; [|apply shape_ret].
    apply shape_bind; [apply IH|]. intros ms. apply shape_ret.
Qed.

Hint Resolve shape_remove_mols shape_for_rounds : shape.

(** The methods that neither construct a container nor clear one leave every
    [__data] reference and the number of dictionaries as they are. *)
Lemma methods_same_shape self other mol replace smiles mol_list indices_list
    key default index fuel :
  shape (add self mol replace)
  ∧ shape (remove_smiles self smiles)
  ∧ shape (remove_mol self mol)
  ∧ shape (remove_mols self mol_list)
  ∧ shape (remove_from_indices self indices_list)
  ∧ shape (get self key default)
  ∧ shape (pop self index)
  ∧ shape (keys self)
  ∧ shape (__repr__ self)
  ∧ shape (__str__ self)
  ∧ shape (__iter__ self)
  ∧ shape (__next__ self)
  ∧ shape (__iadd__ self other)
  ∧ shape (__len__ self)
  ∧ shape (__contains__ self mol)
  ∧ shape (__getitem__ self key)
  ∧ shape (__eq__ self other)
  ∧ shape (consume self)
  ∧ shape (to_list fuel self).
Proof.
  repeat match goal with |- _ ∧ _ => split end; try solve [auto with shape].
  - unfold remove_from_indices. shape.
  - unfold get. shape.
  - unfold keys. shape.
  - unfold __repr__. shape.
  - unfold __str__. shape.
  - unfold __iter__. shape.
  - unfold __iadd__. shape.
  - unfold __len__. shape.
  - unfold __eq__. shape.
  - unfold consume. shape.
  - unfold to_list, __iter__. shape.
Qed.

Lemma okept_bind {A B} (m : M Mol A) (f : A → M Mol B) :
  keeps_heap_ok m → (∀ a, keeps_heap_ok (f a)) → keeps_heap_ok (m ≫= f).
Proof.
  intros Hm Hf h Hh. rewrite run_bind. specialize (Hm h Hh).
  destruct (m h) as [[a|e|] h']; [by apply Hf | done | done].
Qed.

(** A new object on a new empty dictionary. *)
Lemma alloc_ok h c0 :
  heap_ok h → __data c0 = length (dicts h) →
  heap_ok (Heap (conts h ++ [c0]) (dicts h ++ [[]])).
Proof.
  intros [Hb Hnd] Hc0. split; simpl.
  - rewrite length_app. simpl. apply Forall_app. split.
    + eapply Forall_impl; [exact Hb|]. simpl. intros; lia.
    + apply Forall_singleton. lia.
  - rewrite fmap_app. apply NoDup_app. split; [done|]. split.
    + intros r Hr ->%list_elem_of_singleton.
      apply list_elem_of_fmap in Hr as (c & Hc & Hin).
      rewrite Forall_forall in Hb. specialize (Hb c Hin). lia.
    + apply NoDup_singleton.
Qed.

(** A container is given a dictionary allocated for it. *)
Lemma fresh_data_ok h self (x : dict Mol) :
  heap_ok h →
  heap_ok (final ((r ← new_dict x; set_data self r) h)).
Proof.
  intros [Hb Hnd]. rewrite run_bind. unfold new_dict at 1. cbv beta iota.
  unfold set_data. rewrite run_bind. unfold load, store. simpl.
  destruct (conts h !! self) as [c|] eqn:E; simpl.
  - rewrite E. unfold final. simpl. split; simpl.
    + rewrite length_app. simpl. apply Forall_insert.
      * eapply Forall_impl; [exact Hb|]. simpl. intros; lia.
      * simpl. lia.
    + rewrite list_fmap_insert. simpl.
      apply NoDup_alt. intros i j r Hi Hj.
      destruct (decide (i = self)) as [->|Hi'], (decide (j = self)) as [->|Hj'];
        [done| | |].
      * rewrite list_lookup_insert_ne in Hj by done.
        rewrite list_lookup_insert_eq in Hi
          by (rewrite length_fmap; by eapply lookup_lt_Some).
        injection Hi as <-.
        rewrite list_lookup_fmap in Hj. destruct (conts h !! j) as [cj|] eqn:Ej; [|done].
        injection Hj as Hj. rewrite Forall_forall in Hb.
        specialize (Hb cj (list_elem_of_lookup_2 _ _ _ Ej)). lia.
      * rewrite list_lookup_insert_ne in Hi by done.
        rewrite list_lookup_insert_eq in Hj
          by (rewrite length_fmap; by eapply lookup_lt_Some).
        injection Hj as <-.
        rewrite list_lookup_fmap in Hi. destruct (conts h !! i) as [ci|] eqn:Ei; [|done].
        injection Hi as Hi. rewrite Forall_forall in Hb.
        specialize (Hb ci (list_elem_of_lookup_2 _ _ _ Ei)). lia.
      * rewrite list_lookup_insert_ne in Hi, Hj by done.
        by eapply (NoDup_lookup _ _ _ r Hnd).
  - unfold final. simpl. split; simpl; [|done].
    rewrite length_app. eapply Forall_impl; [exact Hb|]. simpl. intros; lia.
Qed.

Lemma okept_init argument sealed0 ignore_chirality :
  okept (__init__ argument sealed0 ignore_chirality).
Proof.
  intros h Hh. unfold __init__.
  rewrite run_bind. unfold new_dict at 1. cbv beta iota.
  rewrite run_bind. unfold new_object at 1. cbv beta iota. simpl conts. simpl dicts.
  pose proof (alloc_ok h (Build (length (dicts h)) sealed0 (negb ignore_chirality) None)
                Hh eq_refl) as H1.
  destruct argument as [|other|mols|].
  - done.
  - rewrite run_bind. unfold load at 1.
    destruct (_ !! other) as [oc|]; [|done]. cbv beta iota.
    unfold dict_copy. rewrite run_bind, run_bind. unfold read_dict at 1.
    destruct (_ !! __data oc) as [od|]; [|done]. cbv beta iota.
    pose proof (fresh_data_ok _ (length (conts h)) od H1) as H2.
    rewrite run_bind in H2.
    destruct (new_dict od _) as [[r|e|] h2] eqn:E2; [|done|done].
    rewrite run_bind. cbn [conts].
    destruct (set_data (length (conts h)) r h2) as [[[]|e|] h3]; done.
  - apply (okept_bind _ _ (shape_keeps _ (shape_for_each mols _
             (λ m, shape_bind _ _ (shape_add _ m false)
                     (λ _, shape_set_sealed _ false))))); [|done].
    by intros _ h' Hh'.
  - done.
Qed.

(** Whatever method is called, with whatever arguments, and whether it
    returns or raises: if before the call every container referred to a
    dictionary of the store and no two containers to the same one, then so
    it is after the call.  The methods that construct or clear a container
    give it a dictionary allocated for it; all others leave the references as
    they are. *)
Theorem every_method_keeps_containers_apart self other mol replace smiles
    mol_list indices_list key default index argument sealed0 ignore_chirality
    fuel (h : heap Mol) :
  heap_ok h →
  heap_ok (final (__init__ argument sealed0 ignore_chirality h))
  ∧ heap_ok (final (add self mol replace h))
  ∧ heap_ok (final (remove_smiles self smiles h))
  ∧ heap_ok (final (remove_mol self mol h))
  ∧ heap_ok (final (remove_mols self mol_list h))
  ∧ heap_ok (final (remove_from_indices self indices_list h))
  ∧ heap_ok (final (get self key default h))
  ∧ heap_ok (final (pop self index h))
  ∧ heap_ok (final (copy self h))
  ∧ heap_ok (final (keys self h))
  ∧ heap_ok (final (clear self h))
  ∧ heap_ok (final (__repr__ self h))
  ∧ heap_ok (final (__str__ self h))
  ∧ heap_ok (final (__iter__ self h))
  ∧ heap_ok (final (__next__ self h))
  ∧ heap_ok (final (__add__ self other h))
  ∧ heap_ok (final (__radd__ self other h))
  ∧ heap_ok (final (__iadd__ self other h))
  ∧ heap_ok (final (__len__ self h))
  ∧ heap_ok (final (__contains__ self mol h))
  ∧ heap_ok (final (__getitem__ self key h))
  ∧ heap_ok (final (__eq__ self other h))
  ∧ heap_ok (final (__and__ self other h))
  ∧ heap_ok (final (__sub__ self other h))
  ∧ heap_ok (final (consume self h))
  ∧ heap_ok (final (to_list fuel self h)).
Proof.
  intros Hh.
  destruct (methods_same_shape self other mol replace smiles mol_list
              indices_list key default index fuel)
    as (S1 & S2 & S3 & S4 & S5 & S6 & S7 & S8 & S9 & S10 & S11 & S12 & S13
        & S14 & S15 & S16 & S17 & S18 & S19).
  assert (Hclear : okept (clear self)).
  { intros h0 Hh0. unfold clear. rewrite run_bind. unfold load at 1.
    destruct (conts h0 !! self) as [c|]; [|done]. cbv beta iota.
    rewrite run_bind. unfold read_dict at 1.
    destruct (dicts h0 !! __data c) as [d|]; [|done]. cbv beta iota.
    rewrite run_bind.
    pose proof (shape_keeps _ (shape_set_sealed self
                  (bool_decide (Z.of_nat (length d) = 0))) h0 Hh0) as H1.
    destruct (set_sealed self _ h0) as [[[]|e|] h1]; [|done|done].
    by apply fresh_data_ok. }
  assert (Hadd : okept (__add__ self other)).
  { unfold __add__. apply okept_bind; [apply okept_init|]. intros new.
    apply shape_keeps. shape. }
  assert (Hand : okept (__and__ self other)).
  { unfold __and__. apply okept_bind; [apply okept_init|]. intros new.
    apply shape_keeps. shape. }
  assert (Hsub : okept (__sub__ self other)).
  { unfold __sub__. apply okept_bind; [apply okept_init|]. intros new.
    apply shape_keeps. shape. }
  pose proof (okept_init argument sealed0 ignore_chirality h Hh).
  pose proof (okept_init (ArgContainer self) true false h Hh).
  repeat match goal with |- _ ∧ _ => split end;
    first [ assumption
          | by apply shape_keeps
          | by apply Hclear | by apply Hadd | by apply Hand | by apply Hsub ].
Qed.

End Separation.

Lemma bench_heap_ok : heap_ok bench.
Proof. split; apply (bool_decide_unpack _); by vm_compute. Qed.

(** Witness: a copy, a [clear] and an intersection on the bench. *)
Lemma every_method_keeps_containers_apart_witness :
  heap_ok bench
  ∧ heap_ok (final (copy 0%nat bench))
  ∧ heap_ok (final (clear 0%nat bench))
  ∧ heap_ok (final (__and__ 0%nat 1%nat bench)).
Proof.
  split; [exact bench_heap_ok|].
  destruct (every_method_keeps_containers_apart 0%nat 1%nat benzene false "CCO"
              [benzene] [0; -1] (KInt 0) PyNone 0 ArgNone true false 5%nat
              bench bench_heap_ok)
    as (_ & _ & _ & _ & _ & _ & _ & _ & H9 & _ & H11 & _ & _ & _ & _ & _ & _
        & _ & _ & _ & _ & _ & H23 & _).
  split; [exact H9|]. split; [exact H11 | exact H23].
Defined.

(** ** A call on one container leaves the others alone *)

Section Frame.
Context {Mol : Type} `{!Canonicalizer Mol}.
Variables (b : loc) (cb : umc) (db : dict Mol).
Implicit Types (h : heap Mol) (self : loc) (c : umc) (d : dict Mol).

Local Abbreviation safe m := (@spares Mol _ b cb db m) (only parsing).

Lemma safe_ret {A} (a : A) : safe (mret a : M Mol A).
Proof. by intros h. Qed.

Lemma safe_raise {A} e : safe (raise e : M Mol A).
Proof. by intros h. Qed.

Lemma safe_bind {A B} (m : M Mol A) (f : A → M Mol B) :
  spares b cb db m → (∀ a, spares b cb db (f a)) → spares b cb db (m ≫= f).
Proof.
  intros Hm Hf h Hh. rewrite run_bind. specialize (Hm h Hh).
  destruct (m h) as [[a|e|] h']; [by apply Hf | done | done].
Qed.

Lemma safe_try_except {A} (m : M Mol A) handler :
  spares b cb db m → (∀ e, spares b cb db (handler e)) →
  spares b cb db (try_except m handler).
Proof.
  intros Hm Hf h Hh. unfold try_except. specialize (Hm h Hh).
  destruct (m h) as [[a|e|] h']; [done | by apply Hf | done].
Qed.

Lemma safe_try_except_IndexError {A} (m handler : M Mol A) :
  spares b cb db m → spares b cb db handler →
  spares b cb db (try_except_IndexError m handler).
Proof.
  intros Hm Hf h Hh. unfold try_except_IndexError. specialize (Hm h Hh).
  destruct (m h) as [[a|[]|] h']; try done. by apply Hf.
Qed.

Lemma safe_load l : safe (load l : M Mol umc).
Proof. intros h Hh. unfold load. by destruct (conts h !! l). Qed.

Lemma safe_read_dict r : safe (read_dict r : M Mol (dict Mol)).
Proof. intros h Hh. unfold read_dict. by destruct (dicts h !! r). Qed.

(** The attributes of another container name another dictionary. *)
Lemma safe_load_bind {A} l (f : umc → M Mol A) :
  l ≠ b → (∀ c, __data c ≠ __data cb → spares b cb db (f c)) →
  spares b cb db (load l ≫= f).
Proof.
  intros Hl Hf h Hh. rewrite run_bind. unfold load.
  destruct (conts h !! l) as [c|] eqn:E; [|done].
  apply Hf; [|done]. intros Heq.
  destruct Hh as [[_ Hnd] [Hcb _]]. apply Hl.
  apply (NoDup_lookup _ l b (__data c) Hnd).
  - by rewrite list_lookup_fmap, E.
  - by rewrite list_lookup_fmap, Hcb, Heq.
Qed.

Lemma safe_write_dict r d : r ≠ __data cb → safe (write_dict r d).
Proof.
  intros Hr h [Hok [Hc Hd]].
  pose proof (shape_keeps _ (shape_write_dict r d) h Hok) as H1.
  unfold write_dict in *. destruct (dicts h !! r); [|done].
  split; [exact H1|]. unfold final, live. simpl. split; [done|].
  by rewrite list_lookup_insert_ne.
Qed.

Lemma safe_store_same_data l (f : umc → umc) :
  l ≠ b → (∀ c, __data (f c) = __data c) →
  safe (c ← load l; store l (f c) : M Mol unit).
Proof.
  intros Hl Hf h [Hok [Hc Hd]].
  pose proof (shape_keeps _ (shape_store_same_data l f Hf) h Hok) as H1.
  split; [exact H1|]. clear H1. rewrite run_bind. unfold load, store.
  destruct (conts h !! l) as [c|] eqn:E; [|done]. rewrite E.
  unfold final, live. simpl. split; [|done].
  by rewrite list_lookup_insert_ne.
Qed.

Lemma safe_set_sealed l v : l ≠ b → safe (set_sealed l v).
Proof.
  intros Hl.
  by apply (safe_store_same_data l
              (λ c, Build (__data c) v (__chirality c) (__index c))).
Qed.

Lemma safe_set_index l i : l ≠ b → safe (set_index l i).
Proof.
  intros Hl.
  by apply (safe_store_same_data l
              (λ c, Build (__data c) (sealed c) (__chirality c) (Some i))).
Qed.

Lemma safe_list_index {A} (xs : list A) i : safe (list_index xs i : M Mol A).
Proof.
  unfold list_index. destruct (list_getitem xs i); [apply safe_ret | apply safe_raise].
Qed.

Lemma safe_for_each {A} (xs : list A) (body : A → M Mol unit) :
  (∀ x, spares b cb db (body x)) → spares b cb db (for_each xs body).
Proof.
  intros Hb. induction xs as [|x xs IH]; [apply safe_ret|].
  cbn [for_each]. apply safe_bind; [apply Hb | by intros _].
Qed.

Lemma safe_comprehension {A B} (f : A → M Mol B) (xs : list A) :
  (∀ x, spares b cb db (f x)) → spares b cb db (comprehension f xs).
Proof.
  intros Hf. induction xs as [|x xs IH]; [apply safe_ret|].
  cbn [comprehension]. apply safe_bind; [apply Hf|]. intros y.
  apply safe_bind; [apply IH|]. intros ys. apply safe_ret.
Qed.

(** A container other than [b] is given a dictionary allocated for it. *)
Lemma fresh_step h a (x : dict Mol) :
  a ≠ b → bystander b cb db h →
  bystander b cb db
    (final (set_data a (length (dicts h)) (Heap (conts h) (dicts h ++ [x])))).
Proof.
  intros Ha [Hok [Hc Hd]]. split.
  - pose proof (fresh_data_ok h a x Hok) as H. rewrite run_bind in H.
    unfold new_dict at 1 in H. exact H.
  - unfold set_data. rewrite run_bind. unfold load, store. simpl.
    destruct (conts h !! a) as [c|] eqn:E; simpl.
    + rewrite E. unfold final, live. simpl. split.
      * by rewrite list_lookup_insert_ne.
      * by apply lookup_app_l_Some.
    + unfold final, live. simpl. split; [done|]. by apply lookup_app_l_Some.
Qed.

Lemma safe_fresh a (x : dict Mol) :
  a ≠ b → safe (r ← new_dict x; set_data a r).
Proof.
  intros Ha h Hh. rewrite run_bind. unfold new_dict at 1. cbv beta iota.
  by apply fresh_step.
Qed.

Create HintDb safe.

Hint Resolve safe_ret safe_raise safe_load safe_read_dict safe_write_dict
  safe_set_sealed safe_set_index safe_list_index safe_fresh : safe.

Ltac safe :=
  repeat first
    [ progress intros
    | solve [auto with safe]
    | apply safe_for_each
    | apply safe_comprehension
    | apply safe_try_except_IndexError
    | apply safe_try_except
    | apply safe_load_bind; [solve [auto]|]
    | apply safe_bind
    | progress cbv zeta
    | match goal with
      | |- spares _ _ _ (if ?x then _ else _) => destruct x
      | |- spares _ _ _ (match ?x with _ => _ end) => destruct x
      | |- spares _ _ _ (let (_, _) := ?x in _) => destruct x
      end ].

Lemma safe_dict_getitem r k : safe (dict_getitem r k).
Proof. unfold dict_getitem. safe. Qed.

Lemma safe_dict_setitem r k v : r ≠ __data cb → safe (dict_setitem r k v).
Proof. intros Hr. unfold dict_setitem. safe. Qed.

Lemma safe_dict_delitem r k : r ≠ __data cb → safe (dict_delitem r k).
Proof. intros Hr. unfold dict_delitem. safe. Qed.

Hint Resolve safe_dict_getitem safe_dict_setitem safe_dict_delitem : safe.

Lemma safe_add self mol replace : self ≠ b → safe (add self mol replace).
Proof. intros Hs. unfold add. safe. Qed.

Lemma safe_remove_smiles self smiles :
  self ≠ b → safe (remove_smiles self smiles).
Proof. intros Hs. unfold remove_smiles. safe. Qed.

Hint Resolve safe_add safe_remove_smiles : safe.

Lemma safe_remove_mol self mol : self ≠ b → safe (remove_mol self mol).
Proof. intros Hs. unfold remove_mol. safe. Qed.

Lemma safe_getitem self key : safe (__getitem__ self key).
Proof. unfold __getitem__. safe. Qed.

Lemma safe_contains self mol : safe (__contains__ self mol).
Proof. unfold __contains__. safe. Qed.

Lemma safe_pop self index : self ≠ b → safe (pop self index).
Proof. intros Hs. unfold pop. safe. Qed.

Lemma safe_next self : self ≠ b → safe (__next__ self).
Proof. intros Hs. unfold __next__. safe. Qed.

Hint Resolve safe_remove_mol safe_getitem safe_contains safe_pop
  safe_next : safe.

Lemma safe_remove_mols self mol_list :
  self ≠ b → safe (remove_mols self mol_list).
Proof.
  intros Hs.
  assert (∀ success, safe (remove_mols_loop self mol_list success)).
  { induction mol_list as [|m rest IH]; intros success; cbn [remove_mols_loop];
      safe. }
  unfold remove_mols. destruct mol_list; [safe | auto].
Qed.

Lemma safe_for_rounds fuel it : it ≠ b → safe (for_rounds fuel it).
Proof.
  intros Hs. induction fuel as [|fuel IH]; [by intros h|]. cbn [for_rounds].
  apply safe_bind.
  - intros h Hh. unfold next_or_stop. pose proof (safe_next it Hs h Hh) as Hn.
    by destruct (__next__ it h) as [[m|[]|] h'].
  - intros [m|]; [|apply safe_ret].
    apply safe_bind; [apply IH|]. intros ms. apply safe_ret.
Qed.

Hint Resolve safe_remove_mols safe_for_rounds : safe.

(** The constructor leaves the containers there were alone, and the object
    it returns is none of them. *)
Lemma init_spares argument sealed0 ignore_chirality h :
  bystander b cb db h →
  bystander b cb db (final (__init__ argument sealed0 ignore_chirality h))
  ∧ ∀ new, (__init__ argument sealed0 ignore_chirality h).1 = Ok new → new ≠ b.
Proof.
  intros Hh.
  remember (__init__ argument sealed0 ignore_chirality h) as res eqn:Er.
  unfold __init__ in Er.
  rewrite run_bind in Er. unfold new_dict at 1 in Er. cbv beta iota in Er.
  rewrite run_bind in Er. unfold new_object at 1 in Er. cbv beta iota in Er.
  cbn [conts dicts] in Er.
  set (c0 := Build (length (dicts h)) sealed0 (negb ignore_chirality) None) in Er.
  assert (Hnew : length (conts h) ≠ b).
  { destruct Hh as [_ [Hc _]]. apply lookup_lt_Some in Hc. lia. }
  assert (H1 : bystander b cb db (Heap (conts h ++ [c0]) (dicts h ++ [[]]))).
  { destruct Hh as [Hok [Hc Hd]]. split; [by apply alloc_ok|].
    split; simpl; by apply lookup_app_l_Some. }
  destruct argument as [|other|mols|].
  - subst res. split; [exact H1|]. by intros new [= <-].
  - rewrite run_bind in Er. unfold load at 1 in Er.
    destruct (_ !! other) as [oc|]; [|by subst res]. cbv beta iota in Er.
    unfold dict_copy in Er. rewrite run_bind, run_bind in Er.
    unfold read_dict at 1 in Er.
    destruct (_ !! __data oc) as [od|]; [|by subst res]. cbv beta iota in Er.
    unfold new_dict at 1 in Er. cbv beta iota in Er. rewrite run_bind in Er.
    pose proof (fresh_step _ (length (conts h)) od Hnew H1) as H2.
    cbn [conts dicts] in *.
    destruct (set_data (length (conts h)) _ _) as [[[]|e|] h3];
      subst res; (split; [exact H2|]); [|done|done].
    by intros new [= <-].
  - rewrite run_bind in Er.
    assert (Hloop : safe (for_each mols (λ m,
              add (length (conts h)) m false ;;
              set_sealed (length (conts h)) false))) by safe.
    specialize (Hloop _ H1).
    destruct (for_each mols _ _) as [[[]|e|] h2];
      subst res; (split; [exact Hloop|]); [|done|done].
    by intros new [= <-].
  - by subst res.
Qed.

Lemma safe_init_bind {A} argument sealed0 ignore_chirality (f : loc → M Mol A) :
  (∀ new, new ≠ b → spares b cb db (f new)) →
  spares b cb db (__init__ argument sealed0 ignore_chirality ≫= f).
Proof.
  intros Hf h Hh. rewrite run_bind.
  destruct (init_spares argument sealed0 ignore_chirality h Hh) as [H1 H2].
  destruct (__init__ argument sealed0 ignore_chirality h) as [[new|e|] h'];
    [|done|done].
  apply Hf; [by apply H2 | done].
Qed.

(** Whatever method is called on a container, with whatever arguments, and
    whether it returns or raises: every other container of a well-formed
    store has after the call the attributes and the records it had before.
    The other container may be the argument [other] of the call. *)
Theorem a_call_leaves_other_containers_alone self other mol replace smiles
    mol_list indices_list key default index argument sealed0 ignore_chirality
    fuel (h : heap Mol) :
  heap_ok h → live h b cb db → self ≠ b →
  live (final (__init__ argument sealed0 ignore_chirality h)) b cb db
  ∧ live (final (add self mol replace h)) b cb db
  ∧ live (final (remove_smiles self smiles h)) b cb db
  ∧ live (final (remove_mol self mol h)) b cb db
  ∧ live (final (remove_mols self mol_list h)) b cb db
  ∧ live (final (remove_from_indices self indices_list h)) b cb db
  ∧ live (final (get self key default h)) b cb db
  ∧ live (final (pop self index h)) b cb db
  ∧ live (final (copy self h)) b cb db
  ∧ live (final (keys self h)) b cb db
  ∧ live (final (clear self h)) b cb db
  ∧ live (final (__repr__ self h)) b cb db
  ∧ live (final (__str__ self h)) b cb db
  ∧ live (final (__iter__ self h)) b cb db
  ∧ live (final (__next__ self h)) b cb db
  ∧ live (final (__add__ self other h)) b cb db
  ∧ live (final (__radd__ self other h)) b cb db
  ∧ live (final (__iadd__ self other h)) b cb db
  ∧ live (final (__len__ self h)) b cb db
  ∧ live (final (__contains__ self mol h)) b cb db
  ∧ live (final (__getitem__ self key h)) b cb db
  ∧ live (final (__eq__ self other h)) b cb db
  ∧ live (final (__and__ self other h)) b cb db
  ∧ live (final (__sub__ self other h)) b cb db
  ∧ live (final (consume self h)) b cb db
  ∧ live (final (to_list fuel self h)) b cb db.
Proof.
  intros Hok Hlive Hs.
  assert (Hh : bystander b cb db h) by (by split).
  assert (Hadd : safe (__add__ self other)).
  { unfold __add__. apply safe_init_bind. intros new Hn. safe. }
  assert (Hand : safe (__and__ self other)).
  { unfold __and__. apply safe_init_bind. intros new Hn. safe. }
  assert (Hsub : safe (__sub__ self other)).
  { unfold __sub__. apply safe_init_bind. intros new Hn. safe. }
  repeat match goal with |- _ ∧ _ => split end;
    match goal with
    | |- live (final (?m h)) b cb db =>
        assert (Hm : safe m); [|exact (proj2 (Hm h Hh))]
    end.
  - intros h0 Hh0. by apply init_spares.
  - safe.
  - safe.
  - safe.
  - safe.
  - unfold remove_from_indices. safe.
  - unfold get. safe.
  - safe.
  - intros h0 Hh0. by apply init_spares.
  - unfold keys. safe.
  - unfold clear. safe.
  - unfold __repr__. safe.
  - unfold __str__. safe.
  - unfold __iter__. safe.
  - safe.
  - exact Hadd.
  - exact Hadd.
  - unfold __iadd__. safe.
  - unfold __len__. safe.
  - safe.
  - safe.
  - unfold __eq__. safe.
  - exact Hand.
  - exact Hsub.
  - unfold consume. safe.
  - unfold to_list, __iter__. intros h0 Hh0. rewrite run_bind, run_bind.
    pose proof (safe_set_index self (-1) Hs h0 Hh0) as H1.
    destruct (set_index self (-1) h0) as [[[]|e|] h1]; [|done|done].
    rewrite run_ret. by apply safe_for_rounds.
Qed.

End Frame.

(** Witness: calls on the first container of the bench, the second one
    looking on. *)
Lemma a_call_leaves_other_containers_alone_witness :
  heap_ok bench
  ∧ live bench 1%nat (Build 1 true true None) two_mols
  ∧ 0%nat ≠ 1%nat
  ∧ live (final (clear 0%nat bench)) 1%nat (Build 1 true true None) two_mols
  ∧ live (final (pop 0%nat 0 bench)) 1%nat (Build 1 true true None) two_mols
  ∧ live (final (__iadd__ 0%nat 1%nat bench)) 1%nat (Build 1 true true None)
      two_mols.
Proof.
  assert (Hne : 0%nat ≠ 1%nat) by lia.
  split; [exact bench_heap_ok|]. split; [exact bench_live_1|].
  split; [exact Hne|].
  destruct (a_call_leaves_other_containers_alone 1%nat (Build 1 true true None)
              two_mols 0%nat 1%nat benzene false "CCO" [benzene] [0; -1]
              (KInt 0) PyNone 0 ArgNone true false 5%nat bench
              bench_heap_ok bench_live_1 Hne)
    as (_ & _ & _ & _ & _ & _ & _ & H8 & _ & _ & H11 & _ & _ & _ & _ & _ & _
        & H18 & _).
  split; [exact H11|]. split; [exact H8 | exact H18].
Defined.
